(** * Dynamic-schema record engine: model and verified properties

    A shallow embedding of the request handlers of
    [controllers/inscriptionController.js] (createTable, listTables,
    deleteTable, editTable, uploadCsv, getTableRecords,
    getTableRecordById, updateTableRecord, updatePiRecord, uploadFile,
    createTableRecord) over an explicit model of what they act on: the
    PostgreSQL catalog and tables, the Sequelize model registry, the
    [files] table and the upload directory.

    Every handler is a function from the state and the request to a
    response and a new state.  An exception thrown inside a handler's
    [try] block is the [None] of an engine operation; the handler's
    [catch] turns it into status 500.

    Scope of the engine model.  A statement that names a table or a
    column that does not exist fails, and so does the DROP of a table
    to which a foreign key of another table refers.  A name spliced
    into a statement between quotes is read as that name; a name
    spliced without quotes is folded to lower case.  Cells hold the
    value bound to the statement, and values are compared as they are:
    the coercion of a value to the column's type and the engine's
    integrity checks on rows (key uniqueness, NOT NULL, referential
    actions) are not modelled.  The properties that depend on a name
    being read as it is written, or on a value being stored and
    compared as it is given, say so in their hypotheses (section
    Preconditions on names and values).  An object used as a dictionary
    lists its keys in JavaScript's order; a lookup in it answers for
    its own keys. *)

From Stdlib Require Import ZArith String Ascii List Bool Lia.
From stdpp Require Import base option list strings gmap fin_maps.

Local Open Scope Z_scope.
Local Open Scope string_scope.

(* ===================================================================== *)
(** * JavaScript values and strings *)
(* ===================================================================== *)

Module JS.

(** The JSON values a request body can bind to a key, and the cells
    of a row. Numbers are the integers. *)
Inductive value : Type :=
| VUndefined
| VNull
| VBool (b : bool)
| VNum (n : Z)
| VStr (s : string).

#[export] Instance value_eq_dec : EqDecision value.
Proof. solve_decision. Defined.

(** [if (v)] *)
Definition truthy (v : value) : bool :=
  match v with
  | VUndefined | VNull => false
  | VBool b => b
  | VNum n => negb (Z.eqb n 0)
  | VStr s => negb (String.eqb s "")
  end.

(** [v !== undefined && v !== null] *)
Definition present (v : value) : bool :=
  match v with
  | VUndefined | VNull => false
  | _ => true
  end.

(** [s.startsWith(p)] *)
Definition startsWith (s p : string) : bool := String.prefix p s.

Definition lower_ascii (c : ascii) : ascii :=
  let n := N_of_ascii c in
  if ((65 <=? n) && (n <=? 90))%N then ascii_of_N (n + 32) else c.

Definition upper_ascii (c : ascii) : ascii :=
  let n := N_of_ascii c in
  if ((97 <=? n) && (n <=? 122))%N then ascii_of_N (n - 32) else c.

Fixpoint map_string (f : ascii -> ascii) (s : string) : string :=
  match s with
  | EmptyString => EmptyString
  | String c r => String (f c) (map_string f r)
  end.

(** [s.toLowerCase()] and [s.toUpperCase()], on the ASCII letters;
    the strings of the model are byte strings, and on a name with
    letters outside ASCII JavaScript folds more. *)
Definition toLowerCase : string -> string := map_string lower_ascii.
Definition toUpperCase : string -> string := map_string upper_ascii.

Definition is_space (c : ascii) : bool :=
  let n := N_of_ascii c in
  ((n =? 32) || ((9 <=? n) && (n <=? 13)))%N.

Fixpoint trim_left (s : string) : string :=
  match s with
  | String c r => if is_space c then trim_left r else s
  | EmptyString => EmptyString
  end.

Fixpoint rev_string (acc s : string) : string :=
  match s with
  | EmptyString => acc
  | String c r => rev_string (String c acc) r
  end.

(** [s.trim()], on ASCII white space. *)
Definition trim (s : string) : string :=
  rev_string "" (trim_left (rev_string "" (trim_left s))).

(** [!s] for an optional string: missing or empty. *)
Definition falsy_str (o : option string) : bool :=
  match o with
  | None => true
  | Some s => String.eqb s ""
  end.

(** Decimal rendering of a non-negative integer and its inverse, for
    the text of URL and query parameters. *)
Definition digit_of (c : ascii) : option Z :=
  let n := N_of_ascii c in
  if ((48 <=? n) && (n <=? 57))%N then Some (Z.of_N (n - 48)) else None.

Fixpoint parse_digits (acc : Z) (s : string) : option Z :=
  match s with
  | EmptyString => Some acc
  | String c r =>
      match digit_of c with
      | Some d => parse_digits (10 * acc + d) r
      | None => None
      end
  end.

Definition parse_int (s : string) : option Z :=
  match s with
  | EmptyString => None
  | String "-" r =>
      match r with
      | EmptyString => None
      | _ => Z.opp <$> parse_digits 0 r
      end
  | _ => parse_digits 0 s
  end.

End JS.
Export JS.

(** The three domain prefixes of a dynamic table name. *)
Definition prefixed (table_name : string) : bool :=
  startsWith table_name "inscription_"
  || startsWith table_name "provider_"
  || startsWith table_name "pi_".

(* ===================================================================== *)
(** * Responses *)
(* ===================================================================== *)

(** The error taxonomy; a constructor's argument is the name the
    message quotes. *)
Inductive error : Type :=
| InvalidName
| MissingField
| InvalidFieldType
| NotFound
| NotEmpty
| ColumnHasData (column : string)
| ColumnHasForeignKey (column : string)
| RelatedRecordNotFound
| NoValidFields
| UnsupportedOperation
| InternalError.

(** [res.status(code).json(...)]: a payload on success, an error tag
    otherwise. *)
Inductive response (A : Type) : Type :=
| Reply (status : Z) (payload : A)
| Refuse (status : Z) (e : error).
Arguments Reply {A} status payload.
Arguments Refuse {A} status e.

Definition status_of {A} (r : response A) : Z :=
  match r with
  | Reply s _ => s
  | Refuse s _ => s
  end.

(* ===================================================================== *)
(** * The database *)
(* ===================================================================== *)

(** A row binds column names to cells; a column the row does not bind
    holds NULL. *)
Abbreviation row := (gmap string value).

Definition cell (r : row) (c : string) : value := default VNull (r !! c).

(** One line of [information_schema.columns]. *)
Record column : Type := Column {
  column_name : string;
  data_type : string;
  is_nullable : bool;
  column_default : option string;
}.

Inductive constraint_type : Type := PRIMARY_KEY | FOREIGN_KEY | UNIQUE_KEY.

Inductive action : Type := NO_ACTION | CASCADE | SET_NULL.

(** A key constraint of a table: its line of [key_column_usage]
    ([key_column]) joined with its line of [constraint_column_usage]
    ([ref_table], [ref_column]; for a primary key these are the table's
    own). *)
Record key_constraint : Type := KeyConstraint {
  constraint_name : string;
  kind : constraint_type;
  key_column : string;
  ref_table : string;
  ref_column : string;
  on_update : action;
  on_delete : action;
}.

Record table : Type := Table {
  columns : list column;
  keys : list key_constraint;
  rows : list row;
  next_id : Z;
}.

(** One row of the [files] table (models/File.js). *)
Record file_row : Type := FileRow {
  file_id : Z;
  file_record_id : string;
  file_table_name : string;
  file_name : string;
  file_path : string;
  file_source : string;
}.

(** Everything a handler can read or change. *)
Record state : Type := State {
  tables : gmap string table;          (* schema public *)
  metadata : list (string * bool);     (* TablesMetadata rows *)
  files : list file_row;               (* the files table *)
  next_file_id : Z;
  models : gmap string (list string);  (* sequelize.models: attributes *)
  disk : gmap string string;           (* path -> content *)
}.

Definition set_tables (st : state) (ts : gmap string table) : state :=
  State ts (metadata st) (files st) (next_file_id st) (models st) (disk st).

Definition set_metadata (st : state) (m : list (string * bool)) : state :=
  State (tables st) m (files st) (next_file_id st) (models st) (disk st).

Definition set_models (st : state) (ms : gmap string (list string)) : state :=
  State (tables st) (metadata st) (files st) (next_file_id st) ms (disk st).

Definition set_disk (st : state) (d : gmap string string) : state :=
  State (tables st) (metadata st) (files st) (next_file_id st) (models st) d.

Definition column_names (t : table) : list string :=
  map column_name (columns t).

Definition has_column (t : table) (c : string) : bool :=
  bool_decide (c ∈ column_names t).

(** SQL [a = b] between two cells or a cell and a bound value of the
    same type: never true on NULL.  Values of different types, which
    the engine coerces or refuses to compare, differ here. *)
Definition sql_eq (a b : value) : bool :=
  present a && present b && bool_decide (a = b).

(** SQL [cell = :param] for the text of a URL or query parameter: an
    integer cell matches the decimal text that denotes it.  A text the
    engine would read otherwise (surrounding blanks, a plus sign) or
    refuse for the type of the column matches nothing here. *)
Definition cell_matches (c : value) (p : string) : bool :=
  match c with
  | VNum n => bool_decide (parse_int p = Some n)
  | VStr s => String.eqb s p
  | VBool b => String.eqb p (if b then "true" else "false")
  | VNull | VUndefined => false
  end.

(* ===================================================================== *)
(** * Engine operations *)
(* ===================================================================== *)

Fixpoint all_chars (f : ascii -> bool) (s : string) : bool :=
  match s with
  | EmptyString => true
  | String c r => f c && all_chars f r
  end.

(** The characters of an identifier written without quotes: a letter,
    an underscore or a byte above 127 and, after the first character,
    also a digit or a dollar sign. *)
Definition identifier_start (c : ascii) : bool :=
  let n := N_of_ascii c in
  (((65 <=? n) && (n <=? 90)) || ((97 <=? n) && (n <=? 122))
   || (n =? 95) || (128 <=? n))%N.

Definition identifier_part (c : ascii) : bool :=
  let n := N_of_ascii c in
  (identifier_start c || ((48 <=? n) && (n <=? 57)) || (n =? 36))%N.

Definition regular_identifier (s : string) : bool :=
  match s with
  | EmptyString => false
  | String c r => identifier_start c && all_chars identifier_part r
  end.

(** The table a name denotes in a statement that splices it without
    quotes, as in [FROM ${table_name}]: PostgreSQL folds the ASCII
    letters of an identifier to lower case, and a name that is no
    identifier makes the statement fail.  Key words are not told
    apart: no name with one of the three prefixes is one. *)
Definition unquoted (table_name : string) : option string :=
  if regular_identifier table_name then Some (toLowerCase table_name)
  else None.

(** [SELECT COUNT( * ) FROM t] *)
Definition count_rows (st : state) (table_name : string) : option Z :=
  t ← tables st !! table_name;
  Some (Z.of_nat (length (rows t))).

(** [constraint_type = 'FOREIGN KEY'] *)
Definition is_foreign_key (k : constraint_type) : bool :=
  match k with
  | FOREIGN_KEY => true
  | _ => false
  end.

(** A foreign key of another table refers to [table_name]. *)
Definition referenced (st : state) (table_name : string) : bool :=
  existsb
    (fun nt : string * table =>
       negb (String.eqb nt.1 table_name)
       && existsb
            (fun k => is_foreign_key (kind k)
                      && String.eqb (ref_table k) table_name)
            (keys nt.2))
    (map_to_list (tables st)).

(** [queryInterface.dropTable(t)]: DROP TABLE IF EXISTS, without
    CASCADE: the statement fails when a foreign key of another table
    depends on the table. *)
Definition dropTable (st : state) (table_name : string) : option state :=
  if referenced st table_name then None
  else Some (set_tables st (delete table_name (tables st))).

(** SQL [s LIKE p]: [_] is any one character, [%] any run of them. *)
Fixpoint sql_like (p s : string) : bool :=
  match p with
  | EmptyString => String.eqb s ""
  | String "%" p' =>
      (fix any (s : string) : bool :=
         sql_like p' s
         || match s with
            | EmptyString => false
            | String _ s' => any s'
            end) s
  | String "_" p' =>
      match s with
      | EmptyString => false
      | String _ s' => sql_like p' s'
      end
  | String c p' =>
      match s with
      | EmptyString => false
      | String d s' => Ascii.eqb c d && sql_like p' s'
      end
  end.

(** The names of the base tables of schema public that match a
    pattern. *)
Definition base_tables_like (st : state) (pattern : string) : list string :=
  filter (fun n => sql_like pattern n = true) (map fst (map_to_list (tables st))).

(** The Sequelize data types the handlers use. *)
Inductive seq_type : Type := STRING | TEXT | INTEGER | DECIMAL | BOOLEAN | DATE.

#[export] Instance seq_type_eq_dec : EqDecision seq_type.
Proof. solve_decision. Defined.

(** The column type PostgreSQL reports for a Sequelize type. *)
Definition native_type (t : seq_type) : string :=
  match t with
  | STRING => "character varying"
  | TEXT => "text"
  | INTEGER => "integer"
  | DECIMAL => "numeric"
  | BOOLEAN => "boolean"
  | DATE => "timestamp with time zone"
  end.

(** A column definition handed to [queryInterface]. *)
Record attribute : Type := Attribute {
  attr_type : seq_type;
  allowNull : bool;
  primaryKey : bool;
  autoIncrement : bool;
  references : option (string * string);   (* model, key *)
  onUpdate : action;
  onDelete : action;
}.

(** The number a property key denotes when it is an array index: the
    decimal text, without sign or leading zero, of a number below
    2^32 - 1. *)
Definition array_index (k : string) : option Z :=
  match k with
  | EmptyString => None
  | String c r =>
      if Ascii.eqb c "0" && negb (String.eqb r "") then None
      else
        match parse_digits 0 k with
        | Some n => if Z.ltb n 4294967295 then Some n else None
        | None => None
        end
  end.

(** Whether a new key [k] is listed before the key [k'] of an object:
    array indices come first, in ascending order; the other keys
    follow in the order of their creation. *)
Definition key_before (k k' : string) : bool :=
  match array_index k, array_index k' with
  | Some n, Some n' => Z.ltb n n'
  | Some _, None => true
  | None, _ => false
  end.

(** An object as the list of its own properties in the order
    [Object.keys] and [for ... in] list them; [obj_put] is the
    definition of the property [k]. *)
Fixpoint obj_put {A} (k : string) (v : A) (o : list (string * A))
  : list (string * A) :=
  match o with
  | [] => [(k, v)]
  | (k', v') :: o' =>
      if String.eqb k' k then (k', v) :: o'
      else if key_before k k' then (k, v) :: o
      else (k', v') :: obj_put k v o'
  end.

(** [obj[k] = v] for an object [v]: the key [__proto__] sets the
    prototype and defines no property. *)
Definition obj_set {A} (k : string) (v : A) (o : list (string * A))
  : list (string * A) :=
  if String.eqb k "__proto__" then o else obj_put k v o.

(** The keys of the object that results from defining the keys [ks] in
    turn. *)
Definition js_keys (ks : list string) : list string :=
  map fst (fold_left (fun o k => obj_put k tt o) ks []).

Definition column_of (table_name : string) (na : string * attribute) : column :=
  let (n, a) := na in
  Column n (native_type (attr_type a))
    (allowNull a && negb (primaryKey a))
    (if autoIncrement a
     then Some ("nextval('" ++ table_name ++ "_" ++ n ++ "_seq'::regclass)")
     else None).

Definition keys_of (table_name : string) (na : string * attribute)
  : list key_constraint :=
  let (n, a) := na in
  (if primaryKey a
   then [KeyConstraint (table_name ++ "_pkey") PRIMARY_KEY n table_name n
           NO_ACTION NO_ACTION]
   else [])
  ++ match references a with
     | Some (m, k) =>
         [KeyConstraint (table_name ++ "_" ++ n ++ "_fkey") FOREIGN_KEY n m k
            (onUpdate a) (onDelete a)]
     | None => []
     end.

(** Does [m.k] name a column, for a table [table_name] being defined
    with the columns [own]? *)
Definition resolves (st : state) (table_name : string) (own : list string)
    (mk : string * string) : bool :=
  let (m, k) := mk in
  if String.eqb m table_name then bool_decide (k ∈ own)
  else match tables st !! m with
       | Some t => has_column t k
       | None => false
       end.

Definition references_resolve (st : state) (table_name : string)
    (own : list string) (a : attribute) : bool :=
  match references a with
  | Some mk => resolves st table_name own mk
  | None => true
  end.

(** [queryInterface.createTable(t, columns)]: CREATE TABLE IF NOT
    EXISTS, with a fresh sequence starting at 1. *)
Definition db_createTable (st : state) (table_name : string)
    (cols : list (string * attribute)) : option state :=
  match tables st !! table_name with
  | Some _ => Some st
  | None =>
      if forallb (fun na => references_resolve st table_name (map fst cols) na.2) cols
      then Some (set_tables st
                   (<[table_name :=
                        Table (map (column_of table_name) cols)
                              (flat_map (keys_of table_name) cols) [] 1]>
                      (tables st)))
      else None
  end.

(** Modelled from the spec: the Table Registry model
    ([models/TablesMetadata.js] is not among the sources). An entry is
    [{table_name (unique), is_primary}]; [create] inserts the name with
    [is_primary] false and fails on a name already registered. *)
Definition TablesMetadata_create (st : state) (table_name : string)
  : option state :=
  if existsb (fun m => String.eqb m.1 table_name) (metadata st) then None
  else Some (set_metadata st (metadata st ++ [(table_name, false)])).

(* ===================================================================== *)
(** * Schema handlers *)
(* ===================================================================== *)

(** One entry of [fields] / [fieldsToAdd] in a request body. *)
Record field : Type := Field {
  field_name : option string;
  field_type : option string;
  allow_null : option bool;
  relatedTable : option string;
  relatedColumn : option string;
}.

(** [!field.name || field.name.trim() === ''] *)
Definition blank_name (f : field) : bool :=
  match field_name f with
  | None => true
  | Some n => String.eqb n "" || String.eqb (trim n) ""
  end.

(** [field.allow_null !== false] *)
Definition allows_null (f : field) : bool :=
  negb (bool_decide (allow_null f = Some false)).

Module CreateTable.

(** The own keys of [validTypes]; the lookup [validTypes[field.type]]
    is modelled on them. *)
Definition validTypes : gmap string seq_type :=
  list_to_map
    [("VARCHAR(255)", STRING); ("TEXT", TEXT); ("INTEGER", INTEGER);
     ("DECIMAL", DECIMAL); ("BOOLEAN", BOOLEAN); ("DATE", DATE);
     ("FOREIGN_KEY", INTEGER)].

Definition id_column : attribute :=
  Attribute INTEGER true true true None NO_ACTION NO_ACTION.

(** The body of the loop over [fields]: the error it returns, or the
    [columns] object extended with the field. *)
Definition add_field (cols : list (string * attribute)) (f : field)
  : error + list (string * attribute) :=
  if blank_name f then inl MissingField
  else
    let n := default "" (field_name f) in
    if bool_decide (field_type f = Some "FOREIGN_KEY") then
      match relatedTable f with
      | Some rt =>
          if String.eqb rt "" then inl MissingField
          else inr (obj_set n
                      (Attribute INTEGER (allows_null f) false false
                         (Some (rt, "id")) CASCADE SET_NULL) cols)
      | None => inl MissingField
      end
    else
      match field_type f ≫= (validTypes !!.) with
      | Some ty =>
          inr (obj_set n
                 (Attribute ty (allows_null f) false false None
                    NO_ACTION NO_ACTION) cols)
      | None => inl InvalidFieldType
      end.

Fixpoint add_fields (cols : list (string * attribute)) (fs : list field)
  : error + list (string * attribute) :=
  match fs with
  | [] => inr cols
  | f :: fs' =>
      match add_field cols f with
      | inl e => inl e
      | inr cols' => add_fields cols' fs'
      end
  end.

End CreateTable.

(** [exports.createTable] *)
Definition createTable (st : state) (table_name : option string)
    (fields : option (list field)) : response unit * state :=
  match table_name, fields with
  | Some tn, Some fs =>
      if String.eqb tn "" || bool_decide (fs = []) then
        (Refuse 400 MissingField, st)
      else if negb (prefixed tn) then (Refuse 400 InvalidName, st)
      else
        match CreateTable.add_fields [("id", CreateTable.id_column)] fs with
        | inl e => (Refuse 400 e, st)
        | inr cols =>
            match db_createTable st tn cols with
            | None => (Refuse 500 InternalError, st)
            | Some st1 =>
                match TablesMetadata_create st1 tn with
                | None => (Refuse 500 InternalError, st1)
                | Some st2 => (Reply 201 tt, st2)
                end
            end
        end
  | _, _ => (Refuse 400 MissingField, st)
  end.

(** [exports.listTables]: the listed names with their [is_primary]. *)
Definition listTables (st : state) (tableType isPrimary : option string)
  : response (list (string * bool)) :=
  let tablePrefix :=
    if bool_decide (tableType = Some "provider") then "provider_%"
    else if bool_decide (tableType = Some "pi") then "pi_%"
    else "inscription_%" in
  let tables := base_tables_like st tablePrefix in
  let tableList :=
    map (fun n =>
           (n, match find (fun m => String.eqb m.1 n) (metadata st) with
               | Some m => m.2
               | None => false
               end)) tables in
  let tableList :=
    if bool_decide (isPrimary = Some "true")
    then filter (fun t => t.2 = true) tableList
    else tableList in
  if bool_decide (tableList = []) then Refuse 404 NotFound
  else Reply 200 tableList.

(** [exports.deleteTable] *)
Definition deleteTable (st : state) (table_name : string)
  : response unit * state :=
  match unquoted table_name ≫= count_rows st with
  | None => (Refuse 500 InternalError, st)
  | Some recordCount =>
      if recordCount >? 0 then (Refuse 400 NotEmpty, st)
      else
        match dropTable st table_name with
        | None => (Refuse 500 InternalError, st)
        | Some st' => (Reply 200 tt, st')
        end
  end.

(** [SELECT COUNT( * ) FROM "t" WHERE "c" IS NOT NULL], for names
    that hold no double quote. *)
Definition count_not_null (st : state) (table_name c : string) : option Z :=
  t ← tables st !! table_name;
  if has_column t c
  then Some (Z.of_nat (length (filter (fun r => present (cell r c) = true) (rows t))))
  else None.

(** [SELECT constraint_name FROM information_schema.key_column_usage
     WHERE table_name = :table_name AND column_name = :column_name] *)
Definition key_column_usage (st : state) (table_name c : string)
  : list string :=
  match tables st !! table_name with
  | Some t =>
      map constraint_name
        (filter (fun k => key_column k = c) (keys t))
  | None => []
  end.

(** [queryInterface.addColumn(t, name, definition)] *)
Definition addColumn (st : state) (table_name n : string) (a : attribute)
  : option state :=
  t ← tables st !! table_name;
  if has_column t n then None
  else if references_resolve st table_name (column_names t) a
  then Some (set_tables st
               (<[table_name :=
                    Table (columns t ++ [column_of table_name (n, a)])
                          (keys t ++ keys_of table_name (n, a))
                          (rows t) (next_id t)]> (tables st)))
  else None.

(** [queryInterface.removeColumn(t, name)] *)
Definition removeColumn (st : state) (table_name c : string) : option state :=
  t ← tables st !! table_name;
  if has_column t c
  then Some (set_tables st
               (<[table_name :=
                    Table (filter (fun col => column_name col ≠ c) (columns t))
                          (filter (fun k => key_column k ≠ c) (keys t))
                          (delete c <$> rows t) (next_id t)]> (tables st)))
  else None.

(** One entry of [fieldsToDelete]. *)
Record deletion : Type := Deletion { del_column_name : option string }.

(** [field.column_name] as the statements interpolate it. *)
Definition columnName (d : deletion) : string :=
  default "undefined" (del_column_name d).

Module EditTable.

Definition validTypes : gmap string seq_type :=
  list_to_map
    [("VARCHAR(255)", STRING); ("CHARACTER VARYING", STRING);
     ("TEXT", TEXT); ("INTEGER", INTEGER); ("DECIMAL", DECIMAL);
     ("BOOLEAN", BOOLEAN); ("DATE", DATE); ("FOREIGN_KEY", INTEGER)].

(** A loop body either returns a response (status and error) or goes
    on with the state it reached. *)
Definition step : Type := (Z * error) + state.

Definition try_ddl (o : option state) : step :=
  match o with
  | Some st' => inr st'
  | None => inl (500, InternalError)
  end.

(** The body of the loop over [fieldsToAdd]. *)
Definition add_one (st : state) (table_name : string) (f : field) : step :=
  if blank_name f then inl (400, MissingField)
  else
    let n := default "" (field_name f) in
    match field_type f with
    | None => inl (500, InternalError)
    | Some ty =>
        if String.eqb (toUpperCase ty) "FOREIGN_KEY" then
          if falsy_str (relatedTable f) || falsy_str (relatedColumn f)
          then inl (400, MissingField)
          else
            try_ddl
              (addColumn st table_name n
                 (Attribute INTEGER (allows_null f) false false
                    (Some (default "" (relatedTable f),
                           default "" (relatedColumn f)))
                    CASCADE SET_NULL))
        else
          match validTypes !! toUpperCase ty with
          | None => inl (400, InvalidFieldType)
          | Some sty =>
              try_ddl
                (addColumn st table_name n
                   (Attribute sty (allows_null f) false false None
                      NO_ACTION NO_ACTION))
          end
    end.

(** The body of the loop over [fieldsToDelete]. *)
Definition delete_one (st : state) (table_name : string) (d : deletion)
  : step :=
  let c := columnName d in
  match count_not_null st table_name c with
  | None => inl (500, InternalError)
  | Some count =>
      if count >? 0 then inl (400, ColumnHasData c)
      else if negb (bool_decide (key_column_usage st table_name c = []))
      then inl (400, ColumnHasForeignKey c)
      else try_ddl (removeColumn st table_name c)
  end.

(** A [for] loop whose body may return: the response and the state at
    the return, or the state after the last item. *)
Fixpoint loop {A} (body : state -> A -> step) (st : state) (l : list A)
  : (Z * error * state) + state :=
  match l with
  | [] => inr st
  | x :: l' =>
      match body st x with
      | inl (code, e) => inl (code, e, st)
      | inr st' => loop body st' l'
      end
  end.

End EditTable.

(** [exports.editTable] *)
Definition editTable (st : state) (table_name : string)
    (fieldsToAdd : option (list field))
    (fieldsToDelete : option (list deletion))
    (fieldsToEdit : option (list field)) : response unit * state :=
  if negb (bool_decide (default [] fieldsToEdit = [])) then
    (Refuse 400 UnsupportedOperation, st)
  else
    match EditTable.loop (fun s => EditTable.add_one s table_name) st
            (default [] fieldsToAdd) with
    | inl (code, e, st1) => (Refuse code e, st1)
    | inr st1 =>
        match EditTable.loop (fun s => EditTable.delete_one s table_name) st1
                (default [] fieldsToDelete) with
        | inl (code, e, st2) => (Refuse code e, st2)
        | inr st2 => (Reply 200 tt, st2)
        end
    end.

(* ===================================================================== *)
(** * Catalog queries and statements on records *)
(* ===================================================================== *)

(** [SELECT column_name, data_type FROM information_schema.columns
     WHERE LOWER(table_name) = LOWER(:table_name)] *)
Definition columns_ci (st : state) (table_name : string) : list column :=
  flat_map
    (fun nt : string * table =>
       if String.eqb (toLowerCase nt.1) (toLowerCase table_name)
       then columns nt.2 else [])
    (map_to_list (tables st)).

(** [... WHERE table_name = '<table_name>' AND table_schema = 'public'],
    for a name that holds no single quote. *)
Definition columns_of (st : state) (table_name : string) : list column :=
  match tables st !! table_name with
  | Some t => columns t
  | None => []
  end.

(** The filter every write handler applies to its body:
    [fields.includes(key) && data[key] !== undefined && data[key] !== null]. *)
Definition filteredData (fields : list string) (data : gmap string value)
  : gmap string value :=
  filter (fun kv : string * value => kv.1 ∈ fields ∧ present kv.2 = true) data.

(** [s.includes(sub)] *)
Fixpoint includes (s sub : string) : bool :=
  String.prefix sub s
  || match s with
     | EmptyString => false
     | String _ r => includes r sub
     end.

(** The table draws [id] from a sequence. *)
Definition serial_id (t : table) : bool :=
  existsb
    (fun c => String.eqb (column_name c) "id"
              && match column_default c with
                 | Some d => includes d "nextval"
                 | None => false
                 end)
    (columns t).

Definition all_columns (t : table) (m : gmap string value) : bool :=
  bool_decide (map_Forall (fun k _ => k ∈ column_names t) m).

(** A row as the table stores it, and the sequence after the insert. *)
Definition stored (t : table) (vals : row) : row * Z :=
  if serial_id t && bool_decide (vals !! "id" = None)
  then (<["id" := VNum (next_id t)]> vals, next_id t + 1)
  else (vals, next_id t).

(** [INSERT INTO t (keys) VALUES (values) RETURNING *]; an empty column
    list is a syntax error. *)
Definition sql_insert (st : state) (table_name : string) (vals : row)
  : option (row * state) :=
  t ← tables st !! table_name;
  if bool_decide (vals = ∅) then None
  else if all_columns t vals then
    let (r, n) := stored t vals in
    Some (r, set_tables st
               (<[table_name := Table (columns t) (keys t) (rows t ++ [r]) n]>
                  (tables st)))
  else None.

(** [UPDATE t SET sets WHERE id = <the row matches> RETURNING *]: the
    updated rows and the new state. *)
Definition sql_update (st : state) (table_name : string) (sets : row)
    (matches : row -> bool) : option (list row * state) :=
  t ← tables st !! table_name;
  if bool_decide (sets = ∅) then None
  else if has_column t "id" && all_columns t sets then
    Some (map (fun r => sets ∪ r) (filter (fun r => matches r = true) (rows t)),
          set_tables st
            (<[table_name :=
                 Table (columns t) (keys t)
                   (map (fun r => if matches r then sets ∪ r else r) (rows t))
                   (next_id t)]> (tables st)))
  else None.

(** [c1 = :v1 AND c2 = :v2 ...] on a row. *)
Definition satisfies (conds : list (string * value)) (r : row) : bool :=
  forallb (fun cv : string * value => sql_eq (cell r cv.1) cv.2) conds.

(** [SELECT id FROM t WHERE c1 = :v1 AND ...] *)
Definition select_where (st : state) (table_name : string)
    (conds : list (string * value)) : option (list row) :=
  t ← tables st !! table_name;
  if has_column t "id" && forallb (fun cv => has_column t cv.1) conds
  then Some (filter (fun r => satisfies conds r = true) (rows t))
  else None.

(** [SELECT 1 FROM t WHERE id = ?] has a row, for a record id that
    [cell_matches] reads as the engine does. *)
Definition record_exists (st : state) (table_name record_id : string)
  : option bool :=
  t ← tables st !! table_name;
  if has_column t "id"
  then Some (existsb (fun r => cell_matches (cell r "id") record_id) (rows t))
  else None.

(* ===================================================================== *)
(** * Record handlers *)
(* ===================================================================== *)

(** The body [updateTableRecord] and [updatePiRecord] share after their
    prefix checks. *)
Definition apply_update (st : state) (table_name record_id : string)
    (updatedData : gmap string value) : response row * state :=
  match record_exists st table_name record_id with
  | None => (Refuse 500 InternalError, st)
  | Some false => (Refuse 404 NotFound, st)
  | Some true =>
      let fields := map column_name (columns_ci st table_name) in
      if bool_decide (fields = []) then (Refuse 500 InternalError, st)
      else
        let filtered := filteredData fields updatedData in
        if bool_decide (filtered = ∅) then (Refuse 400 NoValidFields, st)
        else
          match sql_update st table_name filtered
                  (fun r => cell_matches (cell r "id") record_id) with
          | None => (Refuse 500 InternalError, st)
          | Some ([], st') => (Refuse 404 NotFound, st')
          | Some (r :: _, st') => (Reply 200 r, st')
          end
  end.

(** [exports.updateTableRecord] *)
Definition updateTableRecord (st : state) (table_name record_id : string)
    (updatedData : gmap string value) : response row * state :=
  if negb (startsWith table_name "provider_")
     && negb (startsWith table_name "inscription_")
  then (Refuse 400 InvalidName, st)
  else apply_update st table_name record_id updatedData.

(** [exports.updatePiRecord] *)
Definition updatePiRecord (st : state) (table_name record_id : string)
    (updatedData : gmap string value) : response row * state :=
  if negb (startsWith table_name "pi_") then (Refuse 400 InvalidName, st)
  else apply_update st table_name record_id updatedData.

Module CreateRecord.

(** [filteredData.<key>] *)
Definition prop (filtered : row) (key : string) : value :=
  default VUndefined (filtered !! key).

(** The natural-key lookup the handler runs, if it runs one. *)
Definition natural_key (table_name : string) (filtered : row)
  : option (list (string * value)) :=
  if String.eqb table_name "pi_formulacion" then
    if truthy (prop filtered "caracterizacion_id")
       && truthy (prop filtered "rel_id_prov")
    then Some [("caracterizacion_id", prop filtered "caracterizacion_id");
               ("rel_id_prov", prop filtered "rel_id_prov")]
    else None
  else
    if truthy (prop filtered "caracterizacion_id")
    then Some [("caracterizacion_id", prop filtered "caracterizacion_id")]
    else None.

Definition insert (st : state) (table_name : string) (filtered : row)
  : response (option row) * state :=
  match sql_insert st table_name filtered with
  | None => (Refuse 500 InternalError, st)
  | Some (r, st') => (Reply 201 (Some r), st')
  end.

End CreateRecord.

(** [exports.createTableRecord] *)
Definition createTableRecord (st : state) (table_name : string)
    (data : gmap string value) : response (option row) * state :=
  if negb (startsWith table_name "pi_") then (Refuse 400 InvalidName, st)
  else
    let fields :=
      filter (fun n => n ≠ "") (map column_name (columns_ci st table_name)) in
    if bool_decide (fields = []) then (Refuse 500 InternalError, st)
    else
      let filtered := filteredData fields data in
      match CreateRecord.natural_key table_name filtered with
      | Some conds =>
          match select_where st table_name conds with
          | None => (Refuse 500 InternalError, st)
          | Some (existing :: _) =>
              let recordId := cell existing "id" in
              match sql_update st table_name filtered
                      (fun r => sql_eq (cell r "id") recordId) with
              | None => (Refuse 500 InternalError, st)
              | Some (updated, st') => (Reply 200 (head updated), st')
              end
          | Some [] => CreateRecord.insert st table_name filtered
          end
      | None => CreateRecord.insert st table_name filtered
      end.

Module ListRecords.

(** One conjunct of the WHERE clause. *)
Inductive predicate : Type :=
| EstadoIn12                           (* inscription_caracterizacion."Estado" IN (1, 2) *)
| EstadoEq (param : string)            (* inscription_caracterizacion."Estado" = :param *)
| ColumnEq (c : string) (param : string).  (* "t"."c" = :param *)

(** The statement the handler assembles. *)
Record query : Type := Query {
  from : string;
  inner_join : bool;   (* INNER JOIN inscription_caracterizacion
                          ON "t".caracterizacion_id = inscription_caracterizacion.id *)
  whereClauses : list predicate;
}.

(** The body of the loop over [Object.entries(filters)]. *)
Definition add_filter (table_name : string) (fields : list column)
    (whereClauses : list predicate) (kv : string * string)
  : list predicate :=
  let (key, value) := kv in
  let fieldInCurrentTable :=
    find (fun f => String.eqb (toLowerCase (column_name f)) (toLowerCase key))
         fields in
  let isPiTable := startsWith table_name "pi_" in
  if isPiTable && String.eqb key "Estado" then
    whereClauses ++ [EstadoEq value]
  else
    match fieldInCurrentTable with
    | Some f => whereClauses ++ [ColumnEq (column_name f) value]
    | None => whereClauses
    end.

Definition build (st : state) (table_name : string)
    (filters : list (string * string)) : query :=
  let fields := columns_ci st table_name in
  let pi := startsWith table_name "pi_" in
  Query table_name pi
    (fold_left (add_filter table_name fields) filters
       (if pi then [EstadoIn12] else [])).

(** A conjunct on a row [r] of the table joined with the
    characterization row [c]. *)
Definition holds (r c : row) (p : predicate) : bool :=
  match p with
  | EstadoIn12 =>
      sql_eq (cell c "Estado") (VNum 1) || sql_eq (cell c "Estado") (VNum 2)
  | EstadoEq param => cell_matches (cell c "Estado") param
  | ColumnEq col param => cell_matches (cell r col) param
  end.

Definition resolves (t : table) (joined : option table) (p : predicate)
  : bool :=
  match p with
  | ColumnEq col _ => has_column t col
  | _ => match joined with
         | Some ic => has_column ic "Estado"
         | None => false
         end
  end.

(** [sequelize.query(query, { replacements })] *)
Definition run (st : state) (q : query) : option (list row) :=
  t ← tables st !! from q;
  if inner_join q then
    ic ← tables st !! "inscription_caracterizacion";
    if has_column t "caracterizacion_id" && has_column ic "id"
       && forallb (resolves t (Some ic)) (whereClauses q)
    then Some (r ← rows t;
               c ← rows ic;
               if sql_eq (cell r "caracterizacion_id") (cell c "id")
                  && forallb (holds r c) (whereClauses q)
               then [r] else [])
    else None
  else
    if forallb (resolves t None) (whereClauses q)
    then Some (filter (fun r => forallb (holds r ∅) (whereClauses q) = true)
                      (rows t))
    else None.

End ListRecords.

(** [exports.getTableRecords]; [recordsWithTypes] copies every entry of
    every record, so the payload is the statement's result. *)
Definition getTableRecords (st : state) (table_name : string)
    (filters : list (string * string)) : response (list row) :=
  if negb (prefixed table_name) then Refuse 400 InvalidName
  else
    match ListRecords.run st (ListRecords.build st table_name filters) with
    | None => Refuse 500 InternalError
    | Some records => Reply 200 records
    end.

Module Models.

(** The catalog types the handlers know how to map to a Sequelize
    type. *)
Definition validTypes : gmap string seq_type :=
  list_to_map
    [("varchar", STRING); ("character varying", STRING); ("text", TEXT);
     ("integer", INTEGER); ("boolean", BOOLEAN); ("date", DATE)].

(** [columns.reduce(...)]: the keys of [tableColumns], in the order
    the object lists them, with their types. *)
Definition tableColumns (cols : list column) : list (string * seq_type) :=
  fold_left
    (fun acc c =>
       match validTypes !! toLowerCase (data_type c) with
       | Some ty => obj_set (column_name c) ty acc
       | None => acc
       end)
    cols [].

(** [sequelize.define(name, tableColumns, ...)]: the attributes of the
    model. For a model that marks no primary key Sequelize builds a new
    attribute object, defining [id] first and the given attributes
    after it, and it rejects an [id] attribute that is not the primary
    key. *)
Definition define (attrs : list string) (id_is_primary : bool)
  : option (list string) :=
  if bool_decide ("id" ∈ attrs) then
    if id_is_primary then Some attrs else None
  else Some (js_keys ("id" :: attrs)).

(** The model the read handlers define: [id] is the primary key
    whenever it is an attribute. *)
Definition define_keyed (cols : list column) : list string :=
  let attrs := map fst (tableColumns cols) in
  if bool_decide ("id" ∈ attrs) then attrs else js_keys ("id" :: attrs).

(** [sequelize.isDefined(name) ? sequelize.model(name) : define(...)]
    for a related table. *)
Definition model_of (st : state) (name : string) : list string * state :=
  match models st !! name with
  | Some attrs => (attrs, st)
  | None =>
      let attrs := define_keyed (columns_of st name) in
      (attrs, set_models st (<[name := attrs]> (models st)))
  end.

(** The attributes of a row the model selects. *)
Definition project (attrs : list string) (r : row) : row :=
  filter (fun kv : string * value => kv.1 ∈ attrs) r.

(** [Model.findAll()]: SELECT attrs FROM table. *)
Definition findAll (st : state) (name : string) (attrs : list string)
  : option (list row) :=
  t ← tables st !! name;
  if forallb (has_column t) attrs
  then Some (map (project attrs) (rows t))
  else None.

End Models.

Module RecordById.

(** An option of a select control. *)
Record choice : Type := Choice { choice_id : value; displayValue : value }.

Record result : Type := Result {
  record : row;
  relatedData : gmap string (list choice);
}.

(** The key columns of the table with the table each refers to:
    [key_column_usage JOIN constraint_column_usage
     ON constraint_name WHERE kcu.table_name = '<table_name>'], for a
    name that holds no single quote. *)
Definition key_relations (st : state) (table_name : string)
  : list (string * string) :=
  match tables st !! table_name with
  | Some t => map (fun k => (key_column k, ref_table k)) (keys t)
  | None => []
  end.

(** The three [continue] guards of the loop. *)
Definition skipped (table_name relatedTableName : string) : bool :=
  (startsWith table_name "provider_"
   && negb (startsWith relatedTableName "provider_"))
  || (startsWith table_name "inscription_"
      && negb (startsWith relatedTableName "inscription_"))
  || (startsWith table_name "pi_"
      && negb (startsWith relatedTableName "pi_")
      && negb (startsWith relatedTableName "inscription_")
      && negb (startsWith relatedTableName "provider_")).

(** [Object.keys(dataValues).find(col => col !== 'id')], or [id]. *)
Definition displayField (attrs : list string) : string :=
  default "id" (find (fun col => negb (String.eqb col "id")) attrs).

Definition choices (attrs : list string) (relatedRecords : list row)
  : list choice :=
  map (fun r => Choice (cell r "id") (cell r (displayField attrs)))
      relatedRecords.

(** The loop over the key relations; [None] when a statement throws.
    Models defined on the way stay registered. *)
Fixpoint related (table_name : string) (st : state)
    (fields : list (string * string))
    (relatedData : gmap string (list choice))
  : state * option (gmap string (list choice)) :=
  match fields with
  | [] => (st, Some relatedData)
  | (foreignKeyColumn, relatedTableName) :: rest =>
      if skipped table_name relatedTableName
         || String.eqb relatedTableName ""
      then related table_name st rest relatedData
      else
        let (attrs, st1) := Models.model_of st relatedTableName in
        match Models.findAll st1 relatedTableName attrs with
        | None => (st1, None)
        | Some relatedRecords =>
            related table_name st1 rest
              (if bool_decide (relatedRecords = []) then relatedData
               else <[foreignKeyColumn := choices attrs relatedRecords]>
                      relatedData)
        end
  end.

End RecordById.

(** [exports.getTableRecordById] *)
Definition getTableRecordById (st : state) (table_name record_id : string)
  : response RecordById.result * state :=
  let defined :=
    match models st !! table_name with
    | Some attrs => Some (attrs, st)
    | None =>
        let cols := columns_of st table_name in
        if bool_decide (cols = []) then None
        else
          let attrs := Models.define_keyed cols in
          Some (attrs, set_models st (<[table_name := attrs]> (models st)))
    end in
  match defined with
  | None => (Refuse 404 NotFound, st)
  | Some (attrs, st1) =>
      match Models.findAll st1 table_name attrs with
      | None => (Refuse 500 InternalError, st1)
      | Some found =>
          match find (fun r => cell_matches (cell r "id") record_id) found with
          | None => (Refuse 404 NotFound, st1)
          | Some record =>
              match RecordById.related table_name st1
                      (RecordById.key_relations st1 table_name) ∅ with
              | (st2, None) => (Refuse 500 InternalError, st2)
              | (st2, Some relatedData) =>
                  (Reply 200 (RecordById.Result record relatedData), st2)
              end
          end
      end
  end.

(* ===================================================================== *)
(** * Paths (Node's posix [path]) *)
(* ===================================================================== *)

Module Path.

Fixpoint split (s : string) : list string :=
  match s with
  | EmptyString => [EmptyString]
  | String c r =>
      if Ascii.eqb c "/" then EmptyString :: split r
      else match split r with
           | h :: t => String c h :: t
           | [] => [String c EmptyString]
           end
  end.

(** One segment on the stack of kept segments (innermost first). *)
Definition push (allowAboveRoot : bool) (stack : list string) (seg : string)
  : list string :=
  if String.eqb seg "" || String.eqb seg "." then stack
  else if String.eqb seg ".." then
    match stack with
    | top :: rest =>
        if String.eqb top ".."
        then (if allowAboveRoot then ".." :: stack else stack)
        else rest
    | [] => if allowAboveRoot then [".."] else []
    end
  else seg :: stack.

Definition normalizeString (p : string) (allowAboveRoot : bool) : string :=
  String.concat "/" (rev (fold_left (push allowAboveRoot) (split p) [])).

Definition ends_with_slash (p : string) : bool :=
  match rev_string "" p with
  | String c _ => Ascii.eqb c "/"
  | EmptyString => false
  end.

Definition normalize (p : string) : string :=
  if String.eqb p "" then "."
  else
    let isAbsolute := String.prefix "/" p in
    let trailingSeparator := ends_with_slash p in
    let q := normalizeString p (negb isAbsolute) in
    if String.eqb q "" then
      if isAbsolute then "/" else if trailingSeparator then "./" else "."
    else
      let q := if trailingSeparator then q ++ "/" else q in
      if isAbsolute then "/" ++ q else q.

(** [path.join(...args)] *)
Definition join (args : list string) : string :=
  match filter (fun a => a ≠ "") args with
  | [] => "."
  | parts => normalize (String.concat "/" parts)
  end.

(** The suffix of [s] that starts at its last dot. *)
Fixpoint from_last_dot (s : string) : option string :=
  match s with
  | EmptyString => None
  | String c r =>
      match from_last_dot r with
      | Some e => Some e
      | None => if Ascii.eqb c "." then Some s else None
      end
  end.

Definition basename (p : string) : string :=
  default "" (head (filter (fun seg => seg ≠ "") (rev (split p)))).

(** [path.extname(p)] *)
Definition extname (p : string) : string :=
  let b := basename p in
  match from_last_dot b with
  | Some e => if String.eqb e b || String.eqb b ".." then "" else e
  | None => ""
  end.

End Path.

(* ===================================================================== *)
(** * File handlers *)
(* ===================================================================== *)

(** [req.file] as multer leaves it. *)
Record upload : Type := Upload { upload_path : string; originalname : string }.

(** [File.create({...})], for a record id the column accepts. *)
Definition File_create (st : state) (record_id table_name name path source : string)
  : file_row * state :=
  let f := FileRow (next_file_id st) record_id table_name name path source in
  (f, State (tables st) (metadata st) (files st ++ [f]) (next_file_id st + 1)
        (models st) (disk st)).

(** [exports.uploadFile] *)
Definition uploadFile (st : state) (table_name record_id : string)
    (fileName caracterizacion_id source : option string)
    (file : option upload) : response file_row * state :=
  match file with
  | None => (Refuse 400 MissingField, st)
  | Some f =>
      if negb (prefixed table_name) then (Refuse 400 InvalidName, st)
      else
        let target : option (string * string) :=
          if startsWith table_name "pi_" then
            if falsy_str caracterizacion_id then None
            else
              let cid := default "" caracterizacion_id in
              Some (Path.join ["/var/data/uploads";
                               "inscription_caracterizacion"; cid], cid)
          else
            Some (Path.join ["/var/data/uploads"; table_name; record_id],
                  record_id) in
        match target with
        | None => (Refuse 400 MissingField, st)
        | Some (uploadDir, finalRecordId) =>
            let ext := Path.extname (originalname f) in
            let finalFileName :=
              if falsy_str fileName then originalname f
              else default "" fileName ++ ext in
            let newPath := Path.join [uploadDir; finalFileName] in
            match disk st !! upload_path f with
            | None => (Refuse 500 InternalError, st)
            | Some content =>
                let st1 :=
                  set_disk st
                    (delete (upload_path f) (<[newPath := content]> (disk st))) in
                let relativeFilePath :=
                  Path.join ["/uploads"; table_name; finalRecordId;
                             finalFileName] in
                let (newFile, st2) :=
                  File_create st1 finalRecordId table_name finalFileName
                    relativeFilePath
                    (if falsy_str source then "unknown" else default "" source) in
                (Reply 200 newFile, st2)
            end
        end
  end.

Section UploadCsv.

(** What csv-parser emits for the content of a file: one object per
    data line, keyed by the header. *)
Variable csvParser : string -> list (gmap string string).

(** Whether [bulkCreate] with [validate: true] accepts a row for a
    model with the given typed attributes. *)
Variable validates : list (string * seq_type) -> row -> bool.

(** [obj[k]] on an object, for its own keys. *)
Definition obj_get {A} (o : list (string * A)) (k : string) : option A :=
  snd <$> find (fun kv => String.eqb kv.1 k) o.

(** [tableColumns]: type and [autoIncrement] of each mapped column. *)
Definition csv_tableColumns (cols : list column)
  : list (string * (seq_type * bool)) :=
  fold_left
    (fun acc c =>
       match Models.validTypes !! toLowerCase (data_type c) with
       | Some ty =>
           obj_set (column_name c)
             (ty,
              String.eqb (column_name c) "id"
              && match column_default c with
                 | Some d => includes d "nextval"
                 | None => false
                 end) acc
       | None => acc
       end)
    cols [].

(** [tableColumns[key].type === Sequelize.<class>] once
    [sequelize.define] has run: define normalizes the attribute objects
    it is given in place, so [type] holds an instance of the class and
    the comparison with the class itself is false. *)
Definition type_is_class (declared class : seq_type) : bool := false.

(** The handler of the stream's [data] event. *)
Definition processedData (tableColumns : list (string * (seq_type * bool)))
    (data : gmap string string) : row :=
  let acc : row :=
    map_imap
      (fun key v =>
         match obj_get tableColumns key with
         | Some (ty, _) =>
             if type_is_class ty STRING || type_is_class ty TEXT
             then Some (VStr (if String.eqb v "" then "" else trim v))
             else Some (VStr v)
         | None => None
         end) data in
  match obj_get tableColumns "id" with
  | Some (_, true) => delete "id" acc
  | _ => acc
  end.

(** [Table.bulkCreate(results, { validate: true })] *)
Definition bulkCreate (st : state) (table_name : string)
    (attrs : list (string * seq_type)) (results : list row) : option state :=
  t ← tables st !! table_name;
  if forallb (validates attrs) results then
    Some (set_tables st
            (<[table_name :=
                 fold_left
                   (fun t r =>
                      let (r', n) := stored t r in
                      Table (columns t) (keys t) (rows t ++ [r']) n)
                   results t]> (tables st)))
  else None.

Definition unlink (st : state) (path : string) : state :=
  set_disk st (delete path (disk st)).

(** [exports.uploadCsv]. The response is [None] when none is sent:
    a read stream over a missing file emits an error nobody handles. *)
Definition uploadCsv (st : state) (table_name : string)
    (file : option upload) : option (response unit) * state :=
  match file with
  | None => (Some (Refuse 400 MissingField), st)
  | Some f =>
      match tables st !! table_name with
      | None => (Some (Refuse 404 NotFound), st)
      | Some _ =>
          let cols := columns_of st table_name in
          if bool_decide (cols = []) then (Some (Refuse 404 NotFound), st)
          else
            let tableColumns := csv_tableColumns cols in
            let typed := map (fun c => (c.1, c.2.1)) tableColumns in
            match Models.define (map fst tableColumns)
                    (bool_decide (snd <$> obj_get tableColumns "id" = Some true)) with
            | None => (Some (Refuse 500 InternalError), st)
            | Some attrs =>
                let st1 := set_models st (<[table_name := attrs]> (models st)) in
                let filePath := upload_path f in
                match disk st1 !! filePath with
                | None => (None, st1)
                | Some content =>
                    let results :=
                      map (processedData tableColumns) (csvParser content) in
                    match bulkCreate st1 table_name typed results with
                    | Some st2 => (Some (Reply 201 tt), unlink st2 filePath)
                    | None =>
                        (Some (Refuse 500 InternalError), unlink st1 filePath)
                    end
                end
            end
      end
  end.

End UploadCsv.

(* ===================================================================== *)
(** * Further handlers *)
(* ===================================================================== *)

Module TableFields.

(** The [switch] on [field.data_type]. *)
Definition mappedType (data_type : string) : string :=
  if String.eqb data_type "character varying" || String.eqb data_type "varchar"
  then "VARCHAR(255)"
  else if String.eqb data_type "text" then "TEXT"
  else if String.eqb data_type "integer" then "INTEGER"
  else if String.eqb data_type "numeric" || String.eqb data_type "decimal"
  then "DECIMAL"
  else if String.eqb data_type "boolean" then "BOOLEAN"
  else if String.eqb data_type "date"
          || String.eqb data_type "timestamp without time zone"
  then "DATE"
  else toUpperCase data_type.

(** One object of the answer. *)
Record entry : Type := Entry {
  entry_column_name : string;
  entry_data_type : string;
  entry_is_nullable : bool;
  entry_constraint_type : option constraint_type;
  foreign_table_name : option string;
  foreign_column_name : option string;
}.

(** [l LEFT JOIN r ON on]: every line of [l], with each line of [r]
    that matches it, or once with nothing when none matches. *)
Definition left_join {A B} (on : A -> B -> bool) (l : list A) (r : list B)
  : list (A * option B) :=
  flat_map
    (fun a =>
       match List.filter (on a) r with
       | [] => [(a, None)]
       | matches => map (fun b => (a, Some b)) matches
       end)
    l.

(** Every key constraint of the catalog with the table that owns it:
    one line each of [key_column_usage], [table_constraints] and
    [constraint_column_usage]. *)
Definition all_keys (st : state) : list (string * key_constraint) :=
  flat_map (fun nt : string * table => map (fun k => (nt.1, k)) (keys nt.2))
    (map_to_list (tables st)).

(** [information_schema.columns] for the names equal to [table_name]
    up to letter case, each column with the name of its table. *)
Definition catalog_columns (st : state) (table_name : string)
  : list (string * column) :=
  flat_map
    (fun nt : string * table =>
       if String.eqb (toLowerCase nt.1) (toLowerCase table_name)
       then map (fun c => (nt.1, c)) (columns nt.2)
       else [])
    (map_to_list (tables st)).

(** A comparison with a side that an outer join left empty does not
    hold. *)
Definition on_some {A B} (o : option A) (f : A -> B -> bool) (b : B) : bool :=
  match o with
  | Some a => f a b
  | None => false
  end.

(** The statement of the handler. *)
Definition query (st : state) (table_name : string)
  : list (((string * column) * option (string * key_constraint))
          * option (string * key_constraint)
          * option (string * key_constraint)) :=
  let c_kcu :=
    left_join
      (fun (c : string * column) (kcu : string * key_constraint) =>
         String.eqb (toLowerCase c.1) (toLowerCase kcu.1)
         && String.eqb (toLowerCase (column_name c.2))
                       (toLowerCase (key_column kcu.2)))
      (catalog_columns st table_name) (all_keys st) in
  let c_kcu_tc :=
    left_join
      (fun (l : (string * column) * option (string * key_constraint))
           (tc : string * key_constraint) =>
         on_some l.2
           (fun kcu tc =>
              String.eqb (constraint_name kcu.2) (constraint_name tc.2)
              && is_foreign_key (kind tc.2))
           tc)
      c_kcu (all_keys st) in
  left_join
    (fun (l : (string * column) * option (string * key_constraint)
              * option (string * key_constraint))
         (ccu : string * key_constraint) =>
       on_some l.2
         (fun tc ccu =>
            String.eqb (constraint_name tc.2) (constraint_name ccu.2))
         ccu)
    c_kcu_tc (all_keys st).

(** The selected columns of one line, [data_type] replaced by
    [mappedType]. *)
Definition entry_of
    (l : ((string * column) * option (string * key_constraint))
         * option (string * key_constraint)
         * option (string * key_constraint)) : entry :=
  let c := l.1.1.1.2 in
  Entry (column_name c) (mappedType (data_type c)) (is_nullable c)
    (fmap (M := option) (fun tc : string * key_constraint => kind tc.2) l.1.2)
    (fmap (M := option) (fun ccu : string * key_constraint => ref_table ccu.2) l.2)
    (fmap (M := option) (fun ccu : string * key_constraint => ref_column ccu.2) l.2).

End TableFields.

(** [exports.getTableFields] *)
Definition getTableFields (st : state) (table_name : string)
  : response (list TableFields.entry) :=
  match TableFields.query st table_name with
  | [] => Refuse 404 NotFound
  | fields => Reply 200 (map TableFields.entry_of fields)
  end.

(** Modelled from the spec: [instance.save()] on the Table Registry
    entry [findOne] returned ([models/TablesMetadata.js] is not among
    the sources): the first entry with the name takes the new flag. *)
Fixpoint set_first (table_name : string) (b : bool) (m : list (string * bool))
  : list (string * bool) :=
  match m with
  | [] => []
  | e :: m' =>
      if String.eqb e.1 table_name then (e.1, b) :: m'
      else e :: set_first table_name b m'
  end.

(** [exports.updatePrincipalStatus] *)
Definition updatePrincipalStatus (st : state) (table_name : string)
    (is_primary : value) : response unit * state :=
  if String.eqb table_name "" then (Refuse 400 MissingField, st)
  else
    match is_primary with
    | VBool b =>
        match find (fun m : string * bool => String.eqb m.1 table_name)
                (metadata st) with
        | None => (Refuse 404 NotFound, st)
        | Some _ =>
            (Reply 200 tt,
             set_metadata st (set_first table_name b (metadata st)))
        end
    | _ => (Refuse 400 InvalidFieldType, st)
    end.

Module Preferences.

(** Modelled from the spec: a Field Preference row
    ([models/FieldPreference.js] is not among the sources):
    [{table_name, visible_columns}]. *)
Record preference : Type := Preference {
  pref_table_name : string;
  visible_columns : list string;
}.

(** [FieldPreference.findOne({ where: { table_name } })] *)
Definition findOne (store : list preference) (table_name : string)
  : option preference :=
  find (fun p => String.eqb (pref_table_name p) table_name) store.

(** [preference.visible_columns = ...; preference.save()] on the row
    [findOne] returned. *)
Fixpoint save (table_name : string) (cols : list string)
    (store : list preference) : list preference :=
  match store with
  | [] => []
  | p :: store' =>
      if String.eqb (pref_table_name p) table_name
      then Preference (pref_table_name p) cols :: store'
      else p :: save table_name cols store'
  end.

End Preferences.

(** [exports.saveFieldPreferences]; [visible_columns] is [None] when
    the body does not hold an array there. *)
Definition saveFieldPreferences (store : list Preferences.preference)
    (table_name : string) (visible_columns : option (list string))
  : response unit * list Preferences.preference :=
  match visible_columns with
  | None => (Refuse 400 MissingField, store)
  | Some cols =>
      match Preferences.findOne store table_name with
      | Some _ => (Reply 200 tt, Preferences.save table_name cols store)
      | None =>
          (Reply 200 tt,
           (store ++ [Preferences.Preference table_name cols])%list)
      end
  end.

(** [exports.getFieldPreferences] *)
Definition getFieldPreferences (store : list Preferences.preference)
    (table_name : string) : response (list string) :=
  match Preferences.findOne store table_name with
  | Some p => Reply 200 (Preferences.visible_columns p)
  | None => Reply 200 []
  end.

(** A letter, a digit, an underscore or a space. *)
Definition identifier_char (c : ascii) : bool :=
  let n := N_of_ascii c in
  (((65 <=? n) && (n <=? 90)) || ((97 <=? n) && (n <=? 122))
   || ((48 <=? n) && (n <=? 57)) || (n =? 95) || (n =? 32))%N.

(** [/^[a-zA-Z0-9_ ]+$/.test(str)] *)
Definition isValidIdentifier (s : string) : bool :=
  negb (String.eqb s "") && all_chars identifier_char s.

(** [exports.validateField]; an undefined [fieldValue] has no value to
    bind to [:fieldValue], and the statement throws. *)
Definition validateField (st : state) (table_name fieldName : string)
    (fieldValue : value) : response bool :=
  if negb (isValidIdentifier table_name) then Refuse 400 InvalidName
  else if negb (isValidIdentifier fieldName) then Refuse 400 InvalidName
  else
    match tables st !! table_name with
    | None => Refuse 400 NotFound
    | Some t =>
        if negb (has_column t fieldName) then Refuse 400 NotFound
        else
          match fieldValue with
          | VUndefined => Refuse 500 InternalError
          | _ =>
              Reply 200
                (Z.of_nat
                   (length
                      (filter
                         (fun r => sql_eq (cell r fieldName) fieldValue = true)
                         (rows t))) >? 0)
          end
    end.

(** [DELETE FROM t WHERE id = :record_id RETURNING *]: the deleted rows
    and the new state, for a record id that [cell_matches] reads as the
    engine does. *)
Definition sql_delete (st : state) (table_name record_id : string)
  : option (list row * state) :=
  t ← tables st !! table_name;
  if has_column t "id" then
    Some (filter (fun r => cell_matches (cell r "id") record_id = true) (rows t),
          set_tables st
            (<[table_name :=
                 Table (columns t) (keys t)
                   (filter
                      (fun r => cell_matches (cell r "id") record_id ≠ true)
                      (rows t))
                   (next_id t)]> (tables st)))
  else None.

Section DeleteRecord.

(** Whether [result[1] === 0] holds for what [sequelize.query] returns
    for a DELETE that removed the given rows. *)
Variable reports_none : list row -> bool.

(** [exports.deleteTableRecord] *)
Definition deleteTableRecord (st : state) (table_name record_id : string)
  : response unit * state :=
  if negb (startsWith table_name "pi_") then (Refuse 400 InvalidName, st)
  else
    match sql_delete st table_name record_id with
    | None => (Refuse 500 InternalError, st)
    | Some (deleted, st') =>
        if reports_none deleted then (Refuse 404 NotFound, st')
        else (Reply 200 tt, st')
    end.

End DeleteRecord.

(** [exports.getActiveCaracterizacionRecords]: the column whose name is
    [estado] up to letter case, then
    [SELECT * FROM inscription_caracterizacion WHERE "<column>" IN (4)]. *)
Definition getActiveCaracterizacionRecords (st : state) : response (list row) :=
  let columns :=
    filter
      (fun c => toLowerCase (column_name c) = "estado")
      (columns_of st "inscription_caracterizacion") in
  match columns with
  | [] => Refuse 400 NotFound
  | c :: _ =>
      let estadoColumn := column_name c in
      match tables st !! "inscription_caracterizacion" with
      | None => Refuse 500 InternalError
      | Some t =>
          Reply 200
            (filter (fun r => sql_eq (cell r estadoColumn) (VNum 4) = true)
                    (rows t))
      end
  end.



Section DeleteFile.

(** The directory of the controller module. *)
Variable dirname : string.

(** [exports.deleteFile]; [id] and [record_id] are INTEGER columns. *)
Definition deleteFile (st : state) (file_id_param record_id : string)
  : response unit * state :=
  match parse_int file_id_param with
  | None => (Refuse 500 InternalError, st)
  | Some id =>
      match find (fun f => Z.eqb (file_id f) id) (files st) with
      | None => (Refuse 404 NotFound, st)
      | Some file =>
          if negb (prefixed (file_table_name file))
          then (Refuse 400 InvalidName, st)
          else
            let filePath := Path.join [dirname; ".."; ".."; file_path file] in
            let st1 := set_disk st (delete filePath (disk st)) in
            match parse_int record_id with
            | None => (Refuse 500 InternalError, st1)
            | Some n =>
                (Reply 200 tt,
                 State (tables st1) (metadata st1)
                   (filter
                      (fun f =>
                         ¬ (file_id f = id
                            ∧ parse_int (file_record_id f) = Some n))
                      (files st1))
                   (next_file_id st1) (models st1) (disk st1))
            end
      end
  end.

End DeleteFile.

Module FieldOptions.

(** [record.nombre || ... || record.id.toString()]: the first truthy
    of the five fields, else the text of the id. *)
Inductive label : Type :=
| Shown (v : value)
| IdText (id : value).

Record option_entry : Type := OptionEntry {
  option_value : value;
  option_label : label;
}.

(** One element of [relatedRecords.map(...)]; [None] when
    [record.id.toString()] throws on a missing id. *)
Definition option_of (record : row) : option option_entry :=
  match find truthy
          [cell record "nombre"; cell record "name"; cell record "title";
           cell record "descripcion"; cell record "Estado"] with
  | Some v => Some (OptionEntry (cell record "id") (Shown v))
  | None =>
      if present (cell record "id")
      then Some (OptionEntry (cell record "id") (IdText (cell record "id")))
      else None
  end.

End FieldOptions.

(** [exports.getFieldOptions] *)
Definition getFieldOptions (st : state) (table_name field_name : string)
  : response (list FieldOptions.option_entry) :=
  let foreignKeyInfo :=
    List.filter (fun kr : string * string => String.eqb kr.1 field_name)
      (RecordById.key_relations st table_name) in
  match foreignKeyInfo with
  | [] => Refuse 400 NotFound
  | (_, relatedTableName) :: _ =>
      match tables st !! relatedTableName with
      | None => Refuse 500 InternalError
      | Some t =>
          match mapM FieldOptions.option_of (rows t) with
          | None => Refuse 500 InternalError
          | Some options => Reply 200 options
          end
      end
  end.

Module RelatedData.

(** The loop of getRelatedData over the key relations; [None] when a
    statement throws. Models defined on the way stay registered. *)
Fixpoint loop (st : state) (fields : list (string * string))
    (relatedData : gmap string (list RecordById.choice))
  : state * option (gmap string (list RecordById.choice)) :=
  match fields with
  | [] => (st, Some relatedData)
  | (foreignKeyColumn, relatedTableName) :: rest =>
      if String.eqb relatedTableName "" then loop st rest relatedData
      else
        let (attrs, st1) := Models.model_of st relatedTableName in
        match Models.findAll st1 relatedTableName attrs with
        | None => (st1, None)
        | Some relatedRecords =>
            loop st1 rest
              (if bool_decide (relatedRecords = []) then relatedData
               else <[foreignKeyColumn :=
                        RecordById.choices attrs relatedRecords]> relatedData)
        end
  end.

End RelatedData.

(** [exports.getRelatedData] *)
Definition getRelatedData (st : state) (table_name : string)
  : response (gmap string (list RecordById.choice)) * state :=
  match RelatedData.loop st (RecordById.key_relations st table_name) ∅ with
  | (st', None) => (Refuse 500 InternalError, st')
  | (st', Some relatedData) => (Reply 200 relatedData, st')
  end.

(* ===================================================================== *)
(** * Sample states *)
(* ===================================================================== *)

Module Sample.

Definition id_col : column :=
  Column "id" "integer" false (Some "nextval('t_id_seq'::regclass)").

Definition text_col (n : string) : column :=
  Column n "character varying" true None.

Definition int_col (n : string) : column := Column n "integer" true None.

Definition pkey (t : string) : key_constraint :=
  KeyConstraint (t ++ "_pkey") PRIMARY_KEY "id" t "id" NO_ACTION NO_ACTION.

Definition fkey (t c target : string) : key_constraint :=
  KeyConstraint (t ++ "_" ++ c ++ "_fkey") FOREIGN_KEY c target "id"
    CASCADE SET_NULL.

Definition with_tables (l : list (string * table)) : state :=
  State (list_to_map l) [] [] 1 ∅ ∅.

(** An empty dynamic table and one with a row. *)
Definition pi_empty : table :=
  Table [id_col; text_col "nombre"] [pkey "pi_obras"] [] 1.

Definition pi_one : table :=
  Table [id_col; text_col "nombre"] [pkey "pi_obras"]
    [{["id" := VNum 1; "nombre" := VStr "a"]}] 2.

(** A table outside the three domains, with no rows. *)
Definition users : table :=
  Table [id_col; text_col "email"] [pkey "users"] [] 1.

Definition users_one : table :=
  Table [id_col; text_col "email"] [pkey "users"]
    [{["id" := VNum 1; "email" := VStr "a@b.c"]}] 2.

(** A table with a column that holds data and one that holds none. *)
Definition pi_notas : table :=
  Table [id_col; text_col "nombre"; text_col "nota"] [pkey "pi_obras"]
    [{["id" := VNum 1; "nombre" := VStr "a"]}] 2.

Definition pi_notas_dropped : table :=
  Table [id_col; text_col "nombre"] [pkey "pi_obras"]
    [{["id" := VNum 1; "nombre" := VStr "a"]}] 2.

(** A plan-item table scoped by characterization, with no rows. *)
Definition pi_scoped : table :=
  Table [id_col; int_col "caracterizacion_id"; text_col "nombre"]
    [pkey "pi_obras"] [] 1.

(** A catalogue whose first column after [id] is a DECIMAL, and a
    table that refers to it. *)
Definition provider_cat : table :=
  Table [id_col; Column "precio" "numeric" true None; text_col "nombre"]
    [pkey "provider_cat"]
    [{["id" := VNum 1; "precio" := VNum 10; "nombre" := VStr "x"]};
     {["id" := VNum 2; "precio" := VNum 20; "nombre" := VStr "y"]}] 3.

Definition provider_items : table :=
  Table [id_col; text_col "nombre"; int_col "cat_id"]
    [pkey "provider_items"; fkey "provider_items" "cat_id" "provider_cat"]
    [{["id" := VNum 1; "nombre" := VStr "i"; "cat_id" := VNum 1]}] 2.

Definition catalogue : state :=
  with_tables [("provider_items", provider_items);
               ("provider_cat", provider_cat)].

(** A state whose upload directory holds one temporary file. *)
Definition with_upload (l : list (string * table)) : state :=
  State (list_to_map l) [] [] 1 ∅ {["/tmp/upload_1" := "nombre,nota"]}.

(** A table the catalog lists with no column. *)
Definition bare : table := Table [] [] [] 1.




End Sample.

(** Further sample states. *)
Module Cases.

(** A catalog with a table whose name only looks like a plan-item
    table. *)
Definition pizzeria : state :=
  Sample.with_tables [("pi_obras", Sample.pi_empty); ("pizza", Sample.users)].

(** A registered inscription table. *)
Definition registered : state :=
  State (list_to_map [("inscription_a", Sample.pi_empty)])
    [("inscription_a", false)] [] 1 ∅ ∅.

(** A table with an empty column, after a request has registered its
    model. *)
Definition modelled : state :=
  State (list_to_map [("pi_obras", Sample.pi_notas)]) [] [] 1
    {["pi_obras" := ["id"; "nombre"; "nota"]]} ∅.

Definition modelled_dropped : state :=
  State (list_to_map [("pi_obras", Sample.pi_notas_dropped)]) [] [] 1
    {["pi_obras" := ["id"; "nombre"; "nota"]]} ∅.


(** Characterizations in state 1 and in state 4. *)
Definition characterized : state :=
  Sample.with_tables
    [("inscription_caracterizacion",
      Table [Sample.id_col; Sample.int_col "Estado"]
        [Sample.pkey "inscription_caracterizacion"]
        [{["id" := VNum 1; "Estado" := VNum 1]};
         {["id" := VNum 2; "Estado" := VNum 4]}] 3)].

(** An empty catalogue to which a foreign key of another table
    refers. *)
Definition referred : state :=
  Sample.with_tables
    [("pi_cat", Table [Sample.id_col; Sample.text_col "nombre"]
                  [Sample.pkey "pi_cat"] [] 1);
     ("pi_items",
      Table [Sample.id_col; Sample.int_col "cat_id"]
        [Sample.pkey "pi_items"; Sample.fkey "pi_items" "cat_id" "pi_cat"]
        [] 1)].

(** Two tables whose names differ in case only. *)
Definition two_cases : state :=
  Sample.with_tables
    [("pi_obras", Sample.pi_one);
     ("pi_Obras", Table [Sample.id_col; Sample.text_col "extra"]
                    [Sample.pkey "pi_Obras"] [] 1)].

End Cases.

(* ===================================================================== *)
(** * Vocabulary of the statements *)
(* ===================================================================== *)

(** Some row of the table holds a value in column [c]. *)
Definition has_data (st : state) (table_name c : string) : Prop :=
  ∃ t r, tables st !! table_name = Some t ∧ r ∈ rows t
         ∧ present (cell r c) = true.

(** Some key constraint of the table (primary, unique or foreign)
    covers column [c]. *)
Definition keyed (st : state) (table_name c : string) : Prop :=
  ∃ t k, tables st !! table_name = Some t ∧ k ∈ keys t ∧ key_column k = c.

(** The column names the catalog lists for a table. *)
Definition columns_at (st : state) (table_name : string) : list string :=
  match tables st !! table_name with
  | Some t => column_names t
  | None => []
  end.

(** The characterization state of a joined row is 1 or 2. *)
Definition estado_1_or_2 (c : row) : Prop :=
  cell c "Estado" = VNum 1 ∨ cell c "Estado" = VNum 2.

(** No other table's name differs from [table_name] by letter case
    only, so the case-insensitive catalog query returns the columns of
    this table. *)
Definition unambiguous (st : state) (table_name : string) : Prop :=
  ∀ n t, tables st !! n = Some t →
         toLowerCase n = toLowerCase table_name → n = table_name.

(** The fields [createTableRecord] keeps: those of the body that name a
    column with a non-empty name and hold a value. *)
Definition kept (t : table) (data : gmap string value) : row :=
  filteredData (filter (λ n, n ≠ "") (column_names t)) data.

(** The rows of the table that carry the natural key. *)
Definition keyed_rows (conds : list (string * value)) (t : table) : list row :=
  filter (λ r, satisfies conds r = true) (rows t).

(** Every row has an integer id drawn from the sequence, and no two
    rows share one. *)
Record ids_ok (t : table) : Prop := IdsOk {
  ids_drawn : ∀ r, r ∈ rows t → ∃ n, r !! "id" = Some (VNum n) ∧ n < next_id t;
  ids_distinct : NoDup (map (λ r : row, cell r "id") (rows t));
}.

(** The attributes of the model a request uses for a table: those of
    the model registered before the request, else those it defines from
    the catalog. *)
Definition model_at (st : state) (name : string) : list string :=
  match models st !! name with
  | Some attrs => attrs
  | None => Models.define_keyed (columns_of st name)
  end.

(** What one key relation adds to [relatedData], as a function of the
    state the request started in. *)
Definition related_entry (st : state) (table_name : string)
    (relatedData : gmap string (list RecordById.choice))
    (field : string * string) : gmap string (list RecordById.choice) :=
  let (fk, rel) := field in
  if RecordById.skipped table_name rel || String.eqb rel "" then relatedData
  else
    match Models.findAll st rel (model_at st rel) with
    | Some rs =>
        if bool_decide (rs = []) then relatedData
        else <[fk := RecordById.choices (model_at st rel) rs]> relatedData
    | None => relatedData
    end.

(** Two states a request passes through: same tables, same models in
    effect. *)
Definition same_view (st0 st : state) : Prop :=
  tables st = tables st0 ∧ ∀ n, model_at st n = model_at st0 n.


(** The per-field checks of createTable, on one field: a blank name, a
    foreign key without a related table, or a type that is none of the
    type names.  The type is looked up in an object, which also
    answers for the names found on its prototype: a type of such a
    name passes the check and is not counted here. *)
Definition invalid_field (f : field) : Prop :=
  blank_name f = true
  ∨ (field_type f = Some "FOREIGN_KEY" ∧ falsy_str (relatedTable f) = true)
  ∨ (field_type f ≠ Some "FOREIGN_KEY"
     ∧ (field_type f ∉ map Some ["VARCHAR(255)"; "TEXT"; "INTEGER"; "DECIMAL";
                                 "BOOLEAN"; "DATE"])
     ∧ (field_type f ∉ map Some ["constructor"; "__proto__"; "hasOwnProperty";
                                 "isPrototypeOf"; "propertyIsEnumerable";
                                 "toLocaleString"; "toString"; "valueOf";
                                 "__defineGetter__"; "__defineSetter__";
                                 "__lookupGetter__"; "__lookupSetter__"])).

(** Row [r'] holds every value row [r] holds. *)
Definition keeps_values (r r' : row) : Prop :=
  ∀ c, present (cell r c) = true → cell r' c = cell r c.

(** [st'] differs from [st] at most in table [table_name]. *)
Definition same_outside (table_name : string) (st st' : state) : Prop :=
  metadata st' = metadata st ∧ files st' = files st
  ∧ next_file_id st' = next_file_id st ∧ models st' = models st
  ∧ disk st' = disk st
  ∧ ∀ n, n ≠ table_name → tables st' !! n = tables st !! n.

(** Table [table_name], if [st] has it, is still there in [st'], with
    as many rows, each holding the values it held, and the same
    sequence. *)
Definition data_kept (table_name : string) (st st' : state) : Prop :=
  ∀ t, tables st !! table_name = Some t →
       ∃ t', tables st' !! table_name = Some t'
             ∧ Forall2 keeps_values (rows t) (rows t')
             ∧ next_id t' = next_id t.

(** [st'] is [st] with models added to the registry: nothing else
    differs, and no registered model is replaced. *)
Definition models_added (st st' : state) : Prop :=
  tables st' = tables st ∧ metadata st' = metadata st ∧ files st' = files st
  ∧ next_file_id st' = next_file_id st ∧ disk st' = disk st
  ∧ ∀ n attrs, models st !! n = Some attrs → models st' !! n = Some attrs.

(** A string with no path separator. *)
Fixpoint no_slash (s : string) : bool :=
  match s with
  | EmptyString => true
  | String c r => negb (Ascii.eqb c "/") && no_slash r
  end.

(** A path segment that [path.join] keeps as it is: not empty, without
    a separator, neither [.] nor [..]. *)
Definition plain (s : string) : bool :=
  no_slash s && negb (String.eqb s "") && negb (String.eqb s ".")
  && negb (String.eqb s "..").

(** The absolute path with the given segments. *)
Definition rooted (segs : list string) : string :=
  "/" ++ String.concat "/" segs.

(** The character that closes a quoted SQL identifier. *)
Definition double_quote : ascii := ascii_of_nat 34.

(* ===================================================================== *)
(** * Preconditions on names and values *)
(* ===================================================================== *)

(** The engine model reads a name spliced into a statement as that
    name and keeps in a cell the value a statement was given.  The
    program does so for the names and values described here; the
    properties that depend on it assume them. *)

(** A name made of the characters the program itself accepts in an
    identifier (validateField): letters, digits, underscore and space.
    Such a name holds no quote, dot, colon or dollar sign, so a
    statement that splices it between quotes reads it back unchanged;
    it is ASCII, so [toLowerCase] is the same on it in JavaScript, in
    PostgreSQL and here.  The name [__proto__], which is no key of a
    JavaScript object, is left out. *)
Definition plain_ident (n : string) : bool :=
  isValidIdentifier n && negb (String.eqb n "__proto__").

Definition plain_name (n : string) : Prop := plain_ident n = true.

(** A name of lower-case letters, digits and underscores that does not
    begin with a digit: an identifier the engine reads the same with
    and without quotes, and prints without quotes. *)
Definition lower_char (c : ascii) : bool :=
  let n := N_of_ascii c in
  (((97 <=? n) && (n <=? 122)) || ((48 <=? n) && (n <=? 57)) || (n =? 95))%N.

Definition lower_ident (n : string) : bool :=
  match n with
  | EmptyString => false
  | String c r =>
      lower_char c && negb (bool_decide (is_Some (digit_of c)))
      && all_chars lower_char r
  end.

Definition plain_opt (o : option string) : bool :=
  match o with
  | Some n => plain_ident n
  | None => true
  end.

(** The names a field of createTable or editTable carries are plain. *)
Definition plain_field (f : field) : bool :=
  plain_opt (field_name f) && plain_opt (relatedTable f)
  && plain_opt (relatedColumn f).

(** Every name of the catalog is plain: the tables, their columns and
    the tables and columns their key constraints refer to. *)
Definition plain_catalog (st : state) : bool :=
  forallb
    (fun nt : string * table =>
       plain_ident nt.1
       && forallb plain_ident (column_names nt.2)
       && forallb
            (fun k => plain_ident (key_column k)
                      && plain_ident (ref_table k)
                      && plain_ident (ref_column k))
            (keys nt.2))
    (map_to_list (tables st)).


(** The range of the type [integer]. *)
Definition int4 (n : Z) : bool :=
  Z.leb (-2147483648) n && Z.leb n 2147483647.

(** A text of ASCII characters other than NUL. *)
Definition ascii_text (s : string) : bool :=
  all_chars
    (fun c => (N.ltb 0 (N_of_ascii c) && N.ltb (N_of_ascii c) 128)%bool) s.

(** A value that a column of the given type stores as it is and
    compares by equality, with no coercion: an integer in range for
    [integer], a boolean for [boolean], an ASCII text for [text] and,
    up to 255 characters (the length createTable and editTable
    declare), for [character varying]. *)
Definition canonical (data_type : string) (v : value) : bool :=
  match v with
  | VNum n => String.eqb data_type "integer" && int4 n
  | VBool _ => String.eqb data_type "boolean"
  | VStr s =>
      (String.eqb data_type "text"
       || (String.eqb data_type "character varying"
           && Nat.leb (String.length s) 255))
      && ascii_text s
  | VUndefined | VNull => false
  end.

(** The text of a URL or query parameter that denotes, for a column of
    the given type, one value in the one way [cell_matches] reads it:
    the decimal digits of an integer in range, [true] or [false], an
    ASCII text. *)
Definition denotes (data_type : string) (p : string) : bool :=
  if String.eqb data_type "integer" then
    match parse_int p with
    | Some n => int4 n
    | None => false
    end
  else if String.eqb data_type "boolean" then
    String.eqb p "true" || String.eqb p "false"
  else
    (String.eqb data_type "text" || String.eqb data_type "character varying")
    && ascii_text p.

(** The declared type of a column. *)
Definition column_type (t : table) (c : string) : option string :=
  data_type <$> find (fun col => String.eqb (column_name col) c) (columns t).

(** Every value the rows hold in column [c] is canonical for the type
    [ty]. *)
Definition typed_cells (ty c : string) (t : table) : bool :=
  forallb
    (fun r => negb (present (cell r c)) || canonical ty (cell r c))
    (rows t).

(** Column [c] has a type for which its cells are canonical. *)
Definition typed_column (t : table) (c : string) : bool :=
  match column_type t c with
  | Some ty => typed_cells ty c t
  | None => false
  end.

(** A value can be compared with column [c]: it is null, or it is
    canonical for the type of the column and so are the cells. *)
Definition comparable_value (t : table) (c : string) (v : value) : bool :=
  match v with
  | VNull => true
  | _ =>
      match column_type t c with
      | Some ty => canonical ty v && typed_cells ty c t
      | None => false
      end
  end.

(** The filters of a listing can be compared: the key of each is
    ASCII, and the value of one that names a column denotes a value of
    the column's type, for which the cells are canonical. *)
Definition comparable_filters (t : table) (fields : list column)
    (filters : list (string * string)) : bool :=
  forallb
    (fun kv : string * string =>
       ascii_text kv.1
       && match find (fun f => String.eqb (toLowerCase (column_name f))
                                          (toLowerCase kv.1)) fields with
          | Some f =>
              denotes (data_type f) kv.2
              && typed_cells (data_type f) (column_name f) t
          | None => true
          end)
    filters.

(** Some foreign key, of this or of another table, refers to
    [table_name]. *)
Definition referred_to (st : state) (table_name : string) : bool :=
  existsb
    (fun nt : string * table =>
       existsb
         (fun k => is_foreign_key (kind k)
                   && String.eqb (ref_table k) table_name)
         (keys nt.2))
    (map_to_list (tables st)).

(** Some row of table [n] holds [v] in column [c]. *)
Definition holds_value (st : state) (n c : string) (v : value) : bool :=
  match tables st !! n with
  | Some t => existsb (fun r => sql_eq (cell r c) v) (rows t)
  | None => false
  end.

(** The values [vals] can be written to columns of table [table_name]
    as they are: each is canonical for its column; no key constraint
    covers a written column, except a foreign key whose value a row of
    the table it refers to holds; and no foreign key refers to a
    written column. *)
Definition writable (st : state) (table_name : string) (t : table)
    (vals : row) : bool :=
  forallb
    (fun cv : string * value =>
       match column_type t cv.1 with
       | Some ty => canonical ty cv.2
       | None => false
       end
       && forallb
            (fun k =>
               negb (String.eqb (key_column k) cv.1)
               || (is_foreign_key (kind k)
                   && holds_value st (ref_table k) (ref_column k) cv.2))
            (keys t)
       && negb
            (existsb
               (fun nt : string * table =>
                  existsb
                    (fun k => is_foreign_key (kind k)
                              && String.eqb (ref_table k) table_name
                              && String.eqb (ref_column k) cv.1)
                    (keys nt.2))
               (map_to_list (tables st))))
    (map_to_list vals).

(** A new row with the values [vals] is what the table stores: every
    column that [vals] leaves out is nullable and has no default, save
    the [id] drawn from the sequence. *)
Definition complete (t : table) (vals : row) : bool :=
  forallb
    (fun c =>
       bool_decide (is_Some (vals !! column_name c))
       || (if String.eqb (column_name c) "id" then serial_id t
           else is_nullable c && bool_decide (column_default c = None)))
    (columns t).

(** The natural key as the specification words it: the pair
    (caracterizacion_id, rel_id_prov) for [pi_formulacion], else
    caracterizacion_id alone. *)
Definition key_fields (table_name : string) : list string :=
  if String.eqb table_name "pi_formulacion"
  then ["caracterizacion_id"; "rel_id_prov"]
  else ["caracterizacion_id"].

(* ===================================================================== *)
(** * Properties *)
(* ===================================================================== *)

(** ** The library functions, on samples *)

Example join_normalizes :
  Path.join ["/uploads"; "x"; ".."; "a//b/"; "./c"] = "/uploads/a/b/c".
Proof. reflexivity. Qed.

Example extname_samples :
  Path.extname "doc.pdf" = ".pdf" ∧ Path.extname "x.tar.gz" = ".gz"
  ∧ Path.extname ".bashrc" = "" ∧ Path.extname "a.b/c" = ""
  ∧ Path.extname ".." = "".
Proof. repeat split. Qed.

Example like_underscore_is_a_wildcard :
  sql_like "pi_%" "pi_obras" = true ∧ sql_like "pi_%" "pizza" = true
  ∧ sql_like "pi_%" "pi" = false.
Proof. repeat split. Qed.

Example trim_sample : trim "  ab c  " = "ab c".
Proof. reflexivity. Qed.

Example createTable_sample :
  ∃ st',
    createTable (Sample.with_tables []) (Some "pi_obras")
      (Some [Field (Some "nombre") (Some "TEXT") None None None])
    = (Reply 201 tt, st')
    ∧ columns_at st' "pi_obras" = ["id"; "nombre"].
Proof. eexists. split; vm_compute; reflexivity. Qed.

(** ** Tables and listings *)

Lemma base_tables_like_exist (st : state) (pattern n : string) :
  n ∈ base_tables_like st pattern → is_Some (tables st !! n).
Proof.
  unfold base_tables_like. intros [_ Hn]%list_elem_of_filter.
  apply list_elem_of_In, in_map_iff in Hn as ([n' t] & <- & Hin).
  apply list_elem_of_In, elem_of_map_to_list in Hin. eauto.
Qed.

Lemma listTables_exist (st : state) (tableType isPrimary : option string)
    (code : Z) (l : list (string * bool)) (n : string) :
  listTables st tableType isPrimary = Reply code l →
  n ∈ map fst l → is_Some (tables st !! n).
Proof.
  unfold listTables.
  set (pat := if bool_decide (tableType = Some "provider") then _ else _).
  set (full := map _ (base_tables_like st pat)).
  intros Hl Hn.
  assert (Hfull : ∀ x, x ∈ map fst full → is_Some (tables st !! x)).
  { intros x Hx. subst full. rewrite map_map in Hx. simpl in Hx.
    rewrite map_id in Hx. eauto using base_tables_like_exist. }
  case_bool_decide; case_bool_decide; try discriminate;
    injection Hl as _ <-; auto.
  apply Hfull. apply list_elem_of_In, in_map_iff in Hn as (x & <- & Hx).
  apply list_elem_of_In, list_elem_of_filter in Hx as [_ Hx].
  apply list_elem_of_In, in_map. by apply list_elem_of_In.
Qed.

Lemma lower_char_folded (c : ascii) :
  lower_char c = true → lower_ascii c = c ∧ identifier_part c = true.
Proof.
  destruct c as [[] [] [] [] [] [] [] []]; intros H;
    try (vm_compute in H; discriminate H); split; reflexivity.
Qed.

Lemma lower_chars_folded (s : string) :
  all_chars lower_char s = true →
  toLowerCase s = s ∧ all_chars identifier_part s = true.
Proof.
  induction s as [|c s IH]; simpl; [done|].
  intros [Hc Hs]%andb_true_iff.
  destruct (lower_char_folded c Hc) as [Hf Hp], (IH Hs) as [Hl Ha].
  rewrite Hp, Ha. split; [|done].
  change (String (lower_ascii c) (toLowerCase s) = String c s).
  by rewrite Hf, Hl.
Qed.

(** A lower-case identifier names the same table with and without
    quotes. *)
Lemma lower_ident_unquoted (n : string) :
  lower_ident n = true → unquoted n = Some n.
Proof.
  destruct n as [|c r]; [done|]. unfold lower_ident, unquoted.
  intros [[Hc Hd]%andb_true_iff Hr]%andb_true_iff.
  destruct (lower_chars_folded r Hr) as [Hl Ha].
  destruct (lower_char_folded c Hc) as [Hf _].
  assert (Hs : identifier_start c = true).
  { revert Hc Hd. clear.
    destruct c as [[] [] [] [] [] [] [] []]; intros Hc Hd;
      try (vm_compute in Hc; discriminate Hc);
      try (vm_compute in Hd; discriminate Hd); reflexivity. }
  unfold regular_identifier. rewrite Hs, Ha. simpl. f_equal.
  change (String (lower_ascii c) (toLowerCase r) = String c r).
  by rewrite Hf, Hl.
Qed.

(** C7 (as amended). For a table whose name carries one of the three
    prefixes and is a lower-case identifier (lower-case letters, digits
    and underscores, not beginning with a digit), which reads the same
    with and without quotes: deleteTable on
    a table that holds at least one row answers 400 NotEmpty and
    changes nothing; on a table with no rows to which no foreign key of
    another table refers it answers 200, the table is gone from the
    catalog and no later listTables call, whatever its parameters,
    lists it; on a table with no rows to which such a foreign key
    refers it answers 500 InternalError and changes nothing. *)
Theorem C7_deleteTable_only_when_empty (st : state) (table_name : string)
    (t : table) :
  prefixed table_name = true →
  lower_ident table_name = true →
  tables st !! table_name = Some t →
  (rows t ≠ [] → deleteTable st table_name = (Refuse 400 NotEmpty, st))
  ∧ (rows t = [] → referenced st table_name = false →
     ∃ st', deleteTable st table_name = (Reply 200 tt, st')
            ∧ tables st' !! table_name = None
            ∧ ∀ tableType isPrimary code l,
                listTables st' tableType isPrimary = Reply code l →
                table_name ∉ map fst l)
  ∧ (rows t = [] → referenced st table_name = true →
     deleteTable st table_name = (Refuse 500 InternalError, st)).
Proof.
  intros _ Hname%lower_ident_unquoted Ht.
  unfold deleteTable, dropTable, count_rows.
  rewrite Hname. simpl. rewrite Ht. simpl. split; [|split].
  - intros Hrows. destruct (rows t) as [|r rs]; [done|]. reflexivity.
  - intros -> ->. simpl. eexists. split; [reflexivity|].
    assert (Hgone : tables (set_tables st (delete table_name (tables st)))
                    !! table_name = None)
      by apply lookup_delete_eq.
    split; [exact Hgone|].
    intros tableType isPrimary code l Hl Hin.
    destruct (listTables_exist _ _ _ _ _ _ Hl Hin) as [t' Ht'].
    congruence.
  - intros -> ->. reflexivity.
Qed.

Lemma C7_deleteTable_only_when_empty_witness :
  deleteTable (Sample.with_tables [("pi_obras", Sample.pi_one)]) "pi_obras"
  = (Refuse 400 NotEmpty, Sample.with_tables [("pi_obras", Sample.pi_one)])
  ∧ (∃ st',
       deleteTable (Sample.with_tables [("pi_obras", Sample.pi_empty)])
         "pi_obras" = (Reply 200 tt, st')
       ∧ tables st' !! "pi_obras" = None
       ∧ ∀ tableType isPrimary code l,
           listTables st' tableType isPrimary = Reply code l →
           "pi_obras" ∉ map fst l)
  ∧ deleteTable Cases.referred "pi_cat"
    = (Refuse 500 InternalError, Cases.referred).
Proof.
  split; [|split].
  - apply (C7_deleteTable_only_when_empty
             (Sample.with_tables [("pi_obras", Sample.pi_one)]) "pi_obras"
             Sample.pi_one); [reflexivity|reflexivity|reflexivity|].
    discriminate.
  - apply (C7_deleteTable_only_when_empty
             (Sample.with_tables [("pi_obras", Sample.pi_empty)]) "pi_obras"
             Sample.pi_empty); reflexivity.
  - apply (C7_deleteTable_only_when_empty Cases.referred "pi_cat"
             (Table [Sample.id_col; Sample.text_col "nombre"]
                [Sample.pkey "pi_cat"] [] 1)); reflexivity.
Defined.

(** C7, counterexample to the claim as worded (an empty table is always
    dropped): [pi_cat] holds no row and a foreign key of [pi_items]
    refers to it; deleteTable answers 500 and the table stays. *)
Lemma C7_counterexample :
  (rows <$> tables Cases.referred !! "pi_cat") = Some []
  ∧ deleteTable Cases.referred "pi_cat"
    = (Refuse 500 InternalError, Cases.referred)
  ∧ listTables Cases.referred (Some "pi") None
    = Reply 200 [("pi_cat", false); ("pi_items", false)].
Proof. repeat split; vm_compute; reflexivity. Qed.

(** C1. The table-name guard is missing from deleteTable, editTable and
    getTableRecordById: for the name [users], which carries none of the
    three prefixes, deleteTable drops the table, editTable drops a
    column of it and getTableRecordById returns its row, each with
    status 200. *)
Theorem C1_unprefixed_name_reaches_database :
  prefixed "users" = false
  ∧ deleteTable (Sample.with_tables [("users", Sample.users)]) "users"
    = (Reply 200 tt, Sample.with_tables [])
  ∧ (∃ st',
       editTable (Sample.with_tables [("users", Sample.users)]) "users"
         None (Some [Deletion (Some "email")]) None = (Reply 200 tt, st')
       ∧ column_names <$> tables st' !! "users" = Some ["id"])
  ∧ (∃ res st',
       getTableRecordById (Sample.with_tables [("users", Sample.users_one)])
         "users" "1" = (Reply 200 res, st')
       ∧ RecordById.record res = {["id" := VNum 1; "email" := VStr "a@b.c"]}).
Proof.
  split; [reflexivity|]. split; [vm_compute; reflexivity|]. split.
  - eexists. split; vm_compute; reflexivity.
  - eexists _, _. split; vm_compute; reflexivity.
Qed.

(** ** Column deletion *)


Lemma filter_length_pos {A} (P : A → Prop) `{∀ x, Decision (P x)} (l : list A) :
  (Z.of_nat (length (filter P l)) >? 0) = true ↔ ∃ x, x ∈ l ∧ P x.
Proof.
  split.
  - intros Hpos. destruct (filter P l) as [|x l'] eqn:E; [discriminate|].
    exists x. assert (Hin : x ∈ filter P l) by (rewrite E; left).
    apply list_elem_of_filter in Hin. tauto.
  - intros (x & Hx & HP).
    assert (Hin : x ∈ filter P l) by (apply list_elem_of_filter; done).
    destruct (filter P l); [by apply elem_of_nil in Hin|]. reflexivity.
Qed.

Lemma count_not_null_pos (st : state) (table_name c : string) (t : table) :
  tables st !! table_name = Some t → c ∈ column_names t →
  ∃ n, count_not_null st table_name c = Some n
       ∧ ((n >? 0) = true ↔ has_data st table_name c).
Proof.
  intros Ht Hc. unfold count_not_null, has_column. rewrite Ht. simpl.
  rewrite bool_decide_eq_true_2 by done. eexists. split; [reflexivity|].
  rewrite filter_length_pos. unfold has_data. split.
  - intros (r & Hr & Hp). eauto.
  - intros (t' & r & Ht' & Hr & Hp). simplify_eq. eauto.
Qed.

Lemma key_column_usage_nil (st : state) (table_name c : string) :
  key_column_usage st table_name c = [] ↔ ¬ keyed st table_name c.
Proof.
  unfold key_column_usage, keyed. destruct (tables st !! table_name) as [t|].
  - split.
    + intros Hnil (t' & k & Ht' & Hk & Hc). simplify_eq.
      apply map_eq_nil in Hnil.
      assert (Hin : k ∈ filter (λ k0, key_column k0 = key_column k) (keys t'))
        by (apply list_elem_of_filter; done).
      rewrite Hnil in Hin. by apply elem_of_nil in Hin.
    + intros Hno. destruct (filter _ (keys t)) as [|k l] eqn:E; [done|].
      exfalso. apply Hno. exists t, k.
      assert (Hin : k ∈ filter (λ k, key_column k = c) (keys t))
        by (rewrite E; left).
      apply list_elem_of_filter in Hin as [? ?]. done.
  - split; [|done]. intros _ (t' & ? & ? & _). done.
Qed.




(** A pass of the deletion loop that goes on has dropped its column,
    and that column had neither data nor a key constraint. *)
Lemma delete_one_inr (st st' : state) (table_name : string) (d : deletion) :
  EditTable.delete_one st table_name d = inr st' →
  removeColumn st table_name (columnName d) = Some st'
  ∧ ¬ has_data st table_name (columnName d)
  ∧ ¬ keyed st table_name (columnName d).
Proof.
  unfold EditTable.delete_one. intros H.
  destruct (count_not_null st table_name (columnName d)) as [n|] eqn:En;
    [|done].
  assert (∃ t, tables st !! table_name = Some t ∧ columnName d ∈ column_names t)
    as (t & Ht & Hc).
  { unfold count_not_null, has_column in En.
    destruct (tables st !! table_name) as [t|]; [simpl in En|done].
    destruct (decide (columnName d ∈ column_names t)) as [Hc|Hc]; [by eauto|].
    by rewrite bool_decide_eq_false_2 in En. }
  destruct (count_not_null_pos st table_name _ t Ht Hc) as (n' & En' & Hn).
  rewrite En in En'. injection En' as <-.
  destruct (n >? 0) eqn:E; [done|].
  case_bool_decide as Hk; simpl in H; [|done].
  destruct (removeColumn st table_name (columnName d)) as [s|]; [|done].
  simpl in H. injection H as <-. repeat split.
  - intros Hd. apply Hn in Hd. discriminate.
  - by apply key_column_usage_nil.
Qed.




(** ** Listing the records of a plan-item table *)

Lemma sql_eq_true (a b : value) : sql_eq a b = true → a = b.
Proof.
  unfold sql_eq. intros H. apply andb_true_iff in H as [_ H].
  by apply bool_decide_eq_true in H.
Qed.






(** ** Updating a record *)

Lemma columns_ci_unambiguous (st : state) (table_name : string) (t : table) :
  unambiguous st table_name → tables st !! table_name = Some t →
  ∀ c, c ∈ map column_name (columns_ci st table_name) ↔ c ∈ column_names t.
Proof.
  intros Hun Ht c. unfold columns_ci, column_names.
  rewrite !list_elem_of_In, !in_map_iff. split.
  - intros (col & <- & Hin). apply in_flat_map in Hin as ([n t'] & Hnt & Hcol).
    apply list_elem_of_In, elem_of_map_to_list in Hnt. simpl in Hcol.
    destruct (String.eqb_spec (toLowerCase n) (toLowerCase table_name))
      as [Heq|]; [|done].
    apply (Hun n t' Hnt) in Heq as ->. simplify_eq. eauto.
  - intros (col & <- & Hin). exists col. split; [done|].
    apply in_flat_map. exists (table_name, t). split.
    + by apply list_elem_of_In, elem_of_map_to_list.
    + simpl. by rewrite String.eqb_refl.
Qed.

Lemma filteredData_ext (fields fields' : list string) (data : gmap string value) :
  (∀ c, c ∈ fields ↔ c ∈ fields') →
  filteredData fields data = filteredData fields' data.
Proof.
  intros Heq. unfold filteredData. apply map_filter_ext.
  intros k v _. simpl. by rewrite Heq.
Qed.

Lemma filteredData_lookup (fields : list string) (data : gmap string value)
    (k : string) :
  filteredData fields data !! k
  = match data !! k with
    | Some v => if bool_decide (k ∈ fields) && present v then Some v else None
    | None => None
    end.
Proof.
  unfold filteredData. destruct (data !! k) as [v|] eqn:Hk.
  - destruct (bool_decide (k ∈ fields) && present v) eqn:Hc.
    + apply andb_true_iff in Hc as [Hf%bool_decide_eq_true Hp].
      apply map_lookup_filter_Some. done.
    + apply map_lookup_filter_None. right. intros v' Hv' [Hf Hp].
      simplify_eq. simpl in *.
      rewrite (bool_decide_eq_true_2 _ Hf), Hp in Hc. done.
  - apply map_lookup_filter_None. by left.
Qed.

Lemma filteredData_columns (t : table) (data : gmap string value) :
  all_columns t (filteredData (column_names t) data) = true.
Proof.
  unfold all_columns. apply bool_decide_eq_true. intros k v Hk.
  apply map_lookup_filter_Some in Hk as [_ [Hf _]]. done.
Qed.

(** The row an update leaves: the filtered fields over the old row. *)
Lemma updated_row_lookup (fields : list string) (data : gmap string value)
    (r : row) (k : string) :
  (filteredData fields data ∪ r) !! k
  = match data !! k with
    | Some v => if bool_decide (k ∈ fields) && present v then Some v else r !! k
    | None => r !! k
    end.
Proof.
  rewrite lookup_union, filteredData_lookup.
  destruct (data !! k) as [v|]; [destruct (_ && _)|]; by destruct (r !! k).
Qed.

(** What the shared body of the two update handlers computes. *)
Lemma apply_update_spec (st : state) (table_name record_id : string)
    (data : gmap string value) (t : table) :
  tables st !! table_name = Some t → has_column t "id" = true →
  unambiguous st table_name →
  let hit := λ r : row, cell_matches (cell r "id") record_id in
  let filtered := filteredData (column_names t) data in
  ((∀ r, r ∈ rows t → hit r = false) →
   apply_update st table_name record_id data = (Refuse 404 NotFound, st))
  ∧ (∀ r0, head (filter (λ r, hit r = true) (rows t)) = Some r0 →
       (filtered = ∅ →
        apply_update st table_name record_id data
        = (Refuse 400 NoValidFields, st))
       ∧ (filtered ≠ ∅ →
          apply_update st table_name record_id data
          = (Reply 200 (filtered ∪ r0),
             set_tables st
               (<[table_name :=
                    Table (columns t) (keys t)
                      (map (λ r, if hit r then filtered ∪ r else r) (rows t))
                      (next_id t)]> (tables st))))).
Proof.
  intros Ht Hid Hun hit filtered.
  assert (Hfields : filteredData (map column_name (columns_ci st table_name)) data
                    = filtered).
  { apply filteredData_ext. by apply columns_ci_unambiguous. }
  assert (Hne : map column_name (columns_ci st table_name) ≠ []).
  { intros Hnil. apply bool_decide_eq_true in Hid.
    apply (columns_ci_unambiguous st table_name t Hun Ht) in Hid.
    rewrite Hnil in Hid. by apply elem_of_nil in Hid. }
  unfold apply_update, record_exists. rewrite Ht. simpl. rewrite Hid.
  fold hit. split.
  - intros Hnone.
    assert (existsb hit (rows t) = false) as ->; [|done].
    apply not_true_iff_false. intros (r & Hr & Hhit)%existsb_exists.
    apply list_elem_of_In in Hr. by rewrite (Hnone r Hr) in Hhit.
  - intros r0 Hhead.
    assert (Hr0 : r0 ∈ filter (λ r, hit r = true) (rows t)).
    { destruct (filter _ (rows t)); [done|]. injection Hhead as ->. left. }
    assert (existsb hit (rows t) = true) as ->.
    { apply list_elem_of_filter in Hr0 as [Hh Hr]. apply existsb_exists.
      exists r0. split; [by apply list_elem_of_In|done]. }
    rewrite (bool_decide_eq_false_2 _ Hne), Hfields. split.
    + intros ->. done.
    + intros Hfne. rewrite (bool_decide_eq_false_2 _ Hfne).
      unfold sql_update. rewrite Ht. simpl.
      rewrite (bool_decide_eq_false_2 _ Hfne), Hid.
      unfold filtered. rewrite filteredData_columns. simpl.
      fold filtered. fold hit.
      destruct (filter (λ r, hit r = true) (rows t)) as [|r rs]; [done|].
      injection Hhead as ->. done.
Qed.

Lemma filter_same_on {A} (P Q : A → Prop) `{∀ x, Decision (P x)}
    `{∀ x, Decision (Q x)} (l : list A) :
  (∀ x, x ∈ l → P x ↔ Q x) → filter P l = filter Q l.
Proof.
  induction l as [|x l IH]; intros Hall; [done|].
  rewrite !filter_cons, IH by (intros y Hy; apply Hall; by right).
  destruct (decide (P x)) as [HP|HP], (decide (Q x)) as [HQ|HQ]; try done.
  - exfalso. apply HQ. apply Hall; [left|done].
  - exfalso. apply HP. apply Hall; [left|done].
Qed.

Lemma typed_id_hit (t : table) (record_id : string) (n : Z) (r : row) :
  typed_cells "integer" "id" t = true → parse_int record_id = Some n →
  r ∈ rows t →
  cell_matches (cell r "id") record_id = bool_decide (cell r "id" = VNum n).
Proof.
  unfold typed_cells. rewrite forallb_forall. intros Hty Hn Hr.
  specialize (Hty r (proj1 (list_elem_of_In _ _) Hr)).
  destruct (cell r "id") as [| |b|m|s] eqn:Hc; simpl in *; try done.
  rewrite Hn. apply bool_decide_ext. split; congruence.
Qed.

(** A check that decides [unambiguous] on a given state. *)
Lemma unambiguous_check (st : state) (table_name : string) :
  forallb
    (λ nt : string * table,
       negb (String.eqb (toLowerCase nt.1) (toLowerCase table_name))
       || String.eqb nt.1 table_name)
    (map_to_list (tables st)) = true →
  unambiguous st table_name.
Proof.
  intros Hall n t Hn Hlow. rewrite forallb_forall in Hall.
  specialize (Hall (n, t)). simpl in Hall. rewrite Hlow, String.eqb_refl in Hall.
  apply String.eqb_eq, Hall, list_elem_of_In, elem_of_map_to_list, Hn.
Qed.

(** C4 (as amended). For updateTableRecord (on a provider_ or
    inscription_ table) and updatePiRecord (on a pi_ table), in a
    catalog of plain names where no other table's name differs from
    this one by letter case only, on a table whose column [id] is an
    integer column with integer cells, for a record id that is the
    decimal text of an integer [n] in range, and for a body whose
    fields that name a column of the table and hold a value other than
    null and undefined (the filtered fields) can be written as they
    are: if no row has the id [n], the answer is 404 NotFound and the
    state is unchanged; otherwise an empty filter gives 400
    NoValidFields and an unchanged state, and a non-empty one gives 200
    with the updated row, in which each filtered field holds the body's
    value and every other column holds what it held before; rows with
    another id and other tables are unchanged. *)
Theorem C4_update_record (st : state) (table_name record_id : string)
    (n : Z) (data : gmap string value) (t : table)
    (handler : state → string → string → gmap string value
               → response row * state) :
  (handler = updateTableRecord
   ∧ (startsWith table_name "provider_" = true
      ∨ startsWith table_name "inscription_" = true))
  ∨ (handler = updatePiRecord ∧ startsWith table_name "pi_" = true) →
  tables st !! table_name = Some t →
  plain_catalog st = true →
  unambiguous st table_name →
  column_type t "id" = Some "integer" →
  typed_cells "integer" "id" t = true →
  parse_int record_id = Some n → int4 n = true →
  writable st table_name t (filteredData (column_names t) data) = true →
  let filtered := filteredData (column_names t) data in
  ((∀ r, r ∈ rows t → cell r "id" ≠ VNum n) →
   handler st table_name record_id data = (Refuse 404 NotFound, st))
  ∧ (∀ r0, head (filter (λ r, cell r "id" = VNum n) (rows t)) = Some r0 →
       (filtered = ∅ →
        handler st table_name record_id data = (Refuse 400 NoValidFields, st))
       ∧ (filtered ≠ ∅ →
          handler st table_name record_id data
          = (Reply 200 (filtered ∪ r0),
             set_tables st
               (<[table_name :=
                    Table (columns t) (keys t)
                      (map (λ r, if bool_decide (cell r "id" = VNum n)
                                 then filtered ∪ r else r) (rows t))
                      (next_id t)]> (tables st)))))
  ∧ (∀ (r : row) k,
       (filtered ∪ r) !! k
       = match data !! k with
         | Some v =>
             if bool_decide (k ∈ column_names t) && present v
             then Some v else r !! k
         | None => r !! k
         end).
Proof.
  intros Hh Ht _ Hun Hty Hcells Hn _ _ filtered.
  assert (Hid : has_column t "id" = true).
  { unfold column_type in Hty.
    destruct (find _ (columns t)) as [c|] eqn:Hf; [|done].
    apply find_some in Hf as [Hin Hc]. apply String.eqb_eq in Hc.
    apply bool_decide_eq_true. unfold column_names. rewrite <- Hc.
    apply list_elem_of_In, in_map, Hin. }
  assert (Hbody : handler st table_name record_id data
                  = apply_update st table_name record_id data).
  { destruct Hh as [[-> Hp]|[-> Hp]].
    - unfold updateTableRecord.
      by destruct Hp as [-> | ->]; rewrite ?andb_false_r.
    - unfold updatePiRecord. by rewrite Hp. }
  rewrite Hbody.
  destruct (apply_update_spec st table_name record_id data t Ht Hid Hun)
    as [H404 Hupd].
  pose proof (λ r, typed_id_hit t record_id n r Hcells Hn) as Hhit.
  assert (Hfilter :
    filter (λ r, cell_matches (cell r "id") record_id = true) (rows t)
    = filter (λ r, cell r "id" = VNum n) (rows t)).
  { apply filter_same_on. intros r Hr. rewrite (Hhit r Hr).
    apply bool_decide_eq_true. }
  split; [|split].
  - intros Hnone. apply H404. intros r Hr. rewrite (Hhit r Hr).
    apply bool_decide_eq_false_2. by apply Hnone.
  - intros r0 Hhead. rewrite <- Hfilter in Hhead.
    destruct (Hupd r0 Hhead) as [Hempty Hok]. split; [exact Hempty|].
    intros Hne. rewrite (Hok Hne). do 4 f_equal.
    apply map_ext_in. intros r Hr%list_elem_of_In. by rewrite (Hhit r Hr).
  - intros r k. apply updated_row_lookup.
Qed.

Lemma C4_update_record_witness :
  updatePiRecord (Sample.with_tables [("pi_obras", Sample.pi_one)])
    "pi_obras" "1"
    {["nombre" := VStr "b"; "color" := VStr "rojo"; "id" := VNull]}
  = (Reply 200 {["id" := VNum 1; "nombre" := VStr "b"]},
     Sample.with_tables
       [("pi_obras",
         Table (columns Sample.pi_one) (keys Sample.pi_one)
           [{["id" := VNum 1; "nombre" := VStr "b"]}] 2)]).
Proof.
  assert (Hun : unambiguous
                  (Sample.with_tables [("pi_obras", Sample.pi_one)]) "pi_obras")
    by (apply unambiguous_check; vm_compute; reflexivity).
  assert (Hw : writable (Sample.with_tables [("pi_obras", Sample.pi_one)])
                 "pi_obras" Sample.pi_one
                 (filteredData (column_names Sample.pi_one)
                    {["nombre" := VStr "b"; "color" := VStr "rojo";
                      "id" := VNull]}) = true)
    by (vm_compute; reflexivity).
  destruct (C4_update_record
              (Sample.with_tables [("pi_obras", Sample.pi_one)])
              "pi_obras" "1" 1
              {["nombre" := VStr "b"; "color" := VStr "rojo"; "id" := VNull]}
              Sample.pi_one updatePiRecord
              (or_intror (conj eq_refl eq_refl)) eq_refl eq_refl Hun
              eq_refl eq_refl eq_refl eq_refl Hw)
    as (_ & Hupd & _).
  destruct (Hupd {["id" := VNum 1; "nombre" := VStr "a"]} eq_refl)
    as [_ Hok].
  rewrite Hok.
  - vm_compute. reflexivity.
  - intros Hempty.
    apply (f_equal (λ m : gmap string value, m !! "nombre")) in Hempty.
    vm_compute in Hempty. discriminate.
Defined.

(** C4, counterexample to the claim as worded. Two tables whose names
    differ by letter case only: the body names a column of [pi_Obras],
    which is no column of [pi_obras], so no field of the body names a
    column of the table and the claim has the call fail NoValidFields.
    The handler filters against the columns of both tables, keeps the
    field, and the UPDATE fails: 500 InternalError. *)
Lemma C4_counterexample :
  let data : gmap string value := {["extra" := VStr "x"]} in
  (∃ r, r ∈ rows Sample.pi_one ∧ cell r "id" = VNum 1)
  ∧ tables Cases.two_cases !! "pi_obras" = Some Sample.pi_one
  ∧ filteredData (column_names Sample.pi_one) data = ∅
  ∧ updatePiRecord Cases.two_cases "pi_obras" "1" data
    = (Refuse 500 InternalError, Cases.two_cases).
Proof.
  intros data. split; [|split; [|split]].
  - eexists. split; [left|reflexivity].
  - reflexivity.
  - vm_compute. reflexivity.
  - vm_compute. reflexivity.
Qed.

(** ** Create or update by natural key *)

Lemma NoDup_map_inj {A B} (f : A → B) (l : list A) (x y : A) :
  NoDup (map f l) → x ∈ l → y ∈ l → f x = f y → x = y.
Proof.
  induction l as [|a l IH]; intros Hnd Hx Hy Heq; [by apply elem_of_nil in Hx|].
  simpl in Hnd. apply NoDup_cons in Hnd as [Ha Hnd].
  assert (Hmem : ∀ z, z ∈ l → f z ∈ map f l).
  { intros z Hz. by apply list_elem_of_In, in_map, list_elem_of_In. }
  apply elem_of_cons in Hx as [->|Hx]; apply elem_of_cons in Hy as [->|Hy].
  - done.
  - exfalso. apply Ha. rewrite Heq. by apply Hmem.
  - exfalso. apply Ha. rewrite <- Heq. by apply Hmem.
  - by apply IH.
Qed.

Lemma id_match (t : table) (e : row) :
  ids_ok t → e ∈ rows t →
  ∀ r, r ∈ rows t → sql_eq (cell r "id") (cell e "id") = true ↔ r = e.
Proof.
  intros [Hdrawn Hnd] He r Hr. split.
  - intros Heq%sql_eq_true. by apply (NoDup_map_inj _ _ _ _ Hnd Hr He).
  - intros ->. destruct (Hdrawn e He) as (n & Hn & _).
    unfold sql_eq, cell. rewrite Hn. simpl. by rewrite bool_decide_eq_true_2.
Qed.

Lemma filter_map_replace {A} (P : A → Prop) `{∀ x, Decision (P x)}
    (Q : A → bool) (f : A → A) (e : A) (l : list A) :
  (∀ r, r ∈ l → Q r = true ↔ r = e) → (∀ r, r ∈ l → P r ↔ r = e) →
  P (f e) →
  filter P (map (λ r, if Q r then f r else r) l) = map f (filter P l).
Proof.
  intros HQ HP Hfe. induction l as [|a l IH]; [done|].
  assert (IH' : filter P (map (λ r, if Q r then f r else r) l)
                = map f (filter P l)).
  { apply IH; intros r Hr; [apply HQ|apply HP]; by right. }
  simpl. rewrite !filter_cons.
  destruct (decide (P a)) as [Hp|Hp].
  - assert (a = e) as -> by (apply HP; [left|done]).
    assert (Q e = true) as -> by (apply HQ; [left|done]).
    rewrite decide_True by done. simpl. by rewrite IH'.
  - assert (Q a = false) as ->.
    { apply not_true_iff_false. intros Hq. apply Hp, HP; [left|].
      apply HQ; [left|done]. }
    by rewrite decide_False.
Qed.

(** What a natural key binds: columns other than [id], each to the
    truthy value the filtered fields give it. *)
Lemma natural_key_bindings (table_name : string) (filtered : row)
    (conds : list (string * value)) :
  CreateRecord.natural_key table_name filtered = Some conds →
  conds ≠ []
  ∧ ∀ c v, (c, v) ∈ conds →
           filtered !! c = Some v ∧ present v = true ∧ c ≠ "id".
Proof.
  unfold CreateRecord.natural_key, CreateRecord.prop.
  assert (Hp : ∀ c v, truthy (default VUndefined (filtered !! c)) = true →
                      v = default VUndefined (filtered !! c) →
                      filtered !! c = Some v ∧ present v = true).
  { intros c v Ht ->. destruct (filtered !! c) as [w|]; [|done].
    split; [done|]. by destruct w. }
  destruct (String.eqb table_name "pi_formulacion").
  - destruct (truthy _) eqn:H1; [|done]. destruct (truthy _) eqn:H2 in |- *;
      [|done]. intros [= <-]. split; [done|]. intros c v Hin.
    apply elem_of_cons in Hin as [[= -> ->]|Hin].
    { destruct (Hp _ _ H1 eq_refl). done. }
    apply list_elem_of_singleton in Hin as [= -> ->].
    destruct (Hp _ _ H2 eq_refl). done.
  - destruct (truthy _) eqn:H1; [|done]. intros [= <-]. split; [done|].
    intros c v Hin. apply list_elem_of_singleton in Hin as [= -> ->].
    destruct (Hp _ _ H1 eq_refl). done.
Qed.

(** A row that holds the filtered fields carries their natural key. *)
Lemma satisfies_bound (conds : list (string * value)) (r : row) :
  (∀ c v, (c, v) ∈ conds → r !! c = Some v ∧ present v = true) →
  satisfies conds r = true.
Proof.
  intros Hb. unfold satisfies. apply forallb_forall. intros [c v] Hin.
  apply list_elem_of_In in Hin. destruct (Hb c v Hin) as [Hr Hp].
  unfold sql_eq, cell. simpl. rewrite Hr. simpl. rewrite Hp. simpl.
  by apply bool_decide_eq_true.
Qed.

Lemma kept_columns (t : table) (data : gmap string value) :
  all_columns t (kept t data) = true.
Proof.
  unfold all_columns. apply bool_decide_eq_true. intros k v Hk.
  apply map_lookup_filter_Some in Hk as [_ [Hf _]]. simpl in Hf.
  apply list_elem_of_filter in Hf. tauto.
Qed.

Lemma kept_is_filtered (st : state) (table_name : string) (t : table)
    (data : gmap string value) :
  unambiguous st table_name → tables st !! table_name = Some t →
  filteredData
    (filter (λ n, n ≠ "") (map column_name (columns_ci st table_name))) data
  = kept t data.
Proof.
  intros Hun Ht. apply filteredData_ext. intros c.
  rewrite !list_elem_of_filter.
  by rewrite (columns_ci_unambiguous st table_name t Hun Ht).
Qed.

Lemma head_filter_unique {A} (P : A → Prop) `{∀ x, Decision (P x)}
    (e : A) (l : list A) :
  (∀ r, r ∈ l → P r ↔ r = e) → e ∈ l → head (filter P l) = Some e.
Proof.
  intros HP He.
  assert (Hin : e ∈ filter P l) by (apply list_elem_of_filter; split;
                                    [by apply HP|done]).
  destruct (filter P l) as [|x xs] eqn:E; [by apply elem_of_nil in Hin|].
  assert (Hx : x ∈ filter P l) by (rewrite E; left).
  apply list_elem_of_filter in Hx as [Hpx Hxl]. simpl. f_equal. by apply HP.
Qed.

Lemma head_map {A B} (f : A → B) (l : list A) :
  head (map f l) = f <$> head l.
Proof. by destruct l. Qed.

Lemma kept_nonempty (table_name : string) (t : table)
    (data : gmap string value) (conds : list (string * value)) :
  CreateRecord.natural_key table_name (kept t data) = Some conds →
  kept t data ≠ ∅
  ∧ forallb (λ cv : string * value, has_column t cv.1) conds = true
  ∧ ∀ c v, (c, v) ∈ conds →
           kept t data !! c = Some v ∧ present v = true ∧ c ≠ "id".
Proof.
  intros Hkey. destruct (natural_key_bindings _ _ _ Hkey) as [Hne Hb].
  split; [|split; [|done]].
  - destruct conds as [|[c v] conds]; [done|].
    destruct (Hb c v) as [Hc _]; [left|]. intros Hempty.
    by rewrite Hempty, lookup_empty in Hc.
  - apply forallb_forall. intros [c v] Hin%list_elem_of_In.
    destruct (Hb c v Hin) as [Hc _]. simpl. apply bool_decide_eq_true.
    apply map_lookup_filter_Some in Hc as [_ [Hf _]]. simpl in Hf.
    apply list_elem_of_filter in Hf. tauto.
Qed.

(** One call of [createTableRecord] on a table with at most one row
    under the natural key: it answers with the one row that carries
    the key afterwards, inserted when there was none and updated
    otherwise. *)
Lemma upsert_step (st : state) (table_name : string) (t : table)
    (data : gmap string value) (conds : list (string * value)) :
  startsWith table_name "pi_" = true →
  tables st !! table_name = Some t → unambiguous st table_name →
  has_column t "id" = true → serial_id t = true → ids_ok t →
  CreateRecord.natural_key table_name (kept t data) = Some conds →
  (length (keyed_rows conds t) ≤ 1)%nat →
  ∃ code r t',
    createTableRecord st table_name data
    = (Reply code (Some r), set_tables st (<[table_name := t']> (tables st)))
    ∧ columns t' = columns t
    ∧ keyed_rows conds t' = [r]
    ∧ match keyed_rows conds t with
      | [] => code = 201 ∧ r = (stored t (kept t data)).1
      | e :: _ => code = 200 ∧ r = kept t data ∪ e
      end
    ∧ (data !! "id" = None → ids_ok t').
Proof.
  intros Hpi Ht Hun Hid Hserial Hok Hkey Hlen.
  destruct (kept_nonempty _ _ _ _ Hkey) as (Hne & Hcols & Hb).
  assert (Hfields :
    filter (λ n, n ≠ "") (map column_name (columns_ci st table_name)) ≠ []).
  { intros Hnil. apply bool_decide_eq_true in Hid.
    apply (columns_ci_unambiguous st table_name t Hun Ht) in Hid.
    assert (Hin : "id" ∈ filter (λ n, n ≠ "")
                          (map column_name (columns_ci st table_name)))
      by (apply list_elem_of_filter; done).
    rewrite Hnil in Hin. by apply elem_of_nil in Hin. }
  assert (Hkid : data !! "id" = None → kept t data !! "id" = None).
  { intros Hd. apply map_lookup_filter_None. by left. }
  unfold createTableRecord. rewrite Hpi. simpl.
  rewrite (bool_decide_eq_false_2 _ Hfields).
  rewrite (kept_is_filtered st table_name t data Hun Ht), Hkey.
  unfold select_where. rewrite Ht. simpl. rewrite Hid, Hcols. simpl.
  fold (keyed_rows conds t). unfold keyed_rows in Hlen |- *.
  destruct (filter (λ r, satisfies conds r = true) (rows t))
    as [|e rest] eqn:Hrows.
  - (* no row under the key: insert *)
    unfold CreateRecord.insert, sql_insert. rewrite Ht. simpl.
    rewrite (bool_decide_eq_false_2 _ Hne), kept_columns.
    destruct (stored t (kept t data)) as [r n] eqn:Hst.
    assert (Hr : ∀ c v, (c, v) ∈ conds → r !! c = Some v ∧ present v = true).
    { intros c v Hin. destruct (Hb c v Hin) as (Hc & Hp & Hcid).
      split; [|done]. unfold stored in Hst.
      destruct (_ && _); injection Hst as <- <-; [|done].
      by rewrite lookup_insert_ne. }
    exists 201, r, (Table (columns t) (keys t) (rows t ++ [r]) n).
    split; [done|]. split; [done|]. split; [|split; [done|]].
    + simpl. rewrite filter_app, Hrows. simpl. rewrite filter_cons.
      rewrite decide_True by (by apply satisfies_bound). done.
    + intros Hd. apply Hkid in Hd. unfold stored in Hst.
      rewrite Hserial, (bool_decide_eq_true_2 _ Hd) in Hst. simpl in Hst.
      injection Hst as <- <-. destruct Hok as [Hdrawn Hnd]. split; simpl.
      * intros r Hr'. apply elem_of_app in Hr' as [Hr'|Hr'].
        -- destruct (Hdrawn r Hr') as (m & Hm & Hlt). exists m. split; [done|lia].
        -- apply list_elem_of_singleton in Hr' as ->. exists (next_id t).
           rewrite lookup_insert_eq. split; [done|lia].
      * rewrite map_app. simpl. apply NoDup_app. split; [done|].
        split; [|apply NoDup_singleton].
        intros x Hx Hx'. apply list_elem_of_singleton in Hx' as ->.
        apply list_elem_of_In, in_map_iff in Hx as (r0 & Hr0 & Hin).
        apply list_elem_of_In in Hin.
        destruct (Hdrawn r0 Hin) as (m & Hm & Hlt).
        unfold cell in Hr0. rewrite Hm, lookup_insert_eq in Hr0. simpl in Hr0.
        injection Hr0 as ->. lia.
  - (* one row under the key: update it *)
    assert (rest = []) as -> by (destruct rest; [done|simpl in Hlen; lia]).
    assert (He : e ∈ rows t ∧ satisfies conds e = true).
    { assert (Hin : e ∈ filter (λ r, satisfies conds r = true) (rows t))
        by (rewrite Hrows; left).
      apply list_elem_of_filter in Hin. tauto. }
    destruct He as [He HPe].
    assert (HQ : ∀ r, r ∈ rows t →
                      sql_eq (cell r "id") (cell e "id") = true ↔ r = e)
      by (by apply id_match).
    assert (HP : ∀ r, r ∈ rows t → satisfies conds r = true ↔ r = e).
    { intros r Hr. split; [|by intros ->]. intros Hs.
      assert (Hin : r ∈ filter (λ r, satisfies conds r = true) (rows t))
        by (apply list_elem_of_filter; done).
      rewrite Hrows in Hin. by apply list_elem_of_singleton in Hin. }
    assert (Hfe : satisfies conds (kept t data ∪ e) = true).
    { apply satisfies_bound. intros c v Hin.
      destruct (Hb c v Hin) as (Hc & Hp & _). split; [|done].
      by apply lookup_union_Some_l. }
    unfold sql_update. rewrite Ht. simpl.
    rewrite (bool_decide_eq_false_2 _ Hne), Hid, kept_columns. simpl.
    exists 200, (kept t data ∪ e),
      (Table (columns t) (keys t)
         (map (λ r, if sql_eq (cell r "id") (cell e "id")
                    then kept t data ∪ r else r) (rows t)) (next_id t)).
    split; [|split; [done|split; [|split; [done|]]]].
    + pose proof (head_filter_unique
                    (λ r, sql_eq (cell r "id") (cell e "id") = true)
                    e (rows t) HQ He) as Hh.
      by rewrite head_map, Hh.
    + simpl.
      rewrite (filter_map_replace (λ r, satisfies conds r = true)
                 (λ r, sql_eq (cell r "id") (cell e "id"))
                 (λ r, kept t data ∪ r) e (rows t) HQ HP Hfe).
      by rewrite Hrows.
    + intros Hd. apply Hkid in Hd.
      assert (Hsame : ∀ r : row,
        cell (if sql_eq (cell r "id") (cell e "id")
              then kept t data ∪ r else r) "id" = cell r "id").
      { intros r. destruct (sql_eq _ _); [|done]. unfold cell.
        by rewrite lookup_union_r. }
      destruct Hok as [Hdrawn Hnd]. split; simpl.
      * intros r' Hr'. apply list_elem_of_In, in_map_iff in Hr' as (r & <- & Hr).
        apply list_elem_of_In in Hr. destruct (Hdrawn r Hr) as (m & Hm & Hlt).
        exists m. split; [|done]. destruct (sql_eq _ _); [|done].
        by rewrite lookup_union_r.
      * rewrite map_map. erewrite map_ext; [exact Hnd|]. intros r. apply Hsame.
Qed.

Lemma unambiguous_insert (st : state) (table_name : string) (t' : table) :
  unambiguous st table_name →
  unambiguous (set_tables st (<[table_name := t']> (tables st))) table_name.
Proof.
  intros Hun n t Hn Hlow. destruct (decide (n = table_name)) as [|Hne]; [done|].
  simpl in Hn. rewrite lookup_insert_ne in Hn by done. by apply (Hun n t).
Qed.

(** The natural key the handler looks up is the one the specification
    words, on the key fields that all hold a truthy value. *)
Lemma natural_key_fields (table_name : string) (filtered : row) :
  CreateRecord.natural_key table_name filtered
  = if forallb (λ c, truthy (cell filtered c)) (key_fields table_name)
    then Some (map (λ c, (c, cell filtered c)) (key_fields table_name))
    else None.
Proof.
  unfold CreateRecord.natural_key, CreateRecord.prop, key_fields, cell.
  destruct (String.eqb table_name "pi_formulacion"); simpl.
  - destruct (filtered !! "caracterizacion_id") as [v1|],
      (filtered !! "rel_id_prov") as [v2|]; simpl;
      rewrite ?andb_true_r, ?andb_false_r; done.
  - destruct (filtered !! "caracterizacion_id") as [v1|]; simpl;
      rewrite ?andb_true_r; done.
Qed.

Lemma key_fields_named (table_name c : string) :
  c ∈ key_fields table_name → c ≠ "" ∧ c ≠ "id".
Proof.
  unfold key_fields. destruct (String.eqb table_name "pi_formulacion");
    rewrite !elem_of_cons, elem_of_nil; intros H;
    repeat destruct H as [->|H]; done.
Qed.

Lemma kept_key_cell (t : table) (data : gmap string value) (c : string) :
  c ∈ column_names t → c ≠ "" → truthy (cell data c) = true →
  cell (kept t data) c = cell data c.
Proof.
  unfold cell, kept, filteredData. intros Hc Hne Ht.
  destruct (data !! c) as [v|] eqn:Hd; [|done]. simpl in Ht.
  erewrite map_lookup_filter_Some_2; [done|exact Hd|]. simpl. split.
  - by apply list_elem_of_filter.
  - by destruct v.
Qed.

Lemma under_key_satisfies (fields : list string) (data r : row) :
  (∀ c, c ∈ fields → truthy (cell data c) = true) →
  satisfies (map (λ c, (c, cell data c)) fields) r = true
  ↔ Forall (λ c, cell r c = cell data c) fields.
Proof.
  intros Ht. unfold satisfies. rewrite forallb_forall, Forall_forall. split.
  - intros H c Hc. specialize (H (c, cell data c)). simpl in H.
    apply sql_eq_true, H, in_map_iff. exists c.
    split; [done|by apply list_elem_of_In].
  - intros H [c v] (c' & [= <- <-] & Hc)%in_map_iff.
    apply list_elem_of_In in Hc. simpl. unfold sql_eq.
    rewrite (H c' Hc). specialize (Ht c' Hc).
    assert (present (cell data c') = true) as ->
      by (by destruct (cell data c')).
    simpl. by apply bool_decide_eq_true.
Qed.

Lemma column_type_has (t : table) (c ty : string) :
  column_type t c = Some ty → has_column t c = true.
Proof.
  unfold column_type. intros Hty.
  destruct (find _ (columns t)) as [col|] eqn:Hf; [|done].
  apply find_some in Hf as [Hin Hc]. apply String.eqb_eq in Hc.
  apply bool_decide_eq_true. unfold column_names. rewrite <- Hc.
  apply list_elem_of_In, in_map, Hin.
Qed.

(** C3 (as amended). The natural key of a body is the value it gives
    to caracterizacion_id and, for pi_formulacion, to rel_id_prov with
    it. Both parts are stated for a pi_ table, in a catalog of plain
    names where no other table's name differs from this one by letter
    case only, whose column [id] is an integer column drawn from a
    sequence, with integer cells, distinct and below the next value of
    the sequence, itself in range, and for bodies whose filtered fields (those that name
    a column and hold a value other than null and undefined) can be
    written as they are and, for an insertion, leave out only nullable
    columns without default.
    (1) Two createTableRecord calls whose bodies give the key fields
    the same truthy values, the key fields being columns whose cells
    are of the column's type, starting from at most one row under that
    key, neither body naming [id], leave exactly one row under the key:
    the second call answers 200 with it, and it holds the second body's
    filtered fields over the row the first call answered.
    (2) When a key field of the filtered body is missing or falsy, or
    when every row differs from the filtered body on some key field,
    the call inserts the filtered fields as a new row and answers
    201. *)
Theorem C3_upsert_by_natural_key :
  (∀ st table_name t data1 data2,
     startsWith table_name "pi_" = true →
     tables st !! table_name = Some t →
     plain_catalog st = true → unambiguous st table_name →
     column_type t "id" = Some "integer" →
     typed_cells "integer" "id" t = true →
     serial_id t = true → ids_ok t → int4 (next_id t) = true →
     (∀ c, c ∈ key_fields table_name →
           c ∈ column_names t ∧ typed_column t c = true
           ∧ truthy (cell data1 c) = true ∧ cell data2 c = cell data1 c) →
     writable st table_name t (kept t data1) = true →
     writable st table_name t (kept t data2) = true →
     complete t (kept t data1) = true →
     data1 !! "id" = None → data2 !! "id" = None →
     let under_key := λ t' : table,
       filter (λ r : row, Forall (λ c, cell r c = cell data1 c)
                            (key_fields table_name)) (rows t') in
     (length (under_key t) ≤ 1)%nat →
     ∃ code1 r1 st1 r2 st2 t2,
       createTableRecord st table_name data1 = (Reply code1 (Some r1), st1)
       ∧ createTableRecord st1 table_name data2 = (Reply 200 (Some r2), st2)
       ∧ tables st2 !! table_name = Some t2
       ∧ under_key t2 = [r2]
       ∧ r2 = kept t data2 ∪ r1)
  ∧ (∀ st table_name t data,
       startsWith table_name "pi_" = true →
       tables st !! table_name = Some t →
       plain_catalog st = true → unambiguous st table_name →
       column_type t "id" = Some "integer" →
       typed_cells "integer" "id" t = true → ids_ok t →
       int4 (next_id t) = true →
       (∀ c, c ∈ key_fields table_name → c ∈ column_names t →
             typed_column t c = true) →
       writable st table_name t (kept t data) = true →
       complete t (kept t data) = true →
       kept t data ≠ ∅ →
       (∃ c, c ∈ key_fields table_name
             ∧ truthy (cell (kept t data) c) = false)
       ∨ (∀ r, r ∈ rows t →
               ∃ c, c ∈ key_fields table_name
                    ∧ cell r c ≠ cell (kept t data) c) →
       createTableRecord st table_name data
       = (Reply 201 (Some (stored t (kept t data)).1),
          set_tables st
            (<[table_name :=
                 Table (columns t) (keys t)
                   (rows t ++ [(stored t (kept t data)).1])
                   (stored t (kept t data)).2]> (tables st)))).
Proof.
  split.
  - intros st table_name t data1 data2 Hpi Ht _ Hun Hty _ Hserial Hok _
      Hkey _ _ _ Hnoid _ under_key Hlen.
    pose proof (column_type_has _ _ _ Hty) as Hid.
    set (conds := map (λ c, (c, cell data1 c)) (key_fields table_name)).
    assert (Htruthy : ∀ c, c ∈ key_fields table_name →
                           truthy (cell data1 c) = true)
      by (intros c Hc; by destruct (Hkey c Hc) as (_ & _ & ? & _)).
    assert (Hunder : ∀ t' : table, keyed_rows conds t' = under_key t').
    { intros t'. unfold keyed_rows, under_key. apply filter_same_on.
      intros r _. by apply under_key_satisfies. }
    assert (Hcells : ∀ data, (∀ c, c ∈ key_fields table_name →
                                   cell data c = cell data1 c) →
              ∀ c, c ∈ key_fields table_name →
                   cell (kept t data) c = cell data1 c).
    { intros data Hsame c Hc. destruct (Hkey c Hc) as (Hcol & _ & Htr & _).
      destruct (key_fields_named _ _ Hc) as [Hne _].
      rewrite kept_key_cell; [by apply Hsame|done|done|].
      by rewrite (Hsame c Hc). }
    assert (Hnk : ∀ data, (∀ c, c ∈ key_fields table_name →
                                cell data c = cell data1 c) →
              CreateRecord.natural_key table_name (kept t data) = Some conds).
    { intros data Hsame. rewrite natural_key_fields.
      assert (forallb (λ c, truthy (cell (kept t data) c))
                (key_fields table_name) = true) as ->.
      { apply forallb_forall. intros c Hc%list_elem_of_In.
        rewrite (Hcells data Hsame c Hc). by apply Htruthy. }
      f_equal. unfold conds. apply map_ext_in. intros c Hc%list_elem_of_In.
      by rewrite (Hcells data Hsame c Hc). }
    assert (Hk1 := Hnk data1 (λ c _, eq_refl)).
    assert (Hk2 := Hnk data2
                     (λ c Hc, proj2 (proj2 (proj2 (Hkey c Hc))))).
    rewrite <- Hunder in Hlen.
    destruct (upsert_step st table_name t data1 conds Hpi Ht Hun Hid Hserial
                Hok Hk1 Hlen)
      as (code1 & r1 & t1 & Hcall1 & Hcols1 & Hrows1 & _ & Hok1).
    set (st1 := set_tables st (<[table_name := t1]> (tables st))) in *.
    assert (Ht1 : tables st1 !! table_name = Some t1)
      by apply lookup_insert_eq.
    assert (Hnames : column_names t1 = column_names t)
      by (unfold column_names; by rewrite Hcols1).
    assert (Hkept : kept t1 data2 = kept t data2)
      by (unfold kept; by rewrite Hnames).
    destruct (upsert_step st1 table_name t1 data2 conds Hpi Ht1)
      as (code2 & r2 & t2 & Hcall2 & _ & Hrows2 & Hcase & _).
    + by apply unambiguous_insert.
    + unfold has_column. by rewrite Hnames.
    + unfold serial_id. by rewrite Hcols1.
    + by apply Hok1.
    + by rewrite Hkept.
    + by rewrite Hrows1.
    + rewrite Hrows1, Hkept in Hcase. destruct Hcase as [-> ->].
      exists code1, r1, st1, (kept t data2 ∪ r1),
        (set_tables st1 (<[table_name := t2]> (tables st1))), t2.
      split; [done|]. split; [exact Hcall2|]. split; [apply lookup_insert_eq|].
      split; [|done]. by rewrite <- Hunder.
  - intros st table_name t data Hpi Ht _ Hun Hty _ _ _ _ _ _ Hne Hnone.
    pose proof (column_type_has _ _ _ Hty) as Hid.
    assert (Hfields :
      filter (λ n, n ≠ "") (map column_name (columns_ci st table_name)) ≠ []).
    { intros Hnil. apply bool_decide_eq_true in Hid.
      apply (columns_ci_unambiguous st table_name t Hun Ht) in Hid.
      assert (Hin : "id" ∈ filter (λ n, n ≠ "")
                            (map column_name (columns_ci st table_name)))
        by (apply list_elem_of_filter; done).
      rewrite Hnil in Hin. by apply elem_of_nil in Hin. }
    assert (Hins : CreateRecord.insert st table_name (kept t data)
      = (Reply 201 (Some (stored t (kept t data)).1),
         set_tables st
           (<[table_name :=
                Table (columns t) (keys t)
                  (rows t ++ [(stored t (kept t data)).1])
                  (stored t (kept t data)).2]> (tables st)))).
    { unfold CreateRecord.insert, sql_insert. rewrite Ht. simpl.
      rewrite (bool_decide_eq_false_2 _ Hne), kept_columns.
      by destruct (stored t (kept t data)). }
    unfold createTableRecord. rewrite Hpi. simpl.
    rewrite (bool_decide_eq_false_2 _ Hfields).
    rewrite (kept_is_filtered st table_name t data Hun Ht).
    destruct (CreateRecord.natural_key table_name (kept t data))
      as [conds|] eqn:Hkey; [|exact Hins].
    destruct (kept_nonempty _ _ _ _ Hkey) as (_ & Hcols & _).
    unfold select_where. rewrite Ht. simpl. rewrite Hid, Hcols. simpl.
    rewrite natural_key_fields in Hkey.
    destruct (forallb _ (key_fields table_name)) eqn:Hall; [|done].
    injection Hkey as <-.
    assert (Htruthy : ∀ c, c ∈ key_fields table_name →
                           truthy (cell (kept t data) c) = true).
    { intros c Hc%list_elem_of_In. rewrite forallb_forall in Hall.
      by apply Hall. }
    destruct Hnone as [(c & Hc & Hf)|Hnone].
    { by rewrite (Htruthy c Hc) in Hf. }
    destruct (filter _ (rows t)) as [|r rs] eqn:Hrows; [exact Hins|].
    exfalso.
    assert (Hin : r ∈ filter
                        (λ r, satisfies
                                (map (λ c, (c, cell (kept t data) c))
                                   (key_fields table_name)) r = true)
                        (rows t)) by (rewrite Hrows; left).
    apply list_elem_of_filter in Hin as [Hs Hr].
    apply under_key_satisfies in Hs; [|done].
    destruct (Hnone r Hr) as (c & Hc & Hdiff). apply Hdiff.
    rewrite Forall_forall in Hs. by apply Hs.
Qed.

Lemma C3_upsert_by_natural_key_witness :
  let data1 : gmap string value :=
    {["caracterizacion_id" := VNum 7; "nombre" := VStr "a"]} in
  let data2 : gmap string value :=
    {["caracterizacion_id" := VNum 7; "nombre" := VStr "b"]} in
  let under_key := λ t' : table,
    filter (λ r : row, Forall (λ c, cell r c = cell data1 c)
                         (key_fields "pi_obras")) (rows t') in
  ∃ code1 r1 st1 r2 st2 t2,
    createTableRecord (Sample.with_tables [("pi_obras", Sample.pi_scoped)])
      "pi_obras" data1
    = (Reply code1 (Some r1), st1)
    ∧ createTableRecord st1 "pi_obras" data2 = (Reply 200 (Some r2), st2)
    ∧ tables st2 !! "pi_obras" = Some t2
    ∧ under_key t2 = [r2]
    ∧ r2 = kept Sample.pi_scoped data2 ∪ r1.
Proof.
  intros data1 data2 under_key.
  apply (proj1 C3_upsert_by_natural_key
           (Sample.with_tables [("pi_obras", Sample.pi_scoped)])
           "pi_obras" Sample.pi_scoped data1 data2).
  - reflexivity.
  - reflexivity.
  - vm_compute. reflexivity.
  - apply unambiguous_check. vm_compute. reflexivity.
  - reflexivity.
  - reflexivity.
  - reflexivity.
  - split; simpl.
    + intros r Hr. by apply elem_of_nil in Hr.
    + apply NoDup_nil. done.
  - reflexivity.
  - intros c Hc. apply list_elem_of_singleton in Hc as ->.
    split; [|split; [|split]]; vm_compute; try reflexivity.
    right. left.
  - vm_compute. reflexivity.
  - vm_compute. reflexivity.
  - vm_compute. reflexivity.
  - reflexivity.
  - reflexivity.
  - simpl. lia.
Defined.

(** The claim C3 as stated fails for a falsy caracterizacion_id: two
    calls with [caracterizacion_id = 0] on an empty table leave two
    rows with that caracterizacion_id. *)
Lemma C3_counterexample :
  let st0 := Sample.with_tables [("pi_obras", Sample.pi_scoped)] in
  let data : gmap string value :=
    {["caracterizacion_id" := VNum 0; "nombre" := VStr "a"]} in
  let st1 := (createTableRecord st0 "pi_obras" data).2 in
  let st2 := (createTableRecord st1 "pi_obras" data).2 in
  data !! "caracterizacion_id" = Some (VNum 0)
  ∧ (rows <$> tables st2 !! "pi_obras")
    = Some [ {["id" := VNum 1; "caracterizacion_id" := VNum 0;
               "nombre" := VStr "a"]};
             {["id" := VNum 2; "caracterizacion_id" := VNum 0;
               "nombre" := VStr "a"]} ].
Proof. split; vm_compute; reflexivity. Qed.

(** ** Related data of a fetched record *)

Lemma same_view_findAll (st0 st : state) (name : string) (attrs : list string) :
  same_view st0 st → Models.findAll st name attrs = Models.findAll st0 name attrs.
Proof. intros [Ht _]. unfold Models.findAll. by rewrite Ht. Qed.

Lemma same_view_define (st0 st : state) (name : string) :
  same_view st0 st → models st !! name = None →
  same_view st0
    (set_models st
       (<[name := Models.define_keyed (columns_of st name)]> (models st))).
Proof.
  intros [Ht Hm] Hnone. split; [done|]. intros n. rewrite <- Hm.
  unfold model_at, columns_of. simpl.
  destruct (decide (n = name)) as [->|Hne].
  - by rewrite lookup_insert_eq, Hnone.
  - by rewrite lookup_insert_ne.
Qed.

Lemma model_of_view (st0 st : state) (name : string) :
  same_view st0 st →
  (Models.model_of st name).1 = model_at st0 name
  ∧ same_view st0 (Models.model_of st name).2.
Proof.
  intros Hv. destruct Hv as [Ht Hm] eqn:E. clear E.
  unfold Models.model_of. rewrite <- Hm. unfold model_at.
  destruct (models st !! name) eqn:Hn; simpl; [done|].
  split; [done|]. by apply same_view_define.
Qed.

(** The loop over the key relations computes the fold of
    [related_entry], and every statement it ran succeeded. *)
Lemma related_pure (st0 : state) (table_name : string)
    (fields : list (string * string)) :
  ∀ st rd st' rd',
    same_view st0 st →
    RecordById.related table_name st fields rd = (st', Some rd') →
    rd' = fold_left (related_entry st0 table_name) fields rd
    ∧ same_view st0 st'
    ∧ ∀ fk rel, (fk, rel) ∈ fields →
        RecordById.skipped table_name rel = false → rel ≠ "" →
        is_Some (Models.findAll st0 rel (model_at st0 rel)).
Proof.
  induction fields as [|[fk rel] fields IH]; intros st rd st' rd' Hv Hrel.
  - simpl in Hrel. injection Hrel as <- <-. split; [done|]. split; [done|].
    intros fk rel Hin. by apply elem_of_nil in Hin.
  - simpl in Hrel |- *.
    destruct (RecordById.skipped table_name rel || String.eqb rel "") eqn:Hskip.
    + destruct (IH _ _ _ _ Hv Hrel) as (-> & Hv' & Hall).
      split; [done|]. split; [done|]. intros fk' rel' Hin Hs Hne.
      apply elem_of_cons in Hin as [[= -> ->]|Hin];
        [|exact (Hall _ _ Hin Hs Hne)].
      rewrite Hs in Hskip. simpl in Hskip.
      by apply String.eqb_eq in Hskip.
    + destruct (model_of_view st0 st rel Hv) as [Hattrs Hv1].
      destruct (Models.model_of st rel) as [attrs st1]. simpl in Hattrs, Hv1.
      subst attrs. rewrite (same_view_findAll st0 st1 _ _ Hv1) in Hrel.
      destruct (Models.findAll st0 rel (model_at st0 rel)) as [rs|] eqn:Hfind;
        [|done].
      destruct (IH _ _ _ _ Hv1 Hrel) as (-> & Hv' & Hall).
      split; [done|]. split; [done|]. intros fk' rel' Hin Hs Hne.
      apply elem_of_cons in Hin as [[= -> ->]|Hin];
        [|exact (Hall _ _ Hin Hs Hne)].
      rewrite Hfind. eauto.
Qed.



(** A 200 answer of [getTableRecordById] carries the fold of
    [related_entry] over the key relations of the table. *)
Lemma getTableRecordById_related (st : state) (table_name record_id : string)
    (code : Z) (res : RecordById.result) (st' : state) :
  getTableRecordById st table_name record_id = (Reply code res, st') →
  RecordById.relatedData res
  = fold_left (related_entry st table_name)
      (RecordById.key_relations st table_name) ∅
  ∧ ∀ fk rel, (fk, rel) ∈ RecordById.key_relations st table_name →
      RecordById.skipped table_name rel = false → rel ≠ "" →
      is_Some (Models.findAll st rel (model_at st rel)).
Proof.
  unfold getTableRecordById.
  set (defined := match models st !! table_name with
                  | Some attrs => Some (attrs, st)
                  | None => _
                  end).
  assert (Hdef : ∀ attrs st1, defined = Some (attrs, st1) → same_view st st1).
  { intros attrs st1. unfold defined.
    destruct (models st !! table_name) eqn:Hm.
    - intros [= _ <-]. done.
    - case_bool_decide; [done|]. intros [= _ <-].
      by apply (same_view_define st st table_name). }
  destruct defined as [[attrs st1]|]; [|done].
  specialize (Hdef attrs st1 eq_refl).
  destruct (Models.findAll st1 table_name attrs); [|done].
  destruct (find _ _); [|done].
  assert (Hkeys : RecordById.key_relations st1 table_name
                  = RecordById.key_relations st table_name).
  { unfold RecordById.key_relations. by rewrite (proj1 Hdef). }
  rewrite Hkeys.
  destruct (RecordById.related table_name st1 _ ∅) as [st2 [rd|]] eqn:Hrel;
    [|done].
  intros [= _ <- _]. simpl.
  destruct (related_pure st table_name _ _ _ _ _ Hdef Hrel) as (-> & _ & Hall).
  done.
Qed.


(** The three domains exclude one another. *)
Lemma prefix_cons (a b : ascii) (p s : string) :
  String.prefix (String a p) (String b s)
  = if ascii_dec a b then String.prefix p s else false.
Proof. reflexivity. Qed.

Lemma prefix_nil (a : ascii) (p : string) :
  String.prefix (String a p) EmptyString = false.
Proof. reflexivity. Qed.

Ltac first_letter n a c :=
  destruct n as [|a n]; [by rewrite prefix_nil|];
  rewrite prefix_cons; destruct (ascii_dec c a) as [<-|]; [|done].



Lemma pi_domain (n : string) :
  startsWith n "pi_" = true →
  startsWith n "provider_" = false ∧ startsWith n "inscription_" = false.
Proof.
  unfold startsWith.
  first_letter n a "p"%char. first_letter n b "i"%char.
  intros _. split; reflexivity.
Qed.










(** ** File attachments *)

(** C2. For a pi_ table uploadFile stores the file under
    [inscription_caracterizacion/<caracterizacion_id>] but records the
    relative path [/uploads/<table>/<caracterizacion_id>/<filename>]:
    the row points at a path where no file is. For a table of another
    domain the recorded path is [/uploads/<table>/<record_id>/<filename>]
    and the file is there. *)
Theorem C2_uploadFile_recorded_path :
  (∃ f st',
     uploadFile (Sample.with_upload []) "pi_formulacion" "7"
       None (Some "42") None (Some (Upload "/tmp/upload_1" "doc.pdf"))
     = (Reply 200 f, st')
     ∧ files st' = [f]
     ∧ file_record_id f = "42"
     ∧ file_path f = "/uploads/pi_formulacion/42/doc.pdf"
     ∧ file_path f ≠ "/uploads/inscription_caracterizacion/42/doc.pdf"
     ∧ disk st' !! "/var/data/uploads/inscription_caracterizacion/42/doc.pdf"
       = Some "nombre,nota"
     ∧ disk st' !! "/var/data/uploads/pi_formulacion/42/doc.pdf" = None)
  ∧ (∃ f st',
       uploadFile (Sample.with_upload []) "provider_obras" "7"
         None None None (Some (Upload "/tmp/upload_1" "doc.pdf"))
       = (Reply 200 f, st')
       ∧ files st' = [f]
       ∧ file_path f = "/uploads/provider_obras/7/doc.pdf"
       ∧ disk st' !! "/var/data/uploads/provider_obras/7/doc.pdf"
         = Some "nombre,nota").
Proof.
  split.
  - eexists _, _. split; [vm_compute; reflexivity|].
    repeat split; try (vm_compute; reflexivity). vm_compute. discriminate.
  - eexists _, _. split; [vm_compute; reflexivity|].
    repeat split; vm_compute; reflexivity.
Qed.

(** ** CSV import *)

(** C9. uploadCsv deletes the temporary file only in the handler of the
    stream's [end] event. When the table does not exist, and when the
    catalog lists no column for it, the call answers 404 and the
    uploaded file is still on disk; when the rows are inserted the file
    is gone. *)
Theorem C9_uploadCsv_keeps_file_on_early_return
    (csvParser : string → list (gmap string string))
    (validates : list (string * seq_type) → row → bool) :
  (uploadCsv csvParser validates (Sample.with_upload []) "pi_obras"
     (Some (Upload "/tmp/upload_1" "obras.csv"))
   = (Some (Refuse 404 NotFound), Sample.with_upload [])
   ∧ disk (Sample.with_upload []) !! "/tmp/upload_1" = Some "nombre,nota")
  ∧ (uploadCsv csvParser validates
       (Sample.with_upload [("pi_obras", Sample.bare)]) "pi_obras"
       (Some (Upload "/tmp/upload_1" "obras.csv"))
     = (Some (Refuse 404 NotFound),
        Sample.with_upload [("pi_obras", Sample.bare)])
     ∧ disk (Sample.with_upload [("pi_obras", Sample.bare)]) !! "/tmp/upload_1"
       = Some "nombre,nota")
  ∧ (∀ r st',
       uploadCsv csvParser validates
         (Sample.with_upload [("pi_obras", Sample.pi_empty)]) "pi_obras"
         (Some (Upload "/tmp/upload_1" "obras.csv")) = (r, st') →
       disk st' !! "/tmp/upload_1" = None).
Proof.
  split; [|split].
  - split; reflexivity.
  - split; reflexivity.
  - intros r st'. unfold uploadCsv.
    replace (tables (Sample.with_upload [("pi_obras", Sample.pi_empty)])
               !! "pi_obras") with (Some Sample.pi_empty) by reflexivity.
    replace (columns_of (Sample.with_upload [("pi_obras", Sample.pi_empty)])
               "pi_obras") with (columns Sample.pi_empty) by reflexivity.
    replace (bool_decide (columns Sample.pi_empty = [])) with false
      by reflexivity.
    replace (Models.define
               (map fst (csv_tableColumns (columns Sample.pi_empty)))
               (bool_decide
                  (snd <$> obj_get (csv_tableColumns (columns Sample.pi_empty))
                             "id" = Some true)))
      with (Some ["id"; "nombre"]) by (vm_compute; reflexivity).
    cbv zeta.
    replace (disk _ !! upload_path (Upload "/tmp/upload_1" "obras.csv"))
      with (Some "nombre,nota") by reflexivity.
    destruct (bulkCreate _ _ _ _ _) as [st2|]; intros [= _ <-];
      apply lookup_delete_eq.
Qed.

(** ** Creating a table *)

Lemma add_field_invalid (cols : list (string * attribute)) (f : field) :
  invalid_field f → ∃ e, CreateTable.add_field cols f = inl e.
Proof.
  unfold CreateTable.add_field. intros [Hb|[[Hfk Hrt]|[Hnfk Hty]]].
  - rewrite Hb. eauto.
  - destruct (blank_name f); [eauto|]. rewrite bool_decide_eq_true_2 by done.
    destruct (relatedTable f) as [rt|]; [|eauto]. simpl in Hrt. rewrite Hrt.
    eauto.
  - destruct Hty as [Hty _].
    destruct (blank_name f); [eauto|]. rewrite bool_decide_eq_false_2 by done.
    destruct (field_type f) as [ty|]; [|simpl; eauto]. simpl.
    destruct (CreateTable.validTypes !! ty) as [sty|] eqn:Hlook; [|eauto].
    exfalso. apply Hty.
    apply (elem_of_list_to_map_2 (M := gmap string)) in Hlook.
    simpl in Hlook. rewrite !elem_of_cons in Hlook. rewrite elem_of_nil in Hlook.
    simpl. rewrite !elem_of_cons.
    destruct Hlook as [[= -> _]|[[= -> _]|[[= -> _]|[[= -> _]|[[= -> _]|
                      [[= -> _]|[[= -> _]|[]]]]]]]]; auto 10.
    exfalso. by apply Hnfk.
Qed.

Lemma add_fields_invalid (fs : list field) :
  Exists invalid_field fs →
  ∀ cols, ∃ e, CreateTable.add_fields cols fs = inl e.
Proof.
  induction 1 as [f fs Hf|f fs _ IH]; intros cols; simpl.
  - destruct (add_field_invalid cols f Hf) as [e ->]. eauto.
  - destruct (CreateTable.add_field cols f) as [e|cols']; [eauto|]. apply IH.
Qed.

(** X21. createTable refuses, with status 400 and without touching the
    state, a name outside the three domains, an empty field list, and a
    field list with an invalid field: one with a blank name, a foreign
    key without a related table, or a type that is neither one of the
    seven type names nor the name of a member of Object.prototype. *)
Lemma createTable_validation (st : state) (table_name : string)
    (fields : list field) :
  prefixed table_name = false ∨ fields = [] ∨ Exists invalid_field fields →
  ∃ e, createTable st (Some table_name) (Some fields) = (Refuse 400 e, st).
Proof.
  intros Hbad. unfold createTable.
  destruct (String.eqb table_name "" || bool_decide (fields = [])) eqn:Hreq;
    [eauto|].
  apply orb_false_iff in Hreq as [_ Hfs%bool_decide_eq_false].
  destruct (prefixed table_name); simpl; [|eauto].
  destruct Hbad as [?|[?|Hinv]]; [done|done|].
  destruct (add_fields_invalid fields Hinv [("id", CreateTable.id_column)])
    as [e ->]. eauto.
Qed.

(** C5. A field named [id] replaces the key column createTable starts
    from: the call answers 201, and the table it created has a TEXT
    column [id] that is neither a primary key nor drawn from a
    sequence. The registry entry is inserted. *)
Theorem C5_createTable_id_field_replaces_key :
  ∃ st' t,
    createTable (Sample.with_tables []) (Some "pi_obras")
      (Some [Field (Some "id") (Some "TEXT") None None None])
    = (Reply 201 tt, st')
    ∧ tables st' !! "pi_obras" = Some t
    ∧ columns t = [Column "id" "text" true None]
    ∧ keys t = []
    ∧ serial_id t = false
    ∧ metadata st' = [("pi_obras", false)].
Proof.
  eexists _, _. split; [vm_compute; reflexivity|].
  split; [vm_compute; reflexivity|]. repeat split.
Qed.




(** uploadCsv on a table the catalog does not list answers 404 and
    leaves the whole state, the uploaded file included, as it was. *)
Lemma uploadCsv_missing_table
    (csvParser : string → list (gmap string string))
    (validates : list (string * seq_type) → row → bool)
    (st : state) (table_name : string) (f : upload) :
  tables st !! table_name = None →
  uploadCsv csvParser validates st table_name (Some f)
  = (Some (Refuse 404 NotFound), st).
Proof. intros Hnone. unfold uploadCsv. by rewrite Hnone. Qed.

(* ===================================================================== *)
(** * Further properties: listing and the registry *)
(* ===================================================================== *)

Lemma like_percent (s : string) : sql_like "%" s = true.
Proof. induction s as [|c s IH]; [reflexivity|]. exact IH. Qed.

Lemma like_literal (c : ascii) (p s : string) :
  c ≠ "%"%char → c ≠ "_"%char →
  sql_like (String c p) s
  = match s with
    | EmptyString => false
    | String d s' => Ascii.eqb c d && sql_like p s'
    end.
Proof.
  intros H1 H2.
  destruct c as [[] [] [] [] [] [] [] []]; try reflexivity; congruence.
Qed.

Lemma like_pi (n : string) :
  sql_like "pi_%" n = true ↔ ∃ c rest, n = "pi" ++ String c rest.
Proof.
  split.
  - rewrite !like_literal by done.
    destruct n as [|a [|b [|c rest]]]; try done.
    + by rewrite andb_false_r.
    + intros [->%Ascii.eqb_eq H]%andb_true_iff.
      rewrite like_literal in H by done. by rewrite andb_false_r in H.
    + intros [->%Ascii.eqb_eq H]%andb_true_iff.
      rewrite like_literal in H by done.
      apply andb_true_iff in H as [->%Ascii.eqb_eq _]. eauto.
  - intros (c & rest & ->). exact (like_percent rest).
Qed.

(** X1. listTables for the pi type lists every base table whose name
    is [pi] followed by at least one character, and no other: the
    underscore of the pattern [pi_%] stands for any character. *)
Theorem listTables_pi_pattern (st : state) (isPrimary : option string)
    (code : Z) (l : list (string * bool)) :
  isPrimary ≠ Some "true" →
  listTables st (Some "pi") isPrimary = Reply code l →
  ∀ n, n ∈ map fst l
       ↔ is_Some (tables st !! n) ∧ ∃ c rest, n = "pi" ++ String c rest.
Proof.
  intros Hp. unfold listTables.
  rewrite (bool_decide_eq_false_2 (isPrimary = Some "true")) by done.
  rewrite (bool_decide_eq_false_2 (Some "pi" = Some "provider")) by done.
  rewrite (bool_decide_eq_true_2 (Some "pi" = Some "pi")) by done.
  set (full := map _ (base_tables_like st "pi_%")).
  destruct (bool_decide (full = [])); [done|]. intros [= _ <-] n.
  subst full. rewrite map_map. simpl. rewrite map_id.
  unfold base_tables_like. rewrite list_elem_of_filter, like_pi.
  rewrite list_elem_of_In, in_map_iff. split.
  - intros [Hlike ([n' t] & <- & Hin)]. split; [|done].
    apply list_elem_of_In, elem_of_map_to_list in Hin. eauto.
  - intros [[t Ht] Hlike]. split; [done|]. exists (n, t). split; [done|].
    by apply list_elem_of_In, elem_of_map_to_list.
Qed.

Lemma find_set_first (n : string) (b : bool) (m : list (string * bool))
    (x : string) :
  find (λ e : string * bool, String.eqb e.1 x) (set_first n b m)
  = if String.eqb x n
    then (λ _, (n, b)) <$> find (λ e : string * bool, String.eqb e.1 n) m
    else find (λ e : string * bool, String.eqb e.1 x) m.
Proof.
  induction m as [|[k f] m IH]; simpl.
  - by destruct (String.eqb x n).
  - destruct (String.eqb k n) eqn:Hk; simpl.
    + apply String.eqb_eq in Hk as ->.
      destruct (String.eqb x n) eqn:Hx.
      * apply String.eqb_eq in Hx as ->. by rewrite String.eqb_refl.
      * rewrite String.eqb_sym, Hx. done.
    + destruct (String.eqb k x) eqn:Hkx.
      * apply String.eqb_eq in Hkx as ->. by rewrite Hk.
      * exact IH.
Qed.

(** X2. After updatePrincipalStatus answers 200, listTables shows the
    same tables with the same flags, except that the table named in the
    request carries the flag of the request; under [isPrimary=true]
    the table is listed only when that flag is true. *)
Theorem updatePrincipalStatus_listed (st st' : state) (n : string) (b : bool)
    (tableType : option string) :
  updatePrincipalStatus st n (VBool b) = (Reply 200 tt, st') →
  listTables st' tableType None
  = match listTables st tableType None with
    | Reply code l =>
        Reply code
          (map (λ e : string * bool, if String.eqb e.1 n then (e.1, b) else e) l)
    | Refuse code e => Refuse code e
    end
  ∧ ∀ code l, listTables st' tableType (Some "true") = Reply code l →
              n ∈ map fst l → b = true.
Proof.
  unfold updatePrincipalStatus. destruct (String.eqb n ""); [done|].
  destruct (find _ (metadata st)) as [e|] eqn:Hfind; [|done].
  intros [= <-].
  assert (Hflag : ∀ x,
    match find (λ m : string * bool, String.eqb m.1 x)
            (set_first n b (metadata st)) with
    | Some m => m.2 | None => false end
    = if String.eqb x n then b
      else match find (λ m : string * bool, String.eqb m.1 x) (metadata st) with
           | Some m => m.2 | None => false end).
  { intros x. rewrite find_set_first.
    destruct (String.eqb x n); [|done]. by rewrite Hfind. }
  unfold listTables. simpl metadata. simpl tables.
  set (pat := if bool_decide (tableType = Some "provider") then _ else _).
  unfold base_tables_like. simpl tables.
  set (names := filter _ (map fst (map_to_list (tables st)))).
  split.
  - rewrite (bool_decide_eq_false_2 (None = Some "true")) by done.
    assert (Hmap :
      map (λ x, (x, match find (λ m : string * bool, String.eqb m.1 x)
                            (set_first n b (metadata st)) with
                    | Some m => m.2 | None => false end)) names
      = map (λ e : string * bool, if String.eqb e.1 n then (e.1, b) else e)
          (map (λ x, (x, match find (λ m : string * bool, String.eqb m.1 x)
                                 (metadata st) with
                         | Some m => m.2 | None => false end)) names)).
    { rewrite map_map. apply map_ext. intros x. simpl. rewrite Hflag.
      by destruct (String.eqb x n). }
    rewrite Hmap.
    destruct names as [|x names]; [done|]. done.
  - intros code l.
    rewrite (bool_decide_eq_true_2 (Some "true" = Some "true")) by done.
    destruct (bool_decide (_ = [])); [done|]. intros [= _ <-] Hin.
    apply list_elem_of_In, in_map_iff in Hin as ([x f] & Hx & Hin).
    simpl in Hx. subst x.
    apply list_elem_of_In, list_elem_of_filter in Hin as [Hf Hin].
    simpl in Hf. subst f.
    apply list_elem_of_In, in_map_iff in Hin as (x & [= <- Hb] & _).
    rewrite Hflag, String.eqb_refl in Hb. done.
Qed.

Lemma listTables_pi_pattern_witness :
  "pizza" ∈ map fst [("pi_obras", false); ("pizza", false)]
  ↔ is_Some (tables Cases.pizzeria !! "pizza")
    ∧ ∃ c rest, "pizza" = "pi" ++ String c rest.
Proof.
  apply (listTables_pi_pattern Cases.pizzeria None 200
           [("pi_obras", false); ("pizza", false)]); [done|].
  vm_compute. reflexivity.
Defined.

Lemma updatePrincipalStatus_listed_witness :
  listTables (set_metadata Cases.registered [("inscription_a", true)]) None None
  = match listTables Cases.registered None None with
    | Reply code l =>
        Reply code
          (map (λ e : string * bool,
                  if String.eqb e.1 "inscription_a" then (e.1, true) else e) l)
    | Refuse code e => Refuse code e
    end
  ∧ ∀ code l,
      listTables (set_metadata Cases.registered [("inscription_a", true)])
        None (Some "true") = Reply code l →
      "inscription_a" ∈ map fst l → true = true.
Proof.
  apply (updatePrincipalStatus_listed Cases.registered _ "inscription_a" true
           None).
  vm_compute. reflexivity.
Defined.






(* ===================================================================== *)
(** * Further properties: editTable *)
(* ===================================================================== *)

Lemma keeps_values_refl (l : list row) : Forall2 keeps_values l l.
Proof. induction l; constructor; [by intros c|done]. Qed.

Lemma keeps_values_trans (l1 l2 l3 : list row) :
  Forall2 keeps_values l1 l2 → Forall2 keeps_values l2 l3 →
  Forall2 keeps_values l1 l3.
Proof.
  intros H12. revert l3. induction H12 as [|r1 r2 l1 l2 Hr _ IH];
    intros l3 H23; inversion H23 as [|? r3 ? l3' Hr' Hl']; subst; constructor.
  - intros c Hc. rewrite (Hr' c), (Hr c); [done|done|]. by rewrite (Hr c).
  - by apply IH.
Qed.

Lemma edit_inv_refl (table_name : string) (st : state) :
  same_outside table_name st st ∧ data_kept table_name st st.
Proof.
  split; [by repeat split|]. intros t Ht. exists t.
  split; [done|]. split; [apply keeps_values_refl|done].
Qed.

Lemma edit_inv_trans (table_name : string) (st1 st2 st3 : state) :
  same_outside table_name st1 st2 ∧ data_kept table_name st1 st2 →
  same_outside table_name st2 st3 ∧ data_kept table_name st2 st3 →
  same_outside table_name st1 st3 ∧ data_kept table_name st1 st3.
Proof.
  intros [(Hm & Hf & Hn & Hmo & Hd & Ht) Hk] [(Hm' & Hf' & Hn' & Hmo' & Hd' & Ht') Hk'].
  split.
  - split; [congruence|]. split; [congruence|]. split; [congruence|].
    split; [congruence|]. split; [congruence|].
    intros n Hne. by rewrite Ht', Ht.
  - intros t H1. destruct (Hk t H1) as (t2 & H2 & Hr2 & Hi2).
    destruct (Hk' t2 H2) as (t3 & H3 & Hr3 & Hi3).
    exists t3. split; [done|]. split; [|congruence].
    by apply keeps_values_trans with (rows t2).
Qed.

Lemma addColumn_inv (st st' : state) (table_name n : string) (a : attribute) :
  addColumn st table_name n a = Some st' →
  same_outside table_name st st' ∧ data_kept table_name st st'.
Proof.
  unfold addColumn. destruct (tables st !! table_name) as [t|] eqn:Ht; [|done].
  simpl. destruct (has_column t n); [done|].
  destruct (references_resolve _ _ _ _); [|done]. intros [= <-]. split.
  - repeat split. intros m Hm. simpl. by rewrite lookup_insert_ne.
  - intros t0 Ht0. simpl. rewrite lookup_insert_eq. eexists. split; [done|].
    simpl. split; [|congruence]. replace t0 with t by congruence.
    apply keeps_values_refl.
Qed.

Lemma try_ddl_inr (o : option state) (st' : state) :
  EditTable.try_ddl o = inr st' → o = Some st'.
Proof. destruct o; simpl; congruence. Qed.

Lemma add_one_inr (st st' : state) (table_name : string) (f : field) :
  EditTable.add_one st table_name f = inr st' →
  ∃ a, addColumn st table_name (default "" (field_name f)) a = Some st'.
Proof.
  unfold EditTable.add_one. destruct (blank_name f); [done|].
  destruct (field_type f) as [ty|]; [|done].
  destruct (String.eqb (toUpperCase ty) "FOREIGN_KEY").
  - destruct (falsy_str (relatedTable f) || falsy_str (relatedColumn f));
      [done|].
    intros H%try_ddl_inr. eauto.
  - destruct (EditTable.validTypes !! toUpperCase ty); [|done].
    intros H%try_ddl_inr. eauto.
Qed.

Lemma removeColumn_inv (st st' : state) (table_name c : string) :
  removeColumn st table_name c = Some st' → ¬ has_data st table_name c →
  same_outside table_name st st' ∧ data_kept table_name st st'.
Proof.
  unfold removeColumn. destruct (tables st !! table_name) as [t|] eqn:Ht; [|done].
  simpl. destruct (has_column t c); [|done]. intros [= <-] Hnd. split.
  - repeat split. intros m Hm. simpl. by rewrite lookup_insert_ne.
  - intros t0 Ht0. simpl. rewrite lookup_insert_eq. eexists. split; [done|].
    simpl. replace t0 with t by congruence. split; [|done].
    assert (Hrows : ∀ r, r ∈ rows t → present (cell r c) = false).
    { intros r Hr. destruct (present (cell r c)) eqn:Hp; [|done].
      exfalso. apply Hnd. exists t, r. done. }
    clear Ht Ht0 Hnd. induction (rows t) as [|r l IH]; [constructor|].
    rewrite fmap_cons. constructor.
    + intros c' Hc'. unfold cell. destruct (decide (c' = c)) as [->|Hne].
      * rewrite Hrows in Hc'; [done|left].
      * by rewrite lookup_delete_ne.
    + apply IH. intros r' Hr'. apply Hrows. by right.
Qed.

Lemma loop_inv {A} (R : state → state → Prop) (body : state → A → EditTable.step) :
  (∀ st, R st st) → (∀ s1 s2 s3, R s1 s2 → R s2 s3 → R s1 s3) →
  (∀ st x st', body st x = inr st' → R st st') →
  ∀ l st,
    R st match EditTable.loop body st l with
         | inl (_, _, stF) => stF
         | inr stF => stF
         end.
Proof.
  intros Hrefl Htrans Hbody l. induction l as [|x l IH]; intros st; simpl; [done|].
  destruct (body st x) as [[code e]|st'] eqn:E; [done|].
  apply Htrans with st'; [by apply Hbody with x|apply IH].
Qed.

(** X4. When the table name and the names the request carries (of the
    fields to add, of the tables and columns they refer to, of the
    columns to delete) are plain names, so that the statements built
    from them name what they say: whatever editTable answers, the
    state it leaves differs from the one it found in the edited table
    only; that table is still there with as many rows and the same
    sequence, and every row holds every value it held: the call adds
    and drops columns, and drops only columns with no value. *)
Theorem editTable_keeps_data (st st' : state) (table_name : string)
    (fieldsToAdd : option (list field))
    (fieldsToDelete : option (list deletion))
    (fieldsToEdit : option (list field)) (resp : response unit) :
  plain_name table_name →
  forallb plain_field (default [] fieldsToAdd) = true →
  forallb (λ d, plain_ident (columnName d)) (default [] fieldsToDelete)
  = true →
  editTable st table_name fieldsToAdd fieldsToDelete fieldsToEdit = (resp, st') →
  same_outside table_name st st' ∧ data_kept table_name st st'.
Proof.
  intros _ _ _. unfold editTable. destruct (negb _).
  { intros [= _ <-]. apply edit_inv_refl. }
  set (R := λ s s', same_outside table_name s s' ∧ data_kept table_name s s').
  assert (Hadd := loop_inv R (λ s, EditTable.add_one s table_name)
                    (edit_inv_refl table_name) (edit_inv_trans table_name)).
  assert (Hdel := loop_inv R (λ s, EditTable.delete_one s table_name)
                    (edit_inv_refl table_name) (edit_inv_trans table_name)).
  specialize (Hadd
    (λ s x s' H, let (a, Ha) := add_one_inr s s' table_name x H in
                 addColumn_inv s s' table_name _ a Ha)
    (default [] fieldsToAdd) st).
  destruct (EditTable.loop _ st (default [] fieldsToAdd)) as [[[code e] st1]|st1].
  { by intros [= _ <-]. }
  specialize (Hdel
    (λ s x s' H,
       let (Hrm, Hno) := delete_one_inr s s' table_name x H in
       removeColumn_inv s s' table_name _ Hrm (proj1 Hno))
    (default [] fieldsToDelete) st1).
  destruct (EditTable.loop _ st1 (default [] fieldsToDelete))
    as [[[code e] st2]|st2]; intros [= _ <-];
    by apply (edit_inv_trans table_name st st1).
Qed.

Lemma editTable_keeps_data_witness :
  let st := Sample.with_tables [("pi_obras", Sample.pi_notas)] in
  let call :=
    editTable st "pi_obras"
      (Some [Field (Some "fecha") (Some "date") None None None])
      (Some [Deletion (Some "nota")]) None in
  same_outside "pi_obras" st (snd call) ∧ data_kept "pi_obras" st (snd call).
Proof.
  intros st call.
  apply (editTable_keeps_data st (snd call) "pi_obras"
           (Some [Field (Some "fecha") (Some "date") None None None])
           (Some [Deletion (Some "nota")]) None (Reply 200 tt));
    vm_compute; reflexivity.
Defined.

(** X5. editTable checks each addition when the loop reaches it: when
    the second entry of fieldsToAdd has no name, the call answers 400
    after the first entry has been added, and the table keeps the new
    column. *)
Theorem editTable_refusal_after_addition (st st1 : state) (table_name : string)
    (f1 f2 : field) (rest : list field)
    (fieldsToDelete : option (list deletion)) :
  EditTable.add_one st table_name f1 = inr st1 →
  blank_name f2 = true →
  editTable st table_name (Some (f1 :: f2 :: rest)) fieldsToDelete None
  = (Refuse 400 MissingField, st1)
  ∧ (default "" (field_name f1) ∉ columns_at st table_name)
  ∧ default "" (field_name f1) ∈ columns_at st1 table_name.
Proof.
  intros Hadd Hblank. split.
  - unfold editTable. simpl. rewrite Hadd.
    unfold EditTable.add_one. by rewrite Hblank.
  - apply add_one_inr in Hadd as [a Ha]. revert Ha.
    unfold addColumn, columns_at, has_column.
    destruct (tables st !! table_name) as [t|]; [|done]. simpl.
    case_bool_decide as Hin; [done|].
    destruct (references_resolve _ _ _ _); [|done]. intros [= <-].
    split; [done|]. simpl. rewrite lookup_insert_eq.
    unfold column_names. simpl. rewrite map_app. apply elem_of_app. right.
    simpl. left.
Qed.

Lemma editTable_refusal_after_addition_witness :
  let st := Sample.with_tables [("pi_obras", Sample.pi_empty)] in
  let f1 := Field (Some "fecha") (Some "date") None None None in
  let f2 := Field None (Some "text") None None None in
  let st1 :=
    Sample.with_tables
      [("pi_obras",
        Table [Sample.id_col; Sample.text_col "nombre";
               Column "fecha" "timestamp with time zone" true None]
          [Sample.pkey "pi_obras"] [] 1)] in
  editTable st "pi_obras" (Some [f1; f2]) None None
  = (Refuse 400 MissingField, st1)
  ∧ (default "" (field_name f1) ∉ columns_at st "pi_obras")
  ∧ default "" (field_name f1) ∈ columns_at st1 "pi_obras".
Proof.
  intros st f1 f2 st1.
  apply (editTable_refusal_after_addition st st1 "pi_obras" f1 f2 [] None).
  - vm_compute. reflexivity.
  - reflexivity.
Defined.

(* ===================================================================== *)
(** * Further properties: reading records *)
(* ===================================================================== *)

Lemma models_added_refl (st : state) : models_added st st.
Proof. by repeat split. Qed.

Lemma models_added_trans (s1 s2 s3 : state) :
  models_added s1 s2 → models_added s2 s3 → models_added s1 s3.
Proof.
  intros (Ht & Hm & Hf & Hn & Hd & Hmo) (Ht' & Hm' & Hf' & Hn' & Hd' & Hmo').
  split; [congruence|]. split; [congruence|]. split; [congruence|].
  split; [congruence|]. split; [congruence|]. auto.
Qed.

Lemma models_added_insert (st : state) (n : string) (attrs : list string) :
  models st !! n = None →
  models_added st (set_models st (<[n := attrs]> (models st))).
Proof.
  intros Hn. repeat split. intros m a Hm. simpl.
  rewrite lookup_insert_ne; [done|]. congruence.
Qed.

Lemma model_of_added (st : state) (n : string) :
  models_added st (snd (Models.model_of st n)).
Proof.
  unfold Models.model_of. destruct (models st !! n) eqn:Hn; simpl.
  - apply models_added_refl.
  - by apply models_added_insert.
Qed.

Lemma related_added (table_name : string) (fields : list (string * string)) :
  ∀ st rd, models_added st (fst (RecordById.related table_name st fields rd)).
Proof.
  induction fields as [|[fk rel] fields IH]; intros st rd; simpl.
  - apply models_added_refl.
  - destruct (_ || _); [apply IH|].
    pose proof (model_of_added st rel) as Hm.
    destruct (Models.model_of st rel) as [attrs st1]. simpl in Hm.
    destruct (Models.findAll st1 rel attrs); [|done].
    eapply models_added_trans; [exact Hm|apply IH].
Qed.

(** X6. For a plain table name and a catalog of plain names, which the
    statements the handler builds by splicing read as they are:
    getTableRecordById leaves tables, registry entries, files and disk
    as they were, whatever it answers; all it may change is the set of
    registered models, to which it adds and in which it replaces
    nothing. *)
Theorem getTableRecordById_adds_models (st st' : state)
    (table_name record_id : string) (resp : response RecordById.result) :
  plain_name table_name → plain_catalog st = true →
  getTableRecordById st table_name record_id = (resp, st') →
  models_added st st'.
Proof.
  intros _ _. unfold getTableRecordById.
  destruct (models st !! table_name) as [attrs|] eqn:Hm.
  - destruct (Models.findAll st table_name attrs); [|by intros [= _ <-]; apply models_added_refl].
    destruct (find _ _); [|by intros [= _ <-]; apply models_added_refl].
    pose proof (related_added table_name
                  (RecordById.key_relations st table_name) st ∅) as Hr.
    destruct (RecordById.related _ _ _ _) as [st2 [rd|]]; by intros [= _ <-].
  - destruct (bool_decide (columns_of st table_name = [])).
    { intros [= _ <-]. apply models_added_refl. }
    set (st1 := set_models st _).
    assert (H1 : models_added st st1) by (by apply models_added_insert).
    destruct (Models.findAll st1 table_name _); [|by intros [= _ <-]].
    destruct (find _ _); [|by intros [= _ <-]].
    pose proof (related_added table_name
                  (RecordById.key_relations st1 table_name) st1 ∅) as Hr.
    destruct (RecordById.related _ _ _ _) as [st2 [rd|]]; intros [= _ <-];
      by apply models_added_trans with st1.
Qed.

Lemma getTableRecordById_adds_models_witness :
  models_added Sample.catalogue
    (snd (getTableRecordById Sample.catalogue "provider_items" "1")).
Proof.
  apply (getTableRecordById_adds_models Sample.catalogue _ "provider_items" "1"
           (fst (getTableRecordById Sample.catalogue "provider_items" "1")));
    vm_compute; reflexivity.
Defined.

(** X7. Once a model is registered for a table, dropping one of the
    columns it maps through editTable makes every later
    getTableRecordById on that table answer 500: the handler reuses the
    registered model, which still selects the dropped column. *)
Theorem editTable_drop_breaks_registered_model (st st' : state)
    (table_name c : string) (attrs : list string) :
  models st !! table_name = Some attrs → c ∈ attrs →
  editTable st table_name None (Some [Deletion (Some c)]) None
  = (Reply 200 tt, st') →
  ∀ record_id,
    getTableRecordById st' table_name record_id
    = (Refuse 500 InternalError, st').
Proof.
  intros Hm Hc. unfold editTable. simpl.
  destruct (EditTable.delete_one st table_name (Deletion (Some c)))
    as [[code e]|st2] eqn:Hdel; [done|].
  intros [= <-] record_id.
  apply delete_one_inr in Hdel as [Hrm _]. simpl in Hrm.
  unfold columnName in Hrm. simpl in Hrm.
  unfold removeColumn in Hrm.
  destruct (tables st !! table_name) as [t|]; [|done]. simpl in Hrm.
  destruct (has_column t c); [|done]. injection Hrm as <-.
  unfold getTableRecordById. simpl models. rewrite Hm.
  unfold Models.findAll. simpl tables. rewrite lookup_insert_eq. simpl.
  replace (forallb _ attrs) with false; [done|].
  symmetry. apply not_true_iff_false. intros Hall.
  rewrite forallb_forall in Hall. apply list_elem_of_In, Hall in Hc.
  unfold has_column in Hc. apply bool_decide_eq_true in Hc.
  unfold column_names in Hc. simpl in Hc.
  apply list_elem_of_In, in_map_iff in Hc as (col & Hname & Hin).
  apply list_elem_of_In, list_elem_of_filter in Hin as [Hne _]. done.
Qed.

Lemma editTable_drop_breaks_registered_model_witness :
  getTableRecordById Cases.modelled_dropped "pi_obras" "1"
  = (Refuse 500 InternalError, Cases.modelled_dropped).
Proof.
  apply (editTable_drop_breaks_registered_model Cases.modelled _ "pi_obras"
           "nota" ["id"; "nombre"; "nota"]).
  - reflexivity.
  - right. right. left.
  - vm_compute. reflexivity.
Defined.

Lemma add_filter_plain (table_name : string) (fields : list column)
    (w : list ListRecords.predicate) (kv : string * string) :
  startsWith table_name "pi_" = false →
  ListRecords.add_filter table_name fields w kv
  = (w ++ match find (λ f, String.eqb (toLowerCase (column_name f))
                                      (toLowerCase kv.1)) fields with
          | Some f => [ListRecords.ColumnEq (column_name f) kv.2]
          | None => []
          end)%list.
Proof.
  intros Hpi. destruct kv as [k v]. unfold ListRecords.add_filter.
  rewrite Hpi. simpl. destruct (find _ fields); [done|]. by rewrite app_nil_r.
Qed.

Lemma fold_add_filter_plain (table_name : string) (fields : list column)
    (filters : list (string * string)) :
  startsWith table_name "pi_" = false →
  ∀ w,
    fold_left (ListRecords.add_filter table_name fields) filters w
    = (w ++ flat_map
              (λ kv : string * string,
                 match find (λ f, String.eqb (toLowerCase (column_name f))
                                             (toLowerCase kv.1)) fields with
                 | Some f => [ListRecords.ColumnEq (column_name f) kv.2]
                 | None => []
                 end) filters)%list.
Proof.
  intros Hpi. induction filters as [|kv filters IH]; intros w; simpl.
  - by rewrite app_nil_r.
  - rewrite IH, add_filter_plain by done. by rewrite <- app_assoc.
Qed.

(** X8. For a table outside the pi_ domain, in a catalog of plain
    names, and for filters that can be compared (ASCII keys; the value
    of a filter that names a column denotes a value of the column's
    type, and the cells of that column are of that type), a 200 answer
    of getTableRecords holds exactly the rows of the table that match
    every filter whose key names a column of the table up to letter
    case; a filter whose key names no column constrains nothing. *)
Theorem getTableRecords_filters (st : state) (table_name : string)
    (filters : list (string * string)) (t : table) (records : list row) :
  startsWith table_name "pi_" = false →
  tables st !! table_name = Some t →
  plain_catalog st = true →
  comparable_filters t (columns_ci st table_name) filters = true →
  getTableRecords st table_name filters = Reply 200 records →
  ∀ r, r ∈ records
       ↔ r ∈ rows t
         ∧ ∀ k v f, (k, v) ∈ filters →
             find (λ f, String.eqb (toLowerCase (column_name f)) (toLowerCase k))
                  (columns_ci st table_name) = Some f →
             cell_matches (cell r (column_name f)) v = true.
Proof.
  intros Hpi Ht _ _. unfold getTableRecords. destruct (negb _); [done|].
  unfold ListRecords.build, ListRecords.run. rewrite Hpi. simpl.
  rewrite Ht. simpl. destruct (forallb _ _); [|done]. intros [= <-] r.
  rewrite list_elem_of_filter, fold_add_filter_plain by done. simpl.
  rewrite forallb_forall. split.
  - intros [Hall Hr]. split; [done|]. intros k v f Hkv Hf.
    apply (Hall (ListRecords.ColumnEq (column_name f) v)).
    apply in_flat_map. exists (k, v). split; [by apply list_elem_of_In|].
    simpl. rewrite Hf. by left.
  - intros [Hr Hall]. split; [|done]. intros p Hp.
    apply in_flat_map in Hp as ([k v] & Hkv & Hp). simpl in Hp.
    destruct (find _ _) as [f|] eqn:Hf; [|done].
    destruct Hp as [<-|[]]. simpl. apply (Hall k v f); [|done].
    by apply list_elem_of_In.
Qed.

Lemma getTableRecords_filters_witness :
  let r : row := {["id" := VNum 1; "precio" := VNum 10; "nombre" := VStr "x"]} in
  r ∈ [r]
  ↔ r ∈ rows Sample.provider_cat
    ∧ ∀ k v f, (k, v) ∈ [("NOMBRE", "x"); ("color", "rojo")] →
        find (λ f, String.eqb (toLowerCase (column_name f)) (toLowerCase k))
             (columns_ci Sample.catalogue "provider_cat") = Some f →
        cell_matches (cell r (column_name f)) v = true.
Proof.
  intros r.
  apply (getTableRecords_filters Sample.catalogue "provider_cat"
           [("NOMBRE", "x"); ("color", "rojo")] Sample.provider_cat [r]).
  - reflexivity.
  - reflexivity.
  - vm_compute. reflexivity.
  - vm_compute. reflexivity.
  - vm_compute. reflexivity.
Defined.

(* ===================================================================== *)
(** * Further properties: updating records *)
(* ===================================================================== *)

(** X9. The two update handlers split the three domains between them:
    a pi_ name is served by updatePiRecord and refused by
    updateTableRecord, a provider_ or inscription_ name the other way
    round, with the same body; any other name is refused by both. *)
Theorem update_handlers_split_domains (st : state)
    (table_name record_id : string) (data : gmap string value) :
  let refused := (Refuse 400 InvalidName, st) in
  let served := apply_update st table_name record_id data in
  if startsWith table_name "pi_" then
    updatePiRecord st table_name record_id data = served
    ∧ updateTableRecord st table_name record_id data = refused
  else if prefixed table_name then
    updateTableRecord st table_name record_id data = served
    ∧ updatePiRecord st table_name record_id data = refused
  else
    updateTableRecord st table_name record_id data = refused
    ∧ updatePiRecord st table_name record_id data = refused.
Proof.
  intros refused served. unfold updatePiRecord, updateTableRecord, prefixed.
  destruct (startsWith table_name "pi_") eqn:Hpi.
  - by destruct (pi_domain _ Hpi) as [-> ->].
  - rewrite orb_false_r.
    destruct (startsWith table_name "inscription_"),
             (startsWith table_name "provider_"); done.
Qed.

Lemma hit_after_update (fields : list string) (data : gmap string value)
    (record_id : string) (r : row) :
  data !! "id" = None →
  cell_matches (cell (filteredData fields data ∪ r) "id") record_id
  = cell_matches (cell r "id") record_id.
Proof.
  intros Hid. unfold cell. by rewrite updated_row_lookup, Hid.
Qed.

Lemma apply_update_idempotent (st st' : state) (table_name record_id : string)
    (data : gmap string value) (updated : row) :
  unambiguous st table_name → data !! "id" = None →
  apply_update st table_name record_id data = (Reply 200 updated, st') →
  apply_update st' table_name record_id data = (Reply 200 updated, st').
Proof.
  intros Hun Hno H.
  assert (∃ t, tables st !! table_name = Some t ∧ has_column t "id" = true)
    as (t & Ht & Hid).
  { unfold apply_update, record_exists in H.
    destruct (tables st !! table_name) as [t|]; [|done]. simpl in H.
    destruct (has_column t "id") eqn:E; [eauto|done]. }
  set (hit := λ r : row, cell_matches (cell r "id") record_id).
  set (filtered := filteredData (column_names t) data).
  set (g := λ r : row, if hit r then filtered ∪ r else r).
  destruct (apply_update_spec st table_name record_id data t Ht Hid Hun)
    as [Hmiss Hfound].
  fold hit in Hmiss, Hfound. fold filtered in Hfound.
  destruct (head (filter (λ r, hit r = true) (rows t))) as [r0|] eqn:Hhead.
  2:{ rewrite Hmiss in H; [done|]. intros r Hr.
      destruct (hit r) eqn:Hr'; [|done].
      assert (Hin : r ∈ filter (λ r, hit r = true) (rows t))
        by (by apply list_elem_of_filter).
      destruct (filter _ (rows t)); [by apply elem_of_nil in Hin|done]. }
  destruct (Hfound r0 Hhead) as [Hempty Hupd].
  destruct (decide (filtered = ∅)) as [He|Hne].
  { rewrite (Hempty He) in H. done. }
  rewrite (Hupd Hne) in H.
  set (t1 := Table (columns t) (keys t) (map g (rows t)) (next_id t)).
  set (st1 := set_tables st (<[table_name := t1]> (tables st))).
  assert (Hr0 : hit r0 = true).
  { assert (Hin : r0 ∈ filter (λ r, hit r = true) (rows t)).
    { destruct (filter _ (rows t)); [done|]. injection Hhead as ->. left. }
    by apply list_elem_of_filter in Hin as [? _]. }
  assert (Hu : updated = g r0).
  { injection H as <- _. unfold g. by rewrite Hr0. }
  assert (Hs : st' = st1) by (by injection H as _ <-).
  clear H. subst updated st'.
  assert (Ht1 : tables st1 !! table_name = Some t1)
    by (simpl; apply lookup_insert_eq).
  destruct (apply_update_spec st1 table_name record_id data t1 Ht1 Hid
              (unambiguous_insert st table_name t1 Hun)) as [_ Hfound1].
  assert (Hhit : ∀ r, hit (g r) = hit r).
  { intros r. unfold g. destruct (hit r) eqn:Hr; [|done].
    unfold hit, filtered. rewrite hit_after_update; done. }
  assert (Hgg : ∀ r, g (g r) = g r).
  { intros r. unfold g at 1. rewrite Hhit. unfold g.
    destruct (hit r); [|done].
    by rewrite (assoc_L (∪)), (idemp_L (∪)). }
  assert (Hhead1 : head (filter (λ r, hit r = true) (rows t1)) = Some (g r0)).
  { simpl. clear -Hhead Hhit. induction (rows t) as [|r l IH]; [done|].
    simpl. rewrite filter_cons in Hhead. rewrite filter_cons, Hhit.
    destruct (decide (hit r = true)) as [Hr|Hr].
    - simpl in Hhead. injection Hhead as ->. done.
    - by apply IH. }
  destruct (Hfound1 (g r0) Hhead1) as [_ Hupd1].
  rewrite (Hupd1 Hne).
  f_equal.
  - f_equal. unfold g. rewrite Hr0.
    change (filteredData (column_names t1) data) with filtered.
    by rewrite (assoc_L (∪)), (idemp_L (∪)).
  - unfold st1, set_tables. simpl. f_equal. rewrite insert_insert_eq.
    f_equal. unfold t1. f_equal. simpl.
    change (map g (map g (rows t)) = map g (rows t)).
    rewrite map_map. apply map_ext. intros r. apply Hgg.
Qed.

(** X10. Sending an update again changes nothing: when
    updateTableRecord or updatePiRecord answers 200 for a body that
    does not name the id, on a table whose name the catalog resolves
    without ambiguity, the same request on the state it left answers
    200 with the same row and leaves that state as it is. *)
Theorem update_twice_same
    (handler : state → string → string → gmap string value
               → response row * state)
    (st st' : state) (table_name record_id : string)
    (data : gmap string value) (updated : row) :
  handler = updateTableRecord ∨ handler = updatePiRecord →
  unambiguous st table_name → data !! "id" = None →
  handler st table_name record_id data = (Reply 200 updated, st') →
  handler st' table_name record_id data = (Reply 200 updated, st').
Proof.
  intros [-> | ->] Hun Hno; unfold updateTableRecord, updatePiRecord.
  - destruct (negb _ && negb _); [done|]. by apply apply_update_idempotent.
  - destruct (negb _); [done|]. by apply apply_update_idempotent.
Qed.

Lemma update_twice_same_witness :
  let data : gmap string value := {["nombre" := VStr "b"]} in
  let updated : row := {["id" := VNum 1; "nombre" := VStr "b"]} in
  let st' :=
    Sample.with_tables
      [("pi_obras",
        Table [Sample.id_col; Sample.text_col "nombre"]
          [Sample.pkey "pi_obras"] [updated] 2)] in
  updatePiRecord st' "pi_obras" "1" data = (Reply 200 updated, st').
Proof.
  intros data updated st'.
  apply (update_twice_same updatePiRecord
           (Sample.with_tables [("pi_obras", Sample.pi_one)]) st' "pi_obras"
           "1" data updated).
  - by right.
  - apply unambiguous_check. vm_compute. reflexivity.
  - reflexivity.
  - vm_compute. reflexivity.
Defined.

(* ===================================================================== *)
(** * Further properties: paths and attachments *)
(* ===================================================================== *)

Lemma plain_no_slash (s : string) : plain s = true → no_slash s = true.
Proof. unfold plain. by intros [[[? _]%andb_true_iff _]%andb_true_iff _]%andb_true_iff. Qed.

Lemma plain_nonempty (s : string) : plain s = true → s ≠ "".
Proof. intros H ->. done. Qed.

Lemma split_no_slash (a : string) :
  no_slash a = true →
  Path.split a = [a] ∧ ∀ b, Path.split (a ++ String "/" b) = a :: Path.split b.
Proof.
  induction a as [|c a IH]; [done|].
  intros [Hc Ha]%andb_true_iff. destruct (IH Ha) as [IH1 IH2].
  apply negb_true_iff in Hc. split.
  - cbn [Path.split]. by rewrite Hc, IH1.
  - intros b.
    change (String c a ++ String "/" b) with (String c (a ++ String "/" b)).
    cbn [Path.split]. by rewrite Hc, IH2.
Qed.

Lemma concat_cons (x : string) (l : list string) :
  l ≠ [] → String.concat "/" (x :: l) = x ++ String "/" (String.concat "/" l).
Proof. by destruct l. Qed.

Lemma append_assoc (a b c : string) : (a ++ b) ++ c = a ++ (b ++ c).
Proof.
  induction a as [|x a IH]; [done|].
  change ((String x a ++ b) ++ c) with (String x ((a ++ b) ++ c)).
  by rewrite IH.
Qed.

Lemma concat_app (l1 l2 : list string) :
  l1 ≠ [] → l2 ≠ [] →
  String.concat "/" (l1 ++ l2)
  = String.concat "/" l1 ++ String "/" (String.concat "/" l2).
Proof.
  intros H1 H2. induction l1 as [|x l1 IH]; [done|].
  destruct l1 as [|y l1].
  - by apply concat_cons.
  - change ((x :: y :: l1) ++ l2)%list with (x :: ((y :: l1) ++ l2))%list.
    rewrite concat_cons by done. rewrite IH by done.
    rewrite (concat_cons x (y :: l1)) by done.
    by rewrite append_assoc.
Qed.

Lemma split_concat (segs : list string) :
  segs ≠ [] → Forall (λ s, plain s = true) segs →
  Path.split (String.concat "/" segs) = segs.
Proof.
  intros Hne Hall. induction Hall as [|x l Hx Hl IH]; [done|].
  destruct (split_no_slash x (plain_no_slash x Hx)) as [H1 H2].
  destruct l as [|y l]; [exact H1|].
  rewrite concat_cons, H2, IH by done. done.
Qed.

Lemma push_plain (b : bool) (stack : list string) (seg : string) :
  plain seg = true → Path.push b stack seg = seg :: stack.
Proof.
  unfold plain, Path.push.
  intros [[[_ H1%negb_true_iff]%andb_true_iff H2%negb_true_iff]%andb_true_iff
            H3%negb_true_iff]%andb_true_iff.
  by rewrite H1, H2, H3.
Qed.

Lemma fold_push_plain (b : bool) (segs : list string) :
  Forall (λ s, plain s = true) segs →
  ∀ stack, fold_left (Path.push b) segs stack = (rev segs ++ stack)%list.
Proof.
  induction 1 as [|x l Hx _ IH]; intros stack; [done|].
  cbn [fold_left rev]. rewrite push_plain, IH by done.
  by rewrite <- app_assoc.
Qed.

Lemma rev_string_last (s : string) :
  s ≠ "" → no_slash s = true →
  ∀ acc, ∃ c r, rev_string acc s = String c r ∧ c ≠ "/"%char.
Proof.
  induction s as [|c s IH]; [done|]. intros _ [Hc Hs]%andb_true_iff acc.
  destruct s as [|d s].
  - exists c, acc. split; [done|]. intros ->. done.
  - apply (IH ltac:(done) Hs).
Qed.

Lemma rev_string_app (a b acc : string) :
  rev_string acc (a ++ b) = rev_string (rev_string acc a) b.
Proof. revert acc. induction a as [|c a IH]; intros acc; [done|]. apply IH. Qed.

Lemma rev_string_concat (segs : list string) :
  segs ≠ [] → Forall (λ s, plain s = true) segs →
  ∀ acc, ∃ c r,
    rev_string acc (String.concat "/" segs) = String c r ∧ c ≠ "/"%char.
Proof.
  intros Hne Hall. induction Hall as [|x l Hx Hl IH]; [done|]. intros acc.
  destruct l as [|y l].
  - apply rev_string_last; [by apply plain_nonempty|by apply plain_no_slash].
  - rewrite concat_cons, rev_string_app by done. apply (IH ltac:(done)).
Qed.

Lemma concat_nonempty (segs : list string) :
  segs ≠ [] → Forall (λ s, plain s = true) segs →
  String.eqb (String.concat "/" segs) "" = false.
Proof.
  intros Hne Hall. destruct Hall as [|x l Hx Hl]; [done|].
  apply plain_nonempty in Hx. destruct x as [|c x]; [done|].
  by destruct l.
Qed.

(** [path.normalize] leaves an absolute path of plain segments as it
    is. *)
Lemma normalize_rooted (segs : list string) :
  segs ≠ [] → Forall (λ s, plain s = true) segs →
  Path.normalize (rooted segs) = rooted segs.
Proof.
  intros Hne Hall. unfold Path.normalize, rooted.
  change ("/" ++ String.concat "/" segs)
    with (String "/" (String.concat "/" segs)).
  change (String.eqb (String "/" (String.concat "/" segs)) "") with false.
  cbv iota.
  replace (String.prefix "/" (String "/" (String.concat "/" segs))) with true
    by (by destruct (String.concat "/" segs)).
  cbv zeta. unfold Path.normalizeString.
  cbn [Path.split Ascii.eqb Bool.eqb]. cbv iota.
  rewrite split_concat by done. cbn [fold_left].
  change (Path.push (negb true) [] "") with (@nil string).
  rewrite fold_push_plain, app_nil_r, rev_involutive by done.
  rewrite concat_nonempty by done.
  unfold Path.ends_with_slash.
  destruct (rev_string_concat segs Hne Hall "/") as (c & r & Hrev & Hc).
  change (rev_string "" (String "/" (String.concat "/" segs)))
    with (rev_string "/" (String.concat "/" segs)).
  rewrite Hrev. apply Ascii.eqb_neq in Hc. by rewrite Hc.
Qed.

(** [path.join] of an absolute path of plain segments with plain
    segments appends them. *)
Lemma join_rooted (root segs : list string) :
  root ≠ [] → Forall (λ s, plain s = true) root →
  Forall (λ s, plain s = true) segs →
  Path.join (rooted root :: segs) = rooted (root ++ segs).
Proof.
  intros Hne Hroot Hsegs. unfold Path.join.
  assert (Hfilter : filter (λ a : string, a ≠ "") (rooted root :: segs)
                    = rooted root :: segs).
  { rewrite filter_cons, decide_True by done. f_equal.
    clear -Hsegs. induction Hsegs as [|x l Hx _ IH]; [done|].
    rewrite filter_cons, decide_True by (by apply plain_nonempty).
    by rewrite IH. }
  rewrite Hfilter.
  assert (Hcat : String.concat "/" (rooted root :: segs) = rooted (root ++ segs)).
  { destruct segs as [|s segs]; [by rewrite app_nil_r|].
    rewrite concat_cons by done. unfold rooted.
    rewrite concat_app by done. by rewrite append_assoc. }
  rewrite Hcat. apply normalize_rooted.
  - by destruct root.
  - by apply Forall_app.
Qed.

(** [path.basename] of an absolute path of plain segments is its last
    segment. *)
Lemma basename_rooted (segs : list string) (name : string) :
  Forall (λ s, plain s = true) segs → plain name = true →
  Path.basename (rooted (segs ++ [name])) = name.
Proof.
  intros Hsegs Hname. unfold Path.basename, rooted.
  change ("/" ++ String.concat "/" (segs ++ [name]))
    with (String "/" (String.concat "/" (segs ++ [name]))).
  cbn [Path.split Ascii.eqb Bool.eqb]. cbv iota.
  rewrite split_concat.
  - cbn [rev]. rewrite rev_app_distr. cbn [rev app].
    rewrite filter_cons, decide_True by (by apply plain_nonempty). done.
  - by destruct segs.
  - apply Forall_app. split; [done|]. by constructor.
Qed.

Lemma storage_paths (dir table_name record_id name : string) :
  plain dir = true → plain table_name = true → plain record_id = true →
  plain name = true →
  Path.join [Path.join ["/var/data/uploads"; dir; record_id]; name]
  = "/var/data/uploads/" ++ dir ++ "/" ++ record_id ++ "/" ++ name
  ∧ Path.basename (Path.join ["/uploads"; table_name; record_id; name]) = name.
Proof.
  intros Hd Ht Hr Hn. split.
  - change "/var/data/uploads" with (rooted ["var"; "data"; "uploads"]).
    rewrite join_rooted; [|done|by repeat constructor|by repeat constructor].
    rewrite join_rooted; [done|done| |by repeat constructor].
    by repeat constructor.
  - change "/uploads" with (rooted ["uploads"]).
    rewrite join_rooted; [|done|by repeat constructor|by repeat constructor].
    apply (basename_rooted ["uploads"; table_name; record_id]); [|done].
    by repeat constructor.
Qed.




Lemma split_concat_no_slash (segs : list string) :
  segs ≠ [] → Forall (λ s, no_slash s = true) segs →
  Path.split (String.concat "/" segs) = segs.
Proof.
  intros Hne Hall. induction Hall as [|x l Hx Hl IH]; [done|].
  destruct (split_no_slash x Hx) as [H1 H2].
  destruct l as [|y l]; [exact H1|].
  rewrite concat_cons, H2, IH by done. done.
Qed.

Lemma rooted_inj (l1 l2 : list string) :
  l1 ≠ [] → l2 ≠ [] →
  Forall (λ s, no_slash s = true) l1 → Forall (λ s, no_slash s = true) l2 →
  rooted l1 = rooted l2 → l1 = l2.
Proof.
  intros H1 H2 Hl1 Hl2 Heq.
  assert (Hcat : String.concat "/" l1 = String.concat "/" l2)
    by (injection Heq as Heq; exact Heq).
  rewrite <- (split_concat_no_slash l1), <- (split_concat_no_slash l2) by done.
  by rewrite Hcat.
Qed.

Lemma rev_string_concat_last (l : list string) (x : string) :
  Forall (λ s, no_slash s = true) l → plain x = true →
  ∀ acc, ∃ c r,
    rev_string acc (String.concat "/" (l ++ [x])) = String c r ∧ c ≠ "/"%char.
Proof.
  intros Hl Hx. induction Hl as [|y l Hy Hl IH]; intros acc.
  - apply rev_string_last; [by apply plain_nonempty|by apply plain_no_slash].
  - change ((y :: l) ++ [x])%list with (y :: (l ++ [x]))%list.
    rewrite concat_cons, rev_string_app by (by destruct l). apply IH.
Qed.

Lemma plain_all_no_slash (l : list string) :
  Forall (λ s, plain s = true) l → Forall (λ s, no_slash s = true) l.
Proof. intros H. eapply Forall_impl; [exact H|]. apply plain_no_slash. Qed.

(** [path.join(dir, '..', '..', p)] for a directory two levels below
    [root] and an absolute path [p], all of plain segments, is [p]
    under [root]. *)
Lemma join_up_two (root segs : list string) (a b : string) :
  Forall (λ s, plain s = true) root → plain a = true → plain b = true →
  segs ≠ [] → Forall (λ s, plain s = true) segs →
  Path.join [rooted (root ++ [a; b]); ".."; ".."; rooted segs]
  = rooted (root ++ segs).
Proof.
  intros Hroot Ha Hb Hne Hsegs.
  destruct (exists_last Hne) as (init & x & ->).
  apply Forall_app in Hsegs as [Hinit Hx]. apply Forall_inv in Hx.
  set (M := ((root ++ [a; b]) ++ [".."; ".."; ""] ++ init)%list).
  assert (HM : Forall (λ s, no_slash s = true) M).
  { unfold M. apply Forall_app. split.
    - apply plain_all_no_slash, Forall_app. split; [done|]. by repeat constructor.
    - apply Forall_app. split; [by repeat constructor|].
      by apply plain_all_no_slash. }
  assert (Hp : String.concat "/"
                 [rooted (root ++ [a; b]); ".."; ".."; rooted (init ++ [x])]
               = rooted (M ++ [x])).
  { unfold rooted, M. rewrite <- !app_assoc.
    rewrite (app_assoc root [a; b]).
    rewrite (concat_app (root ++ [a; b])) by (by destruct root).
    cbn [String.concat]. rewrite !append_assoc. f_equal. f_equal.
    change ([".."; ".."; ""] ++ init ++ [x])%list
      with (".." :: ".." :: "" :: (init ++ [x]))%list.
    rewrite !concat_cons by (by destruct init). done. }
  unfold Path.join.
  rewrite !filter_cons, !decide_True by done. rewrite filter_nil.
  rewrite Hp. unfold Path.normalize, rooted.
  change ("/" ++ String.concat "/" (M ++ [x]))
    with (String "/" (String.concat "/" (M ++ [x]))).
  change (String.eqb (String "/" (String.concat "/" (M ++ [x]))) "") with false.
  cbv iota.
  replace (String.prefix "/" (String "/" (String.concat "/" (M ++ [x]))))
    with true by (by destruct (String.concat "/" (M ++ [x]))).
  cbv zeta. unfold Path.normalizeString.
  cbn [Path.split Ascii.eqb Bool.eqb]. cbv iota.
  rewrite split_concat_no_slash; [|by destruct M|].
  2:{ apply Forall_app. split; [done|]. constructor; [|done].
      by apply plain_no_slash. }
  assert (Hfold : fold_left (Path.push (negb true)) ("" :: M ++ [x]) []
                  = rev (root ++ init ++ [x])).
  { cbn [fold_left]. change (Path.push (negb true) [] "") with (@nil string).
    unfold M. rewrite <- !app_assoc. rewrite !fold_left_app.
    rewrite (fold_push_plain _ root Hroot), app_nil_r.
    assert (Hcons : ∀ (s : string) l stk,
              fold_left (Path.push (negb true)) (s :: l) stk
              = fold_left (Path.push (negb true)) l
                  (Path.push (negb true) stk s)) by reflexivity.
    assert (Hnil : ∀ stk : list string,
              fold_left (Path.push (negb true)) [] stk = stk) by reflexivity.
    rewrite !Hcons, !Hnil.
    rewrite (push_plain _ _ a Ha), (push_plain _ _ b Hb), (push_plain _ _ x Hx).
    assert (Hup : ∀ s stk, plain s = true →
                  Path.push (negb true) (s :: stk) ".." = stk).
    { intros s stk Hs. unfold Path.push. cbn.
      unfold plain in Hs. apply andb_true_iff in Hs as [_ ->%negb_true_iff].
      done. }
    rewrite !Hup by done.
    change (Path.push (negb true) (rev root) "") with (rev root).
    rewrite (fold_push_plain _ init Hinit).
    rewrite !rev_app_distr. done. }
  rewrite Hfold, rev_involutive.
  rewrite concat_nonempty.
  2:{ by destruct root, init. }
  2:{ apply Forall_app. split; [done|]. apply Forall_app. split; [done|].
      by constructor. }
  unfold Path.ends_with_slash.
  destruct (rev_string_concat_last M x HM Hx "/") as (c & r & Hrev & Hc).
  change (rev_string "" (String "/" (String.concat "/" (M ++ [x]))))
    with (rev_string "/" (String.concat "/" (M ++ [x]))).
  rewrite Hrev. apply Ascii.eqb_neq in Hc. by rewrite Hc.
Qed.

(** What a 200 answer of uploadFile has done. *)
Lemma uploadFile_reply (st st' : state) (table_name record_id : string)
    (fileName caracterizacion_id source : option string)
    (f : upload) (newFile : file_row) :
  uploadFile st table_name record_id fileName caracterizacion_id source (Some f)
  = (Reply 200 newFile, st') →
  let dir := if startsWith table_name "pi_"
             then "inscription_caracterizacion" else table_name in
  prefixed table_name = true
  ∧ file_table_name newFile = table_name
  ∧ file_id newFile = next_file_id st
  ∧ file_path newFile
    = Path.join ["/uploads"; table_name; file_record_id newFile;
                 file_name newFile]
  ∧ files st' = (files st ++ [newFile])%list
  ∧ ∃ content,
      disk st !! upload_path f = Some content
      ∧ disk st'
        = delete (upload_path f)
            (<[Path.join [Path.join ["/var/data/uploads"; dir;
                                     file_record_id newFile];
                          file_name newFile] := content]> (disk st)).
Proof.
  intros H dir. unfold uploadFile in H.
  destruct (prefixed table_name) eqn:Hdom; [|done]. simpl negb in H.
  cbv iota in H. split; [done|]. revert H. unfold dir.
  destruct (startsWith table_name "pi_").
  - destruct (falsy_str caracterizacion_id); [done|].
    destruct (disk st !! upload_path f) as [content|]; [|done].
    intros [= <- <-]. cbn [file_table_name file_id file_path file_record_id
                           file_name files disk set_disk].
    repeat split. eauto.
  - destruct (disk st !! upload_path f) as [content|]; [|done].
    intros [= <- <-]. cbn [file_table_name file_id file_path file_record_id
                           file_name files disk set_disk].
    repeat split. eauto.
Qed.

Lemma find_fresh_id (l : list file_row) (nf : file_row) :
  (∀ g, g ∈ l → file_id g ≠ file_id nf) →
  find (λ g, Z.eqb (file_id g) (file_id nf)) (l ++ [nf])%list = Some nf.
Proof.
  intros Hfresh. induction l as [|g l IH]; simpl.
  - by rewrite Z.eqb_refl.
  - destruct (Z.eqb_spec (file_id g) (file_id nf)) as [Heq|_].
    + exfalso. apply (Hfresh g); [left|done].
    + apply IH. intros g' Hg'. apply Hfresh. by right.
Qed.

(** X13. deleteFile looks for the file two levels above the controller
    directory, under the recorded path, while uploadFile stored it
    under [/var/data/uploads]: unless the controller directory lies two
    levels below [/var/data] and the table is outside the pi_ domain,
    deleting an uploaded file (plain path segments, a fresh id) answers
    200 and removes the row, and the stored content is still on
    disk. *)
Theorem deleteFile_leaves_stored_file (st st1 : state)
    (table_name record_id : string)
    (fileName caracterizacion_id source : option string)
    (f : upload) (newFile : file_row)
    (root : list string) (a b file_id_param delete_record_id : string) :
  uploadFile st table_name record_id fileName caracterizacion_id source (Some f)
  = (Reply 200 newFile, st1) →
  plain table_name = true → plain (file_record_id newFile) = true →
  plain (file_name newFile) = true →
  String.prefix "/var/data/" (upload_path f) = false →
  (∀ g, g ∈ files st → file_id g ≠ next_file_id st) →
  Forall (λ s, plain s = true) root → plain a = true → plain b = true →
  root ≠ ["var"; "data"] ∨ startsWith table_name "pi_" = true →
  parse_int file_id_param = Some (file_id newFile) →
  is_Some (parse_int delete_record_id) →
  parse_int delete_record_id = parse_int (file_record_id newFile) →
  ∃ st2,
    deleteFile (rooted (root ++ [a; b])) st1 file_id_param delete_record_id
    = (Reply 200 tt, st2)
    ∧ (newFile ∉ files st2)
    ∧ is_Some (disk st !! upload_path f)
    ∧ disk st2
        !! (rooted ["var"; "data"; "uploads";
                    if startsWith table_name "pi_"
                    then "inscription_caracterizacion" else table_name;
                    file_record_id newFile; file_name newFile])
      = disk st !! upload_path f.
Proof.
  intros Hup Htn Hrid Hname Htmp Hfresh Hroot Ha Hb Hcase Hfid [n Hn] Hrec.
  apply uploadFile_reply in Hup
    as (Hdom & Htable & Hid & Hpath & Hfiles & content & Hdisk & Hdisk1).
  set (dir := if startsWith table_name "pi_"
              then "inscription_caracterizacion" else table_name) in *.
  assert (Hdir : plain dir = true) by (unfold dir; by destruct (startsWith _ _)).
  destruct (storage_paths dir table_name _ _ Hdir Htn Hrid Hname) as [Hnew _].
  assert (Hrel : file_path newFile
                 = rooted ["uploads"; table_name; file_record_id newFile;
                           file_name newFile]).
  { rewrite Hpath. change "/uploads" with (rooted ["uploads"]).
    rewrite join_rooted; [done|done|by repeat constructor|by repeat constructor]. }
  unfold deleteFile. rewrite Hfid, Hfiles.
  rewrite find_fresh_id by (intros g Hg; rewrite Hid; by apply Hfresh).
  rewrite Htable, Hdom, Hn. simpl negb. cbv iota zeta.
  eexists. split; [reflexivity|].
  rewrite Hrel, join_up_two; [|done|done|done|done|by repeat constructor].
  cbn [files disk set_disk]. split; [|split; [by rewrite Hdisk|]].
  - rewrite list_elem_of_filter. intros [Hkeep _]. apply Hkeep.
    split; [done|]. by rewrite <- Hrec.
  - rewrite Hdisk1, Hnew, Hdisk.
    change (rooted ["var"; "data"; "uploads"; dir; file_record_id newFile;
                    file_name newFile])
      with ("/var/data/uploads/" ++ dir ++ "/" ++ file_record_id newFile
            ++ "/" ++ file_name newFile).
    rewrite lookup_delete_ne.
    + rewrite lookup_delete_ne; [apply lookup_insert_eq|].
      intros Heq. by rewrite Heq in Htmp.
    + change ("/var/data/uploads/" ++ dir ++ "/" ++ file_record_id newFile
              ++ "/" ++ file_name newFile)
        with (rooted (["var"; "data"]
                      ++ ["uploads"; dir; file_record_id newFile;
                          file_name newFile])).
      intros Heq. apply rooted_inj in Heq.
      * apply app_inj_2 in Heq as [Hr Hl]; [|done].
        injection Hl as Hd. destruct Hcase as [Hc|Hc]; [done|].
        unfold dir in Hd. rewrite Hc in Hd. by rewrite Hd in Hc.
      * by destruct root.
      * done.
      * apply plain_all_no_slash, Forall_app. split; [done|].
        by repeat constructor.
      * apply plain_all_no_slash. by repeat constructor.
Qed.

Lemma deleteFile_leaves_stored_file_witness :
  let st := Sample.with_upload [] in
  let f := Upload "/tmp/upload_1" "doc.pdf" in
  let newFile :=
    FileRow 1 "42" "pi_formulacion" "acta.pdf"
      "/uploads/pi_formulacion/42/acta.pdf" "unknown" in
  let st1 :=
    State ∅ [] [newFile] 2 ∅
      {["/var/data/uploads/inscription_caracterizacion/42/acta.pdf"
        := "nombre,nota"]} in
  ∃ st2,
    deleteFile (rooted (["app"] ++ ["src"; "controllers"])) st1 "1" "42"
    = (Reply 200 tt, st2)
    ∧ (newFile ∉ files st2)
    ∧ is_Some (disk st !! upload_path f)
    ∧ disk st2
        !! (rooted ["var"; "data"; "uploads";
                    if startsWith "pi_formulacion" "pi_"
                    then "inscription_caracterizacion" else "pi_formulacion";
                    file_record_id newFile; file_name newFile])
      = disk st !! upload_path f.
Proof.
  intros st f newFile st1.
  apply (deleteFile_leaves_stored_file st st1 "pi_formulacion" "7"
           (Some "acta") (Some "42") None f newFile ["app"] "src"
           "controllers" "1" "42").
  - vm_compute. reflexivity.
  - reflexivity.
  - reflexivity.
  - reflexivity.
  - reflexivity.
  - intros g Hg. by apply elem_of_nil in Hg.
  - by repeat constructor.
  - reflexivity.
  - reflexivity.
  - by left.
  - reflexivity.
  - by exists 42.
  - reflexivity.
Defined.


(* ===================================================================== *)
(** * Further properties: CSV import *)
(* ===================================================================== *)

Lemma bulk_fold_rows (results : list row) :
  ∀ t,
    let t' :=
      fold_left
        (λ (t : table) (r : row),
           let (r', n) := stored t r in
           Table (columns t) (keys t) (rows t ++ [r']) n)
        results t in
    columns t' = columns t ∧ keys t' = keys t
    ∧ ∃ new, rows t' = (rows t ++ new)%list ∧ length new = length results.
Proof.
  induction results as [|r results IH]; intros t; simpl.
  - repeat split. exists []. by rewrite app_nil_r.
  - destruct (stored t r) as [r' n] eqn:Hst.
    destruct (IH (Table (columns t) (keys t) (rows t ++ [r']) n))
      as (Hc & Hk & new & Hrows & Hlen).
    simpl in Hc, Hk, Hrows. split; [done|]. split; [done|].
    exists (r' :: new). split; [|by simpl; rewrite Hlen].
    rewrite Hrows, <- app_assoc. done.
Qed.

(** X14. For a plain table name, which the catalog queries that
    splice it read as it is, uploadCsv inserts all the lines of the
    file or none: unless the answer is 201 the tables are as they were;
    with a 201 the table has its old rows followed by one new row per
    line the parser gave, its columns are unchanged, the other tables
    are untouched and the temporary file is gone. *)
Theorem uploadCsv_all_or_nothing
    (csvParser : string → list (gmap string string))
    (validates : list (string * seq_type) → row → bool)
    (st st' : state) (table_name : string) (file : option upload)
    (resp : option (response unit)) :
  plain_name table_name →
  uploadCsv csvParser validates st table_name file = (resp, st') →
  (resp ≠ Some (Reply 201 tt) → tables st' = tables st)
  ∧ (resp = Some (Reply 201 tt) →
     ∃ f content t t' new,
       file = Some f ∧ disk st !! upload_path f = Some content
       ∧ tables st !! table_name = Some t
       ∧ tables st' !! table_name = Some t'
       ∧ columns t' = columns t
       ∧ rows t' = (rows t ++ new)%list
       ∧ length new = length (csvParser content)
       ∧ (∀ n, n ≠ table_name → tables st' !! n = tables st !! n)
       ∧ disk st' !! upload_path f = None).
Proof.
  intros _.
  unfold uploadCsv. destruct file as [f|]; [|by intros [= <- <-]].
  destruct (tables st !! table_name) as [t|] eqn:Ht; [|by intros [= <- <-]].
  destruct (bool_decide (columns_of st table_name = [])); [by intros [= <- <-]|].
  destruct (Models.define _ _) as [attrs|]; [|by intros [= <- <-]].
  cbv zeta. cbn [disk set_models].
  destruct (disk st !! upload_path f) as [content|] eqn:Hdisk;
    [|by intros [= <- <-]].
  unfold bulkCreate. cbn [tables set_models]. rewrite Ht. cbn [mbind option_bind].
  destruct (forallb _ _); [|by intros [= <- <-]].
  intros [= <- <-]. split; [done|]. intros _.
  set (results := map _ (csvParser content)).
  destruct (bulk_fold_rows results t) as (Hc & _ & new & Hrows & Hlen).
  eexists f, content, t, _, new. split; [done|]. split; [done|].
  split; [done|]. cbn [tables unlink set_disk set_tables disk].
  split; [apply lookup_insert_eq|]. split; [exact Hc|]. split; [exact Hrows|].
  split; [by rewrite Hlen; unfold results; rewrite length_map|].
  split; [|apply lookup_delete_eq].
  intros n Hn. by rewrite lookup_insert_ne.
Qed.

Lemma uploadCsv_all_or_nothing_witness :
  let csvParser := λ _ : string, [({["nombre" := "a"]} : gmap string string)] in
  let validates := λ (_ : list (string * seq_type)) (_ : row), true in
  let st := Sample.with_upload [("pi_obras", Sample.pi_empty)] in
  let file := Some (Upload "/tmp/upload_1" "obras.csv") in
  let call := uploadCsv csvParser validates st "pi_obras" file in
  (fst call ≠ Some (Reply 201 tt) → tables (snd call) = tables st)
  ∧ (fst call = Some (Reply 201 tt) →
     ∃ f content t t' new,
       file = Some f ∧ disk st !! upload_path f = Some content
       ∧ tables st !! "pi_obras" = Some t
       ∧ tables (snd call) !! "pi_obras" = Some t'
       ∧ columns t' = columns t
       ∧ rows t' = (rows t ++ new)%list
       ∧ length new = length (csvParser content)
       ∧ (∀ n, n ≠ "pi_obras" → tables (snd call) !! n = tables st !! n)
       ∧ disk (snd call) !! upload_path f = None).
Proof.
  intros csvParser validates st file call.
  apply (uploadCsv_all_or_nothing csvParser validates st (snd call) "pi_obras"
           file (fst call)); vm_compute; reflexivity.
Defined.

(* ===================================================================== *)
(** * Further properties: field types and the field list *)
(* ===================================================================== *)

(** X15. What getTableFields reports for a column createTable made:
    for every type name createTable accepts, the reported type is that
    name, except that a FOREIGN_KEY column is reported as INTEGER and a
    DATE column as TIMESTAMP WITH TIME ZONE, a name that neither
    createTable nor editTable accepts. *)
Theorem reported_type_of_created_column (ty : string) (sty : seq_type) :
  CreateTable.validTypes !! ty = Some sty →
  let shown := TableFields.mappedType (native_type sty) in
  (ty ≠ "DATE" → ty ≠ "FOREIGN_KEY" → shown = ty)
  ∧ (ty = "FOREIGN_KEY" → shown = "INTEGER")
  ∧ (ty = "DATE" →
     shown = "TIMESTAMP WITH TIME ZONE"
     ∧ CreateTable.validTypes !! shown = None
     ∧ EditTable.validTypes !! toUpperCase shown = None).
Proof.
  intros Hty shown. subst shown.
  apply elem_of_list_to_map_2 in Hty.
  repeat (apply elem_of_cons in Hty as [[= -> ->]|Hty];
          [by repeat split; intros; try done; vm_compute|]).
  by apply elem_of_nil in Hty.
Qed.

Lemma reported_type_of_created_column_witness :
  let shown := TableFields.mappedType (native_type DATE) in
  ("DATE" ≠ "DATE" → "DATE" ≠ "FOREIGN_KEY" → shown = "DATE")
  ∧ ("DATE" = "FOREIGN_KEY" → shown = "INTEGER")
  ∧ ("DATE" = "DATE" →
     shown = "TIMESTAMP WITH TIME ZONE"
     ∧ CreateTable.validTypes !! shown = None
     ∧ EditTable.validTypes !! toUpperCase shown = None).
Proof.
  apply (reported_type_of_created_column "DATE" DATE). reflexivity.
Defined.

Lemma left_join_elem {A B} (on : A → B → bool) (l : list A) (r : list B)
    (a : A) (o : option B) :
  (a, o) ∈ TableFields.left_join on l r →
  a ∈ l ∧ match o with Some b => b ∈ r ∧ on a b = true | None => True end.
Proof.
  unfold TableFields.left_join. rewrite list_elem_of_In, in_flat_map.
  intros (a' & Ha' & Hin). apply list_elem_of_In in Ha'.
  destruct (List.filter (on a') r) as [|b0 bs] eqn:Hf.
  - destruct Hin as [[= <- <-]|[]]. done.
  - apply in_map_iff in Hin as (b & [= <- <-] & Hb).
    rewrite <- Hf in Hb. apply filter_In in Hb as [Hb Hon].
    split; [done|]. split; [by apply list_elem_of_In|done].
Qed.

Lemma left_join_covers {A B} (on : A → B → bool) (l : list A) (r : list B)
    (a : A) :
  a ∈ l → ∃ o, (a, o) ∈ TableFields.left_join on l r.
Proof.
  intros Ha. unfold TableFields.left_join.
  destruct (List.filter (on a) r) as [|b0 bs] eqn:Hf.
  - exists None. apply list_elem_of_In, in_flat_map. exists a.
    split; [by apply list_elem_of_In|]. rewrite Hf. by left.
  - exists (Some b0). apply list_elem_of_In, in_flat_map. exists a.
    split; [by apply list_elem_of_In|]. rewrite Hf. by left.
Qed.

Lemma catalog_columns_ci (st : state) (table_name : string) :
  map snd (TableFields.catalog_columns st table_name) = columns_ci st table_name.
Proof.
  unfold TableFields.catalog_columns, columns_ci.
  induction (map_to_list (tables st)) as [|[n t] l IH]; [done|].
  simpl. rewrite map_app, IH. f_equal.
  destruct (String.eqb _ _); [|done]. rewrite map_map. apply map_id.
Qed.

(** X16. getTableFields answers 404 exactly when the catalog lists no
    column under the name up to letter case. Otherwise it answers 200
    with entries that cover the columns: every listed column has an
    entry with its name, its nullability and its type as mappedType
    renders it, every entry is that of a listed column, and no entry
    carries a constraint type other than FOREIGN KEY: a primary key is
    reported like a column without a key. *)
Theorem getTableFields_entries (st : state) (table_name : string) :
  (columns_ci st table_name = [] →
   getTableFields st table_name = Refuse 404 NotFound)
  ∧ (columns_ci st table_name ≠ [] →
     ∃ entries,
       getTableFields st table_name = Reply 200 entries
       ∧ (∀ c, c ∈ columns_ci st table_name →
            ∃ e, e ∈ entries
                 ∧ TableFields.entry_column_name e = column_name c
                 ∧ TableFields.entry_data_type e
                   = TableFields.mappedType (data_type c)
                 ∧ TableFields.entry_is_nullable e = is_nullable c)
       ∧ (∀ e, e ∈ entries →
            (∃ c, c ∈ columns_ci st table_name
                  ∧ TableFields.entry_column_name e = column_name c
                  ∧ TableFields.entry_data_type e
                    = TableFields.mappedType (data_type c)
                  ∧ TableFields.entry_is_nullable e = is_nullable c)
            ∧ (TableFields.entry_constraint_type e = None
               ∨ TableFields.entry_constraint_type e = Some FOREIGN_KEY))).
Proof.
  rewrite <- catalog_columns_ci. unfold getTableFields, TableFields.query.
  set (cols := TableFields.catalog_columns st table_name).
  set (j1 := TableFields.left_join _ cols _).
  set (j2 := TableFields.left_join _ j1 _).
  set (j3 := TableFields.left_join _ j2 _).
  assert (Hcover : ∀ c, c ∈ cols → ∃ k t u, (c, k, t, u) ∈ j3).
  { intros c Hc.
    assert (∃ k, (c, k) ∈ j1) as [k Hk]
      by (unfold j1; by apply left_join_covers).
    assert (∃ t, (c, k, t) ∈ j2) as [t Ht]
      by (unfold j2; by apply left_join_covers).
    assert (∃ u, (c, k, t, u) ∈ j3) as [u Hu]
      by (unfold j3; by apply left_join_covers).
    eauto. }
  assert (Hsound : ∀ c k t u, (c, k, t, u) ∈ j3 →
            c ∈ cols
            ∧ match t with
              | Some tc => kind tc.2 = FOREIGN_KEY
              | None => True
              end).
  { intros c k t u Hu.
    apply left_join_elem in Hu as [Ht _].
    apply left_join_elem in Ht as [Hk Hon].
    apply left_join_elem in Hk as [Hc _]. split; [done|].
    destruct t as [tc|]; [|done]. destruct Hon as [_ Hon].
    destruct k as [kcu|]; [|done]. simpl in Hon.
    apply andb_true_iff in Hon as [_ Hfk].
    by destruct (kind tc.2). }
  split.
  - intros Hnil. apply map_eq_nil in Hnil.
    destruct j3 as [|[[[c k] t] u] j3'] eqn:E; [done|].
    destruct (Hsound c k t u) as [Hc _]; [left|].
    rewrite Hnil in Hc. by apply elem_of_nil in Hc.
  - intros Hne.
    destruct j3 as [|l0 j3'] eqn:E.
    { exfalso. destruct cols as [|c cols'] eqn:Ec; [done|].
      destruct (Hcover c) as (k & t & u & Hin); [left|].
      by apply elem_of_nil in Hin. }
    clear E. eexists. split; [reflexivity|]. split.
    + intros c Hc. apply list_elem_of_In, in_map_iff in Hc as ([n c'] & Hsnd & Hin).
      simpl in Hsnd. subst c'. apply list_elem_of_In in Hin.
      destruct (Hcover (n, c) Hin) as (k & t & u & Hj).
      exists (TableFields.entry_of (n, c, k, t, u)). split; [|done].
      apply list_elem_of_In, in_map_iff. eexists. split; [reflexivity|].
      by apply list_elem_of_In.
    + intros e He. apply list_elem_of_In, in_map_iff in He
        as ([[[[n c] k] t] u] & <- & Hin).
      apply list_elem_of_In in Hin.
      destruct (Hsound (n, c) k t u Hin) as [Hc Hkind]. split.
      * exists c. split; [|done].
        apply list_elem_of_In, in_map_iff. exists (n, c). split; [done|].
        by apply list_elem_of_In.
      * unfold TableFields.entry_of. simpl.
        destruct t as [tc|]; [right|by left]. simpl. by rewrite Hkind.
Qed.

(* ===================================================================== *)
(** * Further properties: column preferences *)
(* ===================================================================== *)

Lemma findOne_save (table_name : string) (cols : list string)
    (store : list Preferences.preference) (m : string) :
  Preferences.findOne (Preferences.save table_name cols store) m
  = if String.eqb m table_name
    then (λ _, Preferences.Preference table_name cols)
           <$> Preferences.findOne store table_name
    else Preferences.findOne store m.
Proof.
  unfold Preferences.findOne.
  induction store as [|[k v] store IH]; simpl.
  - by destruct (String.eqb m table_name).
  - destruct (String.eqb k table_name) eqn:Hk; simpl.
    + apply String.eqb_eq in Hk as ->.
      destruct (String.eqb m table_name) eqn:Hm.
      * apply String.eqb_eq in Hm as ->. by rewrite String.eqb_refl.
      * by rewrite String.eqb_sym, Hm.
    + destruct (String.eqb k m) eqn:Hkm.
      * apply String.eqb_eq in Hkm as ->. by rewrite Hk.
      * exact IH.
Qed.

Lemma findOne_app_new (store : list Preferences.preference)
    (p : Preferences.preference) (m : string) :
  Preferences.findOne (store ++ [p])%list m
  = match Preferences.findOne store m with
    | Some q => Some q
    | None => if String.eqb (Preferences.pref_table_name p) m
              then Some p else None
    end.
Proof.
  unfold Preferences.findOne. induction store as [|q store IH]; simpl.
  - done.
  - by destruct (String.eqb (Preferences.pref_table_name q) m).
Qed.

Lemma save_names (table_name : string) (cols : list string)
    (store : list Preferences.preference) :
  map Preferences.pref_table_name (Preferences.save table_name cols store)
  = map Preferences.pref_table_name store.
Proof.
  induction store as [|p store IH]; [done|]. simpl.
  destruct (String.eqb _ _); simpl; by rewrite ?IH.
Qed.

Lemma findOne_None (store : list Preferences.preference) (m : string) :
  Preferences.findOne store m = None →
  m ∉ map Preferences.pref_table_name store.
Proof.
  unfold Preferences.findOne. induction store as [|p store IH]; simpl.
  - intros _ H. by apply elem_of_nil in H.
  - destruct (String.eqb (Preferences.pref_table_name p) m) eqn:Hp; [done|].
    intros Hnone [Heq|Hin]%elem_of_cons.
    + subst m. by rewrite String.eqb_refl in Hp.
    + by apply IH.
Qed.

(** X17. saveFieldPreferences followed by getFieldPreferences gives
    back the list that was saved; the preferences of every other table
    read as before; and a store with at most one row per table still
    has at most one row per table. *)
Theorem saved_preferences_read_back (store store' : list Preferences.preference)
    (table_name : string) (cols : list string) (resp : response unit) :
  saveFieldPreferences store table_name (Some cols) = (resp, store') →
  resp = Reply 200 tt
  ∧ getFieldPreferences store' table_name = Reply 200 cols
  ∧ (∀ m, m ≠ table_name →
          getFieldPreferences store' m = getFieldPreferences store m)
  ∧ (NoDup (map Preferences.pref_table_name store) →
     NoDup (map Preferences.pref_table_name store')).
Proof.
  unfold saveFieldPreferences, getFieldPreferences.
  destruct (Preferences.findOne store table_name) as [p|] eqn:Hfind;
    intros [= <- <-]; (split; [done|]).
  - split; [|split].
    + by rewrite findOne_save, String.eqb_refl, Hfind.
    + intros m Hm. rewrite findOne_save.
      by apply String.eqb_neq in Hm as ->.
    + by rewrite save_names.
  - split; [|split].
    + by rewrite findOne_app_new, Hfind, String.eqb_refl.
    + intros m Hm. rewrite findOne_app_new. simpl.
      apply not_eq_sym, String.eqb_neq in Hm. rewrite Hm.
      by destruct (Preferences.findOne store m).
    + intros Hnd. rewrite map_app. simpl. apply NoDup_app.
      split; [done|]. split; [|apply NoDup_singleton].
      intros x Hx ->%list_elem_of_singleton.
      by apply (findOne_None store table_name Hfind).
Qed.

Lemma saved_preferences_read_back_witness :
  let store := [Preferences.Preference "pi_obras" ["id"]] in
  let store' := [Preferences.Preference "pi_obras" ["nombre"; "id"]] in
  Reply 200 tt = Reply 200 tt
  ∧ getFieldPreferences store' "pi_obras" = Reply 200 ["nombre"; "id"]
  ∧ (∀ m, m ≠ "pi_obras" →
          getFieldPreferences store' m = getFieldPreferences store m)
  ∧ (NoDup (map Preferences.pref_table_name store) →
     NoDup (map Preferences.pref_table_name store')).
Proof.
  intros store store'.
  apply (saved_preferences_read_back store store' "pi_obras" ["nombre"; "id"]).
  reflexivity.
Defined.

(* ===================================================================== *)
(** * Further properties: validateField and deleteTableRecord *)
(* ===================================================================== *)

Lemma valid_identifier_chars (s : string) :
  isValidIdentifier s = true →
  ∀ c, c ∈ list_ascii_of_string s → identifier_char c = true.
Proof.
  unfold isValidIdentifier. intros [_ Hall]%andb_true_iff.
  induction s as [|a s IH]; simpl; intros c Hc.
  - by apply elem_of_nil in Hc.
  - simpl in Hall. apply andb_true_iff in Hall as [Ha Hs].
    apply elem_of_cons in Hc as [->|Hc]; [done|by apply IH].
Qed.

(** X18. For a value that can be compared with the column (null, or a
    value of the column's type in a column whose cells are of that
    type), a 200 answer of validateField means that the table exists,
    that the field is one of its columns, that neither name holds the
    double quote that would end the quoted identifier the names are
    spliced into, and that [exists] is true exactly when some row of
    the table holds the given value, which is then not null, in that
    column. *)
Theorem validateField_exists (st : state) (table_name fieldName : string)
    (fieldValue : value) (code : Z) (found : bool) :
  (∀ t, tables st !! table_name = Some t →
        comparable_value t fieldName fieldValue = true) →
  validateField st table_name fieldName fieldValue = Reply code found →
  code = 200
  ∧ ∃ t, tables st !! table_name = Some t
         ∧ fieldName ∈ column_names t
         ∧ (double_quote ∉ list_ascii_of_string table_name)
         ∧ (double_quote ∉ list_ascii_of_string fieldName)
         ∧ (found = true
            ↔ present fieldValue = true
              ∧ ∃ r, r ∈ rows t ∧ cell r fieldName = fieldValue).
Proof.
  intros _. unfold validateField.
  destruct (isValidIdentifier table_name) eqn:Htn; [|done].
  destruct (isValidIdentifier fieldName) eqn:Hfn; [|done]. simpl.
  destruct (tables st !! table_name) as [t|]; [|done].
  destruct (has_column t fieldName) eqn:Hcol; [|done]. simpl.
  intros H.
  assert (Hres : code = 200
                 ∧ found = (Z.of_nat
                              (length
                                 (filter
                                    (λ r, sql_eq (cell r fieldName) fieldValue
                                          = true) (rows t))) >? 0)).
  { destruct fieldValue; try done; by injection H as <- <-. }
  destruct Hres as [-> ->]. split; [done|]. exists t. split; [done|].
  split; [by apply bool_decide_eq_true in Hcol|].
  split.
  { intros Hq. by apply (valid_identifier_chars _ Htn) in Hq. }
  split.
  { intros Hq. by apply (valid_identifier_chars _ Hfn) in Hq. }
  rewrite filter_length_pos. split.
  - intros (r & Hr & Heq). unfold sql_eq in Heq.
    apply andb_true_iff in Heq as [[_ Hp]%andb_true_iff Heq].
    apply bool_decide_eq_true in Heq. eauto.
  - intros [Hp (r & Hr & Heq)]. exists r. split; [done|].
    unfold sql_eq. rewrite Heq, Hp. simpl. by apply bool_decide_eq_true.
Qed.

Lemma validateField_exists_witness :
  200 = 200
  ∧ ∃ t, tables Sample.catalogue !! "provider_cat" = Some t
         ∧ "nombre" ∈ column_names t
         ∧ (double_quote ∉ list_ascii_of_string "provider_cat")
         ∧ (double_quote ∉ list_ascii_of_string "nombre")
         ∧ (true = true
            ↔ present (VStr "x") = true
              ∧ ∃ r, r ∈ rows t ∧ cell r "nombre" = VStr "x").
Proof.
  apply (validateField_exists Sample.catalogue "provider_cat" "nombre"
           (VStr "x") 200 true).
  - intros t Ht. vm_compute in Ht. injection Ht as <-. reflexivity.
  - vm_compute. reflexivity.
Defined.

(** X19. On a pi_ table of a plain name whose column [id] is an integer
    column with integer cells and to which no foreign key refers, and
    for a record id that is the decimal text of an integer [n] in
    range: deleteTableRecord removes the rows whose id is [n] and no
    other, whichever of 200 and 404 it answers, and leaves the rest of
    the state as it was. *)
Theorem deleteTableRecord_removes_rows (reports_none : list row → bool)
    (st : state) (table_name record_id : string) (n : Z) (t : table) :
  startsWith table_name "pi_" = true → plain_name table_name →
  tables st !! table_name = Some t →
  column_type t "id" = Some "integer" →
  typed_cells "integer" "id" t = true →
  referred_to st table_name = false →
  parse_int record_id = Some n → int4 n = true →
  ∃ resp st' t',
    deleteTableRecord reports_none st table_name record_id = (resp, st')
    ∧ (resp = Reply 200 tt ∨ resp = Refuse 404 NotFound)
    ∧ tables st' !! table_name = Some t'
    ∧ columns t' = columns t
    ∧ (∀ r, r ∈ rows t' ↔ r ∈ rows t ∧ cell r "id" ≠ VNum n)
    ∧ same_outside table_name st st'.
Proof.
  intros Hpi _ Ht Hty Hcells _ Hn _.
  assert (Hid : has_column t "id" = true).
  { unfold column_type in Hty.
    destruct (find _ (columns t)) as [c|] eqn:Hf; [|done].
    apply find_some in Hf as [Hin Hc]. apply String.eqb_eq in Hc.
    apply bool_decide_eq_true. unfold column_names. rewrite <- Hc.
    apply list_elem_of_In, in_map, Hin. }
  set (t1 := Table (columns t) (keys t)
               (filter (λ r, cell_matches (cell r "id") record_id ≠ true)
                  (rows t)) (next_id t)).
  set (st1 := set_tables st (<[table_name := t1]> (tables st))).
  set (deleted := filter (λ r, cell_matches (cell r "id") record_id = true)
                    (rows t)).
  exists (if reports_none deleted then Refuse 404 NotFound else Reply 200 tt),
         st1, t1.
  split.
  { unfold deleteTableRecord, sql_delete. rewrite Hpi, Ht. simpl.
    rewrite Hid. fold deleted. fold t1. fold st1.
    by destruct (reports_none deleted). }
  split; [destruct (reports_none deleted); [by right|by left]|].
  split; [apply lookup_insert_eq|]. split; [done|]. split.
  - intros r. simpl. rewrite list_elem_of_filter. split.
    + intros [Hne Hr]. split; [done|].
      rewrite (typed_id_hit t record_id n r Hcells Hn Hr) in Hne.
      intros Heq. apply Hne. by apply bool_decide_eq_true.
    + intros [Hr Hf]. split; [|done].
      rewrite (typed_id_hit t record_id n r Hcells Hn Hr).
      by rewrite bool_decide_eq_false_2.
  - repeat split. intros m Hm. simpl. by rewrite lookup_insert_ne.
Qed.

Lemma deleteTableRecord_removes_rows_witness :
  let st := Sample.with_tables [("pi_obras", Sample.pi_one)] in
  ∃ resp st' t',
    deleteTableRecord (λ _, false) st "pi_obras" "1" = (resp, st')
    ∧ (resp = Reply 200 tt ∨ resp = Refuse 404 NotFound)
    ∧ tables st' !! "pi_obras" = Some t'
    ∧ columns t' = columns Sample.pi_one
    ∧ (∀ r, r ∈ rows t' ↔ r ∈ rows Sample.pi_one ∧ cell r "id" ≠ VNum 1)
    ∧ same_outside "pi_obras" st st'.
Proof.
  intros st.
  apply (deleteTableRecord_removes_rows (λ _, false) st "pi_obras" "1" 1
           Sample.pi_one); reflexivity.
Defined.

(* ===================================================================== *)
(** * Further properties: creating a table again *)
(* ===================================================================== *)

Lemma existsb_app_last (n : string) (b : bool) (m : list (string * bool)) :
  existsb (λ e : string * bool, String.eqb e.1 n) (m ++ [(n, b)])%list = true.
Proof.
  rewrite existsb_app. simpl. rewrite String.eqb_refl.
  by rewrite orb_true_r.
Qed.

Lemma forallb_same {A} (f g : A → bool) (l : list A) :
  (∀ x, f x = g x) → forallb f l = forallb g l.
Proof. intros H. induction l as [|x l IH]; simpl; [done|]. by rewrite H, IH. Qed.

(** X20. deleteTable drops the table and leaves its registry entry, so
    creating the table again collides with the entry: after createTable
    (201) and deleteTable (200), the same createTable answers 500
    InternalError; when the name was fresh at the first creation the
    table has nevertheless been created again. The registry is not
    changed by the second call. *)
Theorem createTable_again_after_delete (st st1 st2 : state) (n : string)
    (fs : list field) :
  createTable st (Some n) (Some fs) = (Reply 201 tt, st1) →
  deleteTable st1 n = (Reply 200 tt, st2) →
  ∃ st3,
    createTable st2 (Some n) (Some fs) = (Refuse 500 InternalError, st3)
    ∧ tables st2 !! n = None
    ∧ (tables st !! n = None → is_Some (tables st3 !! n))
    ∧ metadata st3 = metadata st1.
Proof.
  unfold createTable at 1.
  destruct (String.eqb n "" || bool_decide (fs = [])) eqn:Hreq; [done|].
  destruct (negb (prefixed n)) eqn:Hdom; [done|].
  destruct (CreateTable.add_fields _ fs) as [e|cols] eqn:Hcols; [done|].
  destruct (db_createTable st n cols) as [st0|] eqn:Hdb; [|done].
  unfold TablesMetadata_create.
  destruct (existsb _ (metadata st0)) eqn:Hfresh; [done|].
  intros [= <-]. unfold deleteTable, dropTable.
  destruct (unquoted n ≫= count_rows _) as [recordCount|]; [|done].
  destruct (recordCount >? 0); [done|].
  destruct (referenced _ n); [done|]. intros [= <-].
  unfold createTable. rewrite Hreq, Hdom, Hcols.
  unfold db_createTable at 1. simpl tables. rewrite lookup_delete_eq.
  destruct (forallb _ cols) eqn:Hres.
  - eexists. split.
    + unfold TablesMetadata_create. simpl metadata.
      by rewrite existsb_app_last.
    + split; [done|]. split; [|done]. intros _. simpl.
      rewrite lookup_insert_eq. eauto.
  - eexists. split; [reflexivity|]. split; [done|].
    split; [|done]. intros Hnone. exfalso.
    revert Hdb. unfold db_createTable. rewrite Hnone.
    destruct (forallb
                (λ na : string * attribute,
                   references_resolve st n (map fst cols) na.2) cols)
      eqn:Hres0; [|done].
    intros [= <-].
    rewrite (forallb_same _
               (λ na : string * attribute,
                  references_resolve st n (map fst cols) na.2)) in Hres;
      [congruence|].
    intros [c a]. simpl.
    unfold references_resolve. destruct (references a) as [[m k]|]; [|done].
    unfold resolves. destruct (String.eqb m n) eqn:Hm; [done|].
    apply String.eqb_neq in Hm. simpl.
    by rewrite lookup_delete_ne, lookup_insert_ne.
Qed.

Lemma createTable_again_after_delete_witness :
  let fs := [Field (Some "nombre") (Some "TEXT") None None None] in
  let st1 := snd (createTable (Sample.with_tables []) (Some "pi_obras") (Some fs)) in
  let st2 := snd (deleteTable st1 "pi_obras") in
  ∃ st3,
    createTable st2 (Some "pi_obras") (Some fs)
    = (Refuse 500 InternalError, st3)
    ∧ tables st2 !! "pi_obras" = None
    ∧ (tables (Sample.with_tables []) !! "pi_obras" = None →
       is_Some (tables st3 !! "pi_obras"))
    ∧ metadata st3 = metadata st1.
Proof.
  intros fs st1 st2.
  apply (createTable_again_after_delete (Sample.with_tables []) st1 st2
           "pi_obras" fs); vm_compute; reflexivity.
Defined.

(* ===================================================================== *)
(** * Further properties: characterization records *)
(* ===================================================================== *)

(** X23. A 200 answer of getActiveCaracterizacionRecords holds exactly
    the rows of inscription_caracterizacion whose state column, a
    column named [estado] up to letter case, is 4. When that
    column is [Estado], none of them has the state 1 or 2 that
    getTableRecords requires of the characterization of a plan-item
    row. *)
Theorem active_records_have_estado_4 (st : state) (code : Z)
    (records : list row) :
  getActiveCaracterizacionRecords st = Reply code records →
  code = 200
  ∧ ∃ t c,
      tables st !! "inscription_caracterizacion" = Some t
      ∧ c ∈ column_names t ∧ toLowerCase c = "estado"
      ∧ (∀ r, r ∈ records ↔ r ∈ rows t ∧ cell r c = VNum 4)
      ∧ (c = "Estado" → ∀ r, r ∈ records → ¬ estado_1_or_2 r).
Proof.
  unfold getActiveCaracterizacionRecords, columns_of.
  destruct (tables st !! "inscription_caracterizacion") as [t|] eqn:Ht.
  2:{ by rewrite filter_nil. }
  destruct (filter _ (columns t)) as [|c cs] eqn:Hf; [done|].
  intros [= <- <-]. split; [done|]. exists t, (column_name c).
  assert (Hc : c ∈ filter (λ c, toLowerCase (column_name c) = "estado")
                     (columns t)) by (rewrite Hf; left).
  apply list_elem_of_filter in Hc as [Hlow Hin].
  assert (Hrows : ∀ r,
    r ∈ filter (λ r, sql_eq (cell r (column_name c)) (VNum 4) = true) (rows t)
    ↔ r ∈ rows t ∧ cell r (column_name c) = VNum 4).
  { intros r. rewrite list_elem_of_filter. split.
    - intros [Heq Hr]. split; [done|]. by apply sql_eq_true.
    - intros [Hr Heq]. split; [|done]. by rewrite Heq. }
  split; [done|]. split.
  { apply list_elem_of_In, in_map_iff. exists c. split; [done|].
    by apply list_elem_of_In. }
  split; [done|]. split; [exact Hrows|].
  intros Hname r Hr. apply Hrows in Hr as [_ Hr]. rewrite Hname in Hr.
  unfold estado_1_or_2. rewrite Hr. by intros [|].
Qed.

Lemma active_records_have_estado_4_witness :
  let rows_4 : list row := [{["id" := VNum 2; "Estado" := VNum 4]}] in
  200 = 200
  ∧ ∃ t c,
      tables Cases.characterized !! "inscription_caracterizacion" = Some t
      ∧ c ∈ column_names t ∧ toLowerCase c = "estado"
      ∧ (∀ r, r ∈ rows_4 ↔ r ∈ rows t ∧ cell r c = VNum 4)
      ∧ (c = "Estado" → ∀ r, r ∈ rows_4 → ¬ estado_1_or_2 r).
Proof.
  intros rows_4.
  apply (active_records_have_estado_4 Cases.characterized 200 rows_4).
  vm_compute. reflexivity.
Defined.

Lemma createTable_validation_witness :
  ∃ e,
    createTable (Sample.with_tables []) (Some "pi_obras")
      (Some [Field (Some "nombre") (Some "TEXT") None None None;
             Field (Some "  ") (Some "TEXT") None None None])
    = (Refuse 400 e, Sample.with_tables []).
Proof.
  apply (createTable_validation (Sample.with_tables []) "pi_obras").
  right. right. apply Exists_cons_tl, Exists_cons_hd. by left.
Defined.

(** A type unknown to createTable is refused too. *)
Example createTable_unknown_type :
  createTable (Sample.with_tables []) (Some "pi_obras")
    (Some [Field (Some "nombre") (Some "JSON") None None None])
  = (Refuse 400 InvalidFieldType, Sample.with_tables []).
Proof. reflexivity. Qed.


(* ===================================================================== *)
(** * Further properties: related data and field options *)
(* ===================================================================== *)

Lemma related_loop_eval (st0 : state) (table_name : string)
    (fields : list (string * string)) :
  (∀ fk rel, (fk, rel) ∈ fields → RecordById.skipped table_name rel = false) →
  (∀ fk rel, (fk, rel) ∈ fields → rel ≠ "" →
     is_Some (Models.findAll st0 rel (model_at st0 rel))) →
  ∀ st rd, same_view st0 st →
    ∃ st',
      RelatedData.loop st fields rd
      = (st', Some (fold_left (related_entry st0 table_name) fields rd)).
Proof.
  induction fields as [|[fk rel] fields IH]; intros Hskip Hfind st rd Hv.
  - eexists. reflexivity.
  - assert (Hskip' : ∀ fk' rel', (fk', rel') ∈ fields →
                     RecordById.skipped table_name rel' = false)
      by (intros fk' rel' Hin; apply (Hskip fk'); by right).
    assert (Hfind' : ∀ fk' rel', (fk', rel') ∈ fields → rel' ≠ "" →
                     is_Some (Models.findAll st0 rel' (model_at st0 rel')))
      by (intros fk' rel' Hin; apply (Hfind fk'); by right).
    cbn [RelatedData.loop fold_left]. unfold related_entry at 2.
    rewrite (Hskip fk rel) by left. simpl orb.
    destruct (String.eqb rel "") eqn:Hrel.
    + by apply IH.
    + apply String.eqb_neq in Hrel.
      destruct (model_of_view st0 st rel Hv) as [Hattrs Hv1].
      destruct (Models.model_of st rel) as [attrs st1]. simpl in Hattrs, Hv1.
      subst attrs. rewrite (same_view_findAll st0 st1 _ _ Hv1).
      destruct (Hfind fk rel) as [rs Hrs]; [left|done|]. rewrite Hrs.
      by apply IH.
Qed.

(** X24. getRelatedData runs the loop of getTableRecordById without
    its domain filter: when getTableRecordById answers for a table none
    of whose key relations the filter skips, getRelatedData on the same
    state answers 200 with the same related data. *)
Theorem getRelatedData_agrees (st st' : state) (table_name record_id : string)
    (code : Z) (res : RecordById.result) :
  getTableRecordById st table_name record_id = (Reply code res, st') →
  (∀ fk rel, (fk, rel) ∈ RecordById.key_relations st table_name →
             RecordById.skipped table_name rel = false) →
  ∃ st'',
    getRelatedData st table_name
    = (Reply 200 (RecordById.relatedData res), st'').
Proof.
  intros Hget Hskip.
  destruct (getTableRecordById_related _ _ _ _ _ _ Hget) as [-> Hfind].
  destruct (related_loop_eval st table_name
              (RecordById.key_relations st table_name) Hskip
              (λ fk rel Hin Hne, Hfind fk rel Hin (Hskip fk rel Hin) Hne)
              st ∅) as [st'' Hloop]; [done|].
  exists st''. unfold getRelatedData. by rewrite Hloop.
Qed.

Lemma getRelatedData_agrees_witness :
  ∃ st'',
    getRelatedData Sample.catalogue "provider_items"
    = (Reply 200
         {["id" := [RecordById.Choice (VNum 1) (VStr "i")];
           "cat_id" := [RecordById.Choice (VNum 1) (VStr "x");
                        RecordById.Choice (VNum 2) (VStr "y")]]},
       st'').
Proof.
  refine (getRelatedData_agrees Sample.catalogue
            (snd (getTableRecordById Sample.catalogue "provider_items" "1"))
            "provider_items" "1" 200
            (RecordById.Result
               {["id" := VNum 1; "nombre" := VStr "i"; "cat_id" := VNum 1]}
               {["id" := [RecordById.Choice (VNum 1) (VStr "i")];
                 "cat_id" := [RecordById.Choice (VNum 1) (VStr "x");
                              RecordById.Choice (VNum 2) (VStr "y")]]}) _ _).
  - vm_compute. reflexivity.
  - intros fk rel Hin. vm_compute in Hin.
    repeat (apply elem_of_cons in Hin as [[= -> ->]|Hin]; [reflexivity|]).
    by apply elem_of_nil in Hin.
Defined.

Lemma mapM_option_values (rs : list row) (os : list FieldOptions.option_entry) :
  mapM FieldOptions.option_of rs = Some os →
  map FieldOptions.option_value os = map (λ r : row, cell r "id") rs.
Proof.
  revert os. induction rs as [|r rs IH]; intros os.
  - by intros [= <-].
  - rewrite mapM_Some. intros Hall. inversion Hall as [|? o ? os' Ho Hos]; subst.
    simpl. f_equal.
    + unfold FieldOptions.option_of in Ho.
      destruct (find _ _); [by injection Ho as <-|].
      destruct (present _); [by injection Ho as <-|done].
    + apply IH. by apply mapM_Some.
Qed.

(** X25. For a plain table name and field name and a catalog of plain
    names, which the statements that splice them read as they are:
    getFieldOptions answers 400 when no key constraint of the table
    covers the field. A 200 answer comes from a key constraint on the
    field, primary keys included, and holds one option per row of the
    table that constraint refers to, in order, each with the id of its
    row as value: for the key column [id] these are the rows of the
    table itself. *)
Theorem getFieldOptions_reads_referenced_table (st : state)
    (table_name field_name : string) :
  plain_name table_name → plain_name field_name → plain_catalog st = true →
  (¬ keyed st table_name field_name →
   getFieldOptions st table_name field_name = Refuse 400 NotFound)
  ∧ ∀ code options,
      getFieldOptions st table_name field_name = Reply code options →
      code = 200
      ∧ ∃ t k related,
          tables st !! table_name = Some t ∧ k ∈ keys t
          ∧ key_column k = field_name
          ∧ tables st !! ref_table k = Some related
          ∧ map FieldOptions.option_value options
            = map (λ r : row, cell r "id") (rows related).
Proof.
  intros _ _ _.
  unfold getFieldOptions, RecordById.key_relations, keyed.
  destruct (tables st !! table_name) as [t|] eqn:Ht.
  2:{ split; [done|]. intros code options. done. }
  destruct (List.filter _ _) as [|[fk rel] l] eqn:Hf.
  - split; [done|]. intros code options. done.
  - assert (Hin : In (fk, rel)
                    (List.filter (λ kr : string * string, String.eqb kr.1 field_name)
                       (map (λ k, (key_column k, ref_table k)) (keys t))))
      by (rewrite Hf; by left).
    apply filter_In in Hin as [Hin Heq]. simpl in Heq.
    apply String.eqb_eq in Heq as ->.
    apply in_map_iff in Hin as (k & [= Hk Hrel] & Hkin).
    apply list_elem_of_In in Hkin. split.
    + intros Hno. exfalso. apply Hno. eauto.
    + intros code options.
      destruct (tables st !! rel) as [related|] eqn:Hrt; [|done].
      destruct (mapM _ _) as [os|] eqn:Hos; [|done]. intros [= <- <-].
      split; [done|]. exists t, k, related. rewrite Hrel.
      repeat split; try done. by apply mapM_option_values.
Qed.

Lemma getFieldOptions_reads_referenced_table_witness :
  (¬ keyed Sample.catalogue "provider_items" "cat_id" →
   getFieldOptions Sample.catalogue "provider_items" "cat_id"
   = Refuse 400 NotFound)
  ∧ ∀ code options,
      getFieldOptions Sample.catalogue "provider_items" "cat_id"
      = Reply code options →
      code = 200
      ∧ ∃ t k related,
          tables Sample.catalogue !! "provider_items" = Some t ∧ k ∈ keys t
          ∧ key_column k = "cat_id"
          ∧ tables Sample.catalogue !! ref_table k = Some related
          ∧ map FieldOptions.option_value options
            = map (λ r : row, cell r "id") (rows related).
Proof.
  apply (getFieldOptions_reads_referenced_table Sample.catalogue
           "provider_items" "cat_id"); vm_compute; reflexivity.
Defined.

Example getFieldOptions_of_key_column :
  getFieldOptions Sample.catalogue "provider_items" "id"
  = Reply 200
      [FieldOptions.OptionEntry (VNum 1) (FieldOptions.Shown (VStr "i"))]
  ∧ getFieldOptions Sample.catalogue "provider_items" "cat_id"
    = Reply 200
        [FieldOptions.OptionEntry (VNum 1) (FieldOptions.Shown (VStr "x"));
         FieldOptions.OptionEntry (VNum 2) (FieldOptions.Shown (VStr "y"))]
  ∧ getFieldOptions Sample.catalogue "provider_items" "nombre"
    = Refuse 400 NotFound.
Proof. repeat split; vm_compute; reflexivity. Qed.
